(** * Forest-fire early-warning backend: grid, weather, scorer, aggregator

    A shallow embedding of the Python backend (grid.py, weather.py, model.py,
    main.py) together with the properties its specification states.

    Numbers.  The backend computes in binary floating point.  Two readings
    of its arithmetic are kept side by side.  The main development reads
    Python floats as exact rationals ([Q]) and [round(x, n)] as
    round-half-to-even on the exact value: it carries the properties of
    order, range and structure, which do not depend on the last bit.  The
    module [Binary64] reads the scorer and the index derivation once more
    with IEEE-754 doubles and their rounding: it carries the properties that
    are about the very value returned.  Two library functions have no
    rational counterpart: [math.cos], which only feeds the stored cell area,
    is taken over the real numbers ([R]), and the float power [x ** y] is a
    parameter of the runtime, next to the string hash and the pseudo-random
    generator.

    Effects.  The global generator state, the answers of the live weather
    service, the models directory, the cached model instance and the trace
    of calls made are threaded explicitly through a [World]; [print] is not
    modelled. *)

From Stdlib Require Import ZArith QArith Qround Qabs Reals Qreals Psatz Ascii String List Sorted.
From stdpp Require Import gmap strings pretty.
Import ListNotations.
Open Scope string_scope.
Open Scope Q_scope.

(** ** Python numerics over the rationals *)

Definition Qltb (x y : Q) : bool := negb (Qle_bool y x).
Definition Qleb (x y : Q) : bool := Qle_bool x y.

(** [min(a, b)] and [max(a, b)] keep their first argument unless the second
    one is strictly smaller (resp. larger). *)
Definition py_min (a b : Q) : Q := if Qltb b a then b else a.
Definition py_max (a b : Q) : Q := if Qltb a b then b else a.

(** Nearest integer, ties to the even one. *)
Definition round_half_even (x : Q) : Z :=
  let f := Qfloor x in
  match Qcompare (x - inject_Z f) (1 # 2) with
  | Lt => f
  | Gt => (f + 1)%Z
  | Eq => if Z.even f then f else (f + 1)%Z
  end.

Definition pow10 (n : nat) : Q := inject_Z (10 ^ Z.of_nat n).

(** [round(x, n)] *)
Definition py_round (x : Q) (n : nat) : Q :=
  inject_Z (round_half_even (x * pow10 n)) / pow10 n.

(** The same rounding on real numbers, for the cell area. *)
Definition Rround_half_even (x : R) : Z :=
  let f := Zfloor x in
  if Rlt_dec (x - IZR f) (1 / 2) then f
  else if Rlt_dec (1 / 2) (x - IZR f) then (f + 1)%Z
  else if Z.even f then f else (f + 1)%Z.

Definition Rpy_round (x : R) (n : nat) : R :=
  (IZR (Rround_half_even (x * 10 ^ n)) / 10 ^ n)%R.

(** [math.radians] *)
Definition radians (x : R) : R := (x * (PI / 180))%R.

(** ** Exceptions *)

Inductive exn :=
| ValueError (msg : string)
| ZeroDivisionError
| KeyError (key : string)
| IndexError
| AttributeError
| TypeError
| HTTPException (status_code : Z) (detail : string).

Inductive result (A : Type) :=
| Ok (a : A)
| Raise (e : exn).
Arguments Ok {A} a.
Arguments Raise {A} e.

(** ** grid.py *)

(** The [bounds] dictionaries always carry the four keys below. *)
Record Bounds := mkBounds { north : Q; south : Q; east : Q; west : Q }.

Module GridCell.
Record t := mk {
  id : string;
  region : string;
  row : nat;
  col : nat;
  center_lat : Q;
  center_lng : Q;
  bounds : Bounds;
  area_km2 : R
}.
End GridCell.

Module ForestRegion.
Record t := mk {
  id : string;
  name : string;
  description : string;
  center_lat : Q;
  center_lng : Q;
  bounds : Bounds;
  grid_rows : nat;
  grid_cols : nat
}.
End ForestRegion.

Definition amazon : ForestRegion.t :=
  ForestRegion.mk "amazon" "Amazon Rainforest"
    "Brazil - World's largest tropical rainforest"
    (-3.4653) (-62.2159) (mkBounds (-2.0) (-5.0) (-60.0) (-65.0)) 3 4.

Definition california : ForestRegion.t :=
  ForestRegion.mk "california" "California Forests"
    "USA - Sierra Nevada and coastal forests"
    37.5 (-119.5) (mkBounds 39.0 36.0 (-118.0) (-121.0)) 3 4.

Definition australia : ForestRegion.t :=
  ForestRegion.mk "australia" "Australian Bushland"
    "Australia - Eastern forest regions"
    (-33.5) 150.5 (mkBounds (-32.0) (-35.0) 152.0 149.0) 3 4.

Definition mediterranean : ForestRegion.t :=
  ForestRegion.mk "mediterranean" "Mediterranean Forests"
    "Southern Europe - Portugal, Spain, Greece"
    38.5 (-8.0) (mkBounds 40.0 37.0 (-6.0) (-10.0)) 3 4.

Definition FOREST_REGIONS : gmap string ForestRegion.t :=
  <["amazon" := amazon]>
    (<["california" := california]>
       (<["australia" := australia]>
          (<["mediterranean" := mediterranean]> ∅))).

(** Keys in insertion order, as [list(FOREST_REGIONS.keys())] shows them. *)
Definition FOREST_REGIONS_keys : list string :=
  ["amazon"; "california"; "australia"; "mediterranean"].

Definition calculate_grid_area (bounds : Bounds) : R :=
  let lat_diff := Qabs (north bounds - south bounds) in
  let lng_diff := Qabs (east bounds - west bounds) in
  let avg_lat := (north bounds + south bounds) / 2 in
  let km_per_lng := (111 * cos (radians (Q2R avg_lat)))%R in
  (Q2R lat_diff * 111 * Q2R lng_diff * km_per_lng)%R.

(** Body of the two nested loops of [generate_grids_for_region]. *)
Definition make_cell (region_id : string) (region : ForestRegion.t)
    (lat_step lng_step : Q) (row col : nat) : GridCell.t :=
  let grid_id := region_id +:+ "_grid_" +:+ pretty row +:+ "_" +:+ pretty col in
  let north := north (ForestRegion.bounds region) - inject_Z (Z.of_nat row) * lat_step in
  let south := north - lat_step in
  let west := west (ForestRegion.bounds region) + inject_Z (Z.of_nat col) * lng_step in
  let east := west + lng_step in
  let cell_bounds := mkBounds north south east west in
  let center_lat := (north + south) / 2 in
  let center_lng := (east + west) / 2 in
  let area := calculate_grid_area cell_bounds in
  GridCell.mk grid_id region_id row col center_lat center_lng cell_bounds
    (Rpy_round area 2).

(** [generate_grids_for_region] after the registry lookup. *)
Definition grids_of_region (region_id : string) (region : ForestRegion.t)
    : result (list GridCell.t) :=
  if Nat.eqb (ForestRegion.grid_rows region) 0 then Raise ZeroDivisionError
  else if Nat.eqb (ForestRegion.grid_cols region) 0 then Raise ZeroDivisionError
  else
    let b := ForestRegion.bounds region in
    let lat_step := (north b - south b) / inject_Z (Z.of_nat (ForestRegion.grid_rows region)) in
    let lng_step := (east b - west b) / inject_Z (Z.of_nat (ForestRegion.grid_cols region)) in
    Ok (flat_map
          (fun row =>
             map (fun col => make_cell region_id region lat_step lng_step row col)
               (seq 0 (ForestRegion.grid_cols region)))
          (seq 0 (ForestRegion.grid_rows region))).

Definition generate_grids_for_region (region_id : string) : result (list GridCell.t) :=
  match FOREST_REGIONS !! region_id with
  | None => Raise (ValueError ("Unknown region: " +:+ region_id))
  | Some region => grids_of_region region_id region
  end.

(** ** The runtime the backend runs on

    [py_hash] is [hash] on strings (fixed within one process), the generator
    is the [random] module's global one ([random.seed], [random.random]) and
    [float_pow x y] is [x ** y]. *)

Class Runtime := {
  py_hash : string -> Z;
  rng_state : Type;
  rng_seed : Z -> rng_state;
  rng_random : rng_state -> Q * rng_state;
  float_pow : Q -> Q -> Q
}.

(** Contract of [random.random()]: the next float in [0.0, 1.0). *)
Definition random_in_unit_interval `{Runtime} : Prop :=
  forall s, 0 <= fst (rng_random s) /\ fst (rng_random s) < 1.

(** ** weather.py *)

(** The weather dictionaries, one optional field per key they may hold. *)
Record WeatherData := mkWeatherData {
  temperature : option Q;
  humidity : option Q;
  wind_speed : option Q;
  rainfall : option Q;
  source : option string;
  weather_description : option string;
  ffmc : option Q;
  dmc : option Q;
  dc : option Q;
  isi : option Q;
  bui : option Q;
  fwi : option Q;
  lat : option Q;
  lng : option Q;
  grid_id : option string
}.

Definition empty_weather : WeatherData :=
  mkWeatherData None None None None None None None None None None None None
    None None None.

(** [d.get(key, default)] *)
Definition get_default {A : Type} (field : option A) (default : A) : A :=
  match field with Some v => v | None => default end.

(** [d[key]] *)
Definition get_item {A : Type} (key : string) (field : option A) : result A :=
  match field with Some v => Ok v | None => Raise (KeyError key) end.

(** A JSON value where the code expects a number: a number, or something
    that is not one (null, a string, an array, an object).  A number is
    finite and within the range of a double, so that Python's mixed
    arithmetic converts it without complaint; [true] and [false] compute as
    1 and 0. *)
Inductive Reading := Number (q : Q) | NotNumber.

(** Arithmetic on a reading raises [TypeError] unless it is a number. *)
Definition numeric (r : Reading) : result Q :=
  match r with Number q => Ok q | NotNumber => Raise TypeError end.

(** What the live service can answer to one request.  [HttpFailure] is a
    network error or timeout; a reply whose body is [None] makes the code
    inside the [try] raise: it does not parse, lacks a required field, or
    its wind speed cannot be multiplied by 3.6.  Temperature, humidity and
    the rain of the last hour are not touched there and are kept as they
    came; a rain entry that is absent or falsy is [None]. *)
Record ApiBody := mkApiBody {
  main_temp : Reading;
  main_humidity : Reading;
  wind_speed_ms : Q;
  rain_1h : option Reading;
  weather0_description : option string
}.

(** The dictionary a live fetch returns; its source is the live service. *)
Record LiveWeather := mkLiveWeather {
  live_temperature : Reading;
  live_humidity : Reading;
  live_wind_speed : Q;
  live_rainfall : Reading;
  live_description : string
}.

Inductive HttpOutcome :=
| HttpFailure
| HttpReply (status_code : Z) (body : option ApiBody).

Record FireIndices := mkFireIndices {
  ix_ffmc : Q; ix_dmc : Q; ix_dc : Q; ix_isi : Q; ix_bui : Q; ix_fwi : Q
}.

Section Weather.
Context `{RT : Runtime}.

(** [random.uniform(a, b)] is [a + (b - a) * random()]. *)
Definition uniform (a b : Q) (s : rng_state) : Q * rng_state :=
  let (r, s') := rng_random s in (a + (b - a) * r, s').

(** The values [generate_simulated_weather] draws, before it rounds them:
    temperature, humidity, wind speed and rainfall.  The generator state on
    entry is overwritten by [random.seed(seed)]. *)
Definition simulated_values (lat lng : Q) (grid_id : string)
    (s : rng_state) : (Q * Q * Q * Q) * rng_state :=
  let seed := (py_hash grid_id mod 10000)%Z in
  let s := rng_seed seed in
  let lat_factor := 1 - (Qabs lat / 90) in
  let base_temp := 20 + (lat_factor * 20) in
  let (u, s) := uniform (-5) 10 s in
  let temperature := base_temp + u in
  let temperature := py_max 15 (py_min 45 temperature) in
  let (u, s) := uniform (-10) 10 s in
  let humidity := 90 - (temperature - 20) * 2 + u in
  let humidity := py_max 20 (py_min 95 humidity) in
  let (wind_speed, s) := uniform 5 25 s in
  let (rainfall, s) := if Qltb 60 humidity then uniform 0 5 s else (0, s) in
  ((temperature, humidity, wind_speed, rainfall), s).

Definition generate_simulated_weather (lat lng : Q) (grid_id : string)
    (s : rng_state) : WeatherData * rng_state :=
  let '((temperature, humidity, wind_speed, rainfall), s) :=
    simulated_values lat lng grid_id s in
  (mkWeatherData
     (Some (py_round temperature 1))
     (Some (py_round humidity 1))
     (Some (py_round wind_speed 1))
     (Some (py_round rainfall 1))
     (Some "simulated")
     (Some "Simulated conditions")
     None None None None None None None None None,
   s).

(** The index derivation in the exact reading; [Binary64] has it with the
    rounding of every operation. *)
Definition generate_fire_weather_indices (weather : WeatherData)
    : result FireIndices :=
  match get_item "temperature" (temperature weather) with
  | Raise e => Raise e
  | Ok temp =>
  match get_item "humidity" (humidity weather) with
  | Raise e => Raise e
  | Ok humidity =>
  match get_item "wind_speed" (wind_speed weather) with
  | Raise e => Raise e
  | Ok wind =>
  match get_item "rainfall" (rainfall weather) with
  | Raise e => Raise e
  | Ok rain =>
    let ffmc_base := 60 + (temp - 25) * 1.5 - (humidity - 50) * 0.3 in
    let ffmc := py_max 40 (py_min 96 (ffmc_base - rain * 3)) in
    let dmc := py_max 1 (py_min 30 (10 + (temp - 25) * 0.5 - humidity * 0.1)) in
    let dc := py_max 5 (py_min 400 (150 + (temp - 25) * 5 - rain * 10)) in
    let isi := py_max 0 (py_min 15 ((ffmc - 60) * 0.15 + wind * 0.2)) in
    let bui := py_max 1 (py_min 40 (dmc * 0.8 + dc * 0.02)) in
    let fwi := py_max 0 (py_min 25 (float_pow (isi * bui) 0.5)) in
    Ok (mkFireIndices (py_round ffmc 1) (py_round dmc 1) (py_round dc 1)
          (py_round isi 1) (py_round bui 1) (py_round fwi 1))
  end end end end.

(** [{**weather, **fwi_indices, "lat": lat, "lng": lng, "grid_id": grid_id}] *)
Definition merge_weather (weather : WeatherData) (ix : FireIndices)
    (lat lng : Q) (grid_id : string) : WeatherData :=
  mkWeatherData
    (temperature weather) (humidity weather) (wind_speed weather)
    (rainfall weather) (source weather) (weather_description weather)
    (Some (ix_ffmc ix)) (Some (ix_dmc ix)) (Some (ix_dc ix))
    (Some (ix_isi ix)) (Some (ix_bui ix)) (Some (ix_fwi ix))
    (Some lat) (Some lng) (Some grid_id).

Definition get_weather_sync (lat lng : Q) (grid_id : string) (s : rng_state)
    : result WeatherData * rng_state :=
  let (weather, s) := generate_simulated_weather lat lng grid_id s in
  match generate_fire_weather_indices weather with
  | Raise e => (Raise e, s)
  | Ok fwi_indices => (Ok (merge_weather weather fwi_indices lat lng grid_id), s)
  end.
End Weather.

(** ** model.py *)

Definition FEATURE_COLUMNS : list string :=
  ["Temperature"; "RH"; "Ws"; "Rain"; "FFMC"; "DMC"; "DC"; "ISI"; "BUI"; "FWI"].

Definition WEATHER_TO_FEATURE : list (string * string) :=
  [("temperature", "Temperature"); ("humidity", "RH"); ("wind_speed", "Ws");
   ("rainfall", "Rain"); ("ffmc", "FFMC"); ("dmc", "DMC"); ("dc", "DC");
   ("isi", "ISI"); ("bui", "BUI"); ("fwi", "FWI")].

Definition RISK_THRESHOLDS_low : Q * Q := (0, 33).
Definition RISK_THRESHOLDS_medium : Q * Q := (34, 66).
Definition RISK_THRESHOLDS_high : Q * Q := (67, 100).

Inductive Category := Low | Medium | High.

Inductive Impact := critical | high | moderate | protective.

(** The fitted classifier and scaler are opaque: [predict_proba] gives the
    class probabilities of the one row it is asked about. *)
Record Classifier := mkClassifier {
  predict_proba : list Q -> list Q;
  feature_importances_ : list Q
}.

Record Scaler := mkScaler { transform : list Q -> list Q }.

Record FireRiskModel := mkFireRiskModel {
  model : option Classifier;
  scaler : option Scaler;
  metadata : option string;
  is_loaded : bool
}.

(** A file of the models directory: missing, present but failing to load,
    or holding a value. *)
Inductive file (A : Type) := Absent | Corrupt | Present (a : A).
Arguments Absent {A}.
Arguments Corrupt {A}.
Arguments Present {A} a.

Record ModelDir := mkModelDir {
  MODEL_PATH : file Classifier;
  SCALER_PATH : file Scaler;
  METADATA_PATH : file string
}.

Definition exists_ {A : Type} (f : file A) : bool :=
  match f with Absent => false | _ => true end.

(** [FireRiskModel.__init__] followed by [_load_model]: an exception leaves
    the fields assigned so far and clears [is_loaded]. *)
Definition _load_model (dir : ModelDir) : FireRiskModel :=
  if exists_ (MODEL_PATH dir) && exists_ (SCALER_PATH dir) then
    match MODEL_PATH dir with
    | Present m =>
        match SCALER_PATH dir with
        | Present s =>
            match METADATA_PATH dir with
            | Absent => mkFireRiskModel (Some m) (Some s) None true
            | Present md => mkFireRiskModel (Some m) (Some s) (Some md) true
            | Corrupt => mkFireRiskModel (Some m) (Some s) None false
            end
        | _ => mkFireRiskModel (Some m) None None false
        end
    | _ => mkFireRiskModel None None None false
    end
  else mkFireRiskModel None None None false.

(** Numeric entries of a weather dictionary by key. *)
Definition weather_num (key : string) (w : WeatherData) : option Q :=
  if String.eqb key "temperature" then temperature w
  else if String.eqb key "humidity" then humidity w
  else if String.eqb key "wind_speed" then wind_speed w
  else if String.eqb key "rainfall" then rainfall w
  else if String.eqb key "ffmc" then ffmc w
  else if String.eqb key "dmc" then dmc w
  else if String.eqb key "dc" then dc w
  else if String.eqb key "isi" then isi w
  else if String.eqb key "bui" then bui w
  else if String.eqb key "fwi" then fwi w
  else if String.eqb key "lat" then lat w
  else if String.eqb key "lng" then lng w
  else None.

Definition feature_defaults : list (string * Q) :=
  [("Temperature", 25); ("RH", 50); ("Ws", 10); ("Rain", 0); ("FFMC", 70);
   ("DMC", 10); ("DC", 100); ("ISI", 5); ("BUI", 15); ("FWI", 10)].

Fixpoint assoc_get {A : Type} (key : string) (d : list (string * A)) : option A :=
  match d with
  | [] => None
  | (k, v) :: d' => if String.eqb k key then Some v else assoc_get key d'
  end.

(** First weather key mapped to the feature name. *)
Fixpoint find_weather_key (feature_name : string) (items : list (string * string))
    : option string :=
  match items with
  | [] => None
  | (wk, fn) :: items' =>
      if String.eqb fn feature_name then Some wk
      else find_weather_key feature_name items'
  end.

Definition _weather_to_features (weather_data : WeatherData) : list Q :=
  map (fun feature_name =>
         match find_weather_key feature_name WEATHER_TO_FEATURE with
         | Some weather_key =>
             match weather_num weather_key weather_data with
             | Some v => v
             | None => get_default (assoc_get feature_name feature_defaults) 0
             end
         | None => get_default (assoc_get feature_name feature_defaults) 0
         end)
      FEATURE_COLUMNS.

(** The fallback risk in the exact reading; [Binary64] has it with the
    rounding of every operation. *)
Definition _calculate_fallback_risk (weather_data : WeatherData) : Q :=
  let temp := get_default (temperature weather_data) 25 in
  let humidity := get_default (humidity weather_data) 50 in
  let wind := get_default (wind_speed weather_data) 10 in
  let rain := get_default (rainfall weather_data) 0 in
  let fwi := get_default (fwi weather_data) 10 in
  let risk :=
    (temp - 20) * 2 + (80 - humidity) * 0.5 + wind * 1.5 + fwi * 3 - rain * 10 in
  let risk := py_max 0 (py_min 100 risk) in
  risk.

Definition fallback_importance : list (string * Q) :=
  [("Temperature", 0.18); ("RH", 0.15); ("Ws", 0.12); ("Rain", 0.10);
   ("FFMC", 0.15); ("DMC", 0.08); ("DC", 0.07); ("ISI", 0.06); ("BUI", 0.05);
   ("FWI", 0.04)].

Record Prediction := mkPrediction {
  risk_score : Q;
  risk_category : Category;
  probability : Q;
  feature_importance : list (string * Q);
  model_type : string
}.

(** The shared tail of [predict]: rounding and the category. *)
Definition finish_prediction (self : FireRiskModel) (risk_score fire_probability : Q)
    (feature_importance : list (string * Q)) : Prediction :=
  let risk_score := py_round risk_score 1 in
  let category :=
    if Qleb risk_score (snd RISK_THRESHOLDS_low) then Low
    else if Qleb risk_score (snd RISK_THRESHOLDS_medium) then Medium
    else High in
  mkPrediction risk_score category (py_round fire_probability 4)
    (map (fun kv => (fst kv, py_round (snd kv) 4)) feature_importance)
    (if is_loaded self then "Random Forest" else "Rule-based Fallback").

Definition predict (self : FireRiskModel) (weather_data : WeatherData)
    : result Prediction :=
  match is_loaded self, model self with
  | true, Some m =>
      let features := _weather_to_features weather_data in
      match scaler self with
      | None => Raise AttributeError
      | Some sc =>
          let features_scaled := transform sc features in
          let proba := predict_proba m features_scaled in
          match (if Nat.ltb 1 (length proba) then nth_error proba 1
                 else nth_error proba 0) with
          | None => Raise IndexError
          | Some fire_probability =>
              let risk_score := fire_probability * 100 in
              let importance := feature_importances_ m in
              let feature_importance := combine FEATURE_COLUMNS importance in
              Ok (finish_prediction self risk_score fire_probability
                    feature_importance)
          end
      end
  | _, _ =>
      let risk_score := _calculate_fallback_risk weather_data in
      let fire_probability := risk_score / 100 in
      Ok (finish_prediction self risk_score fire_probability fallback_importance)
  end.

Record Factor := mkFactor {
  factor : string;
  value : Q * string;
  impact : Impact;
  description : string
}.

Record Explanation := mkExplanation {
  summary : string;
  contributing_factors : list Factor;
  top_features : list (string * Q)
}.

Definition Impact_eqb (a b : Impact) : bool :=
  match a, b with
  | critical, critical | high, high | moderate, moderate
  | protective, protective => true
  | _, _ => false
  end.

Definition _generate_summary (category : Category) (factors : list Factor) : string :=
  let critical_count :=
    length (List.filter (fun f => Impact_eqb (impact f) critical) factors) in
  match category with
  | High => "⚠️ HIGH RISK: " +:+ pretty critical_count
            +:+ " critical factors detected. Immediate preventive action recommended."
  | Medium => "⚡ MEDIUM RISK: Moderate fire conditions present. Enhanced monitoring advised."
  | Low => "✅ LOW RISK: Current conditions are favorable. Standard monitoring sufficient."
  end.

(** [sorted(items, key=lambda x: x[1], reverse=True)]: stable, descending. *)
Fixpoint insert_desc (x : string * Q) (l : list (string * Q)) : list (string * Q) :=
  match l with
  | [] => [x]
  | y :: l' => if Qltb (snd y) (snd x) then x :: l else y :: insert_desc x l'
  end.

Definition sorted_desc (l : list (string * Q)) : list (string * Q) :=
  fold_left (fun acc x => insert_desc x acc) l [].

(** The formatted [value] of a factor is kept as the number and its unit. *)
Definition explain_prediction (self : FireRiskModel) (weather_data : WeatherData)
    (prediction : Prediction) : Explanation :=
  let importance := feature_importance prediction in
  let temp := get_default (temperature weather_data) 25 in
  let factors1 :=
    if Qltb 35 temp then
      [mkFactor "High Temperature" (temp, "°C") critical
         "Extreme heat significantly increases fire ignition and spread risk."]
    else if Qltb 30 temp then
      [mkFactor "Elevated Temperature" (temp, "°C") high
         "Above-average temperatures increase vegetation dryness."]
    else [] in
  let humidity := get_default (humidity weather_data) 50 in
  let factors2 :=
    if Qltb humidity 30 then
      [mkFactor "Very Low Humidity" (humidity, "%") critical
         "Low humidity allows fuels to dry rapidly, increasing flammability."]
    else if Qltb humidity 50 then
      [mkFactor "Low Humidity" (humidity, "%") moderate
         "Below-normal humidity contributes to drier conditions."]
    else [] in
  let wind := get_default (wind_speed weather_data) 10 in
  let factors3 :=
    if Qltb 20 wind then
      [mkFactor "High Wind Speed" (wind, " km/h") critical
         "Strong winds can rapidly spread fire and make control difficult."]
    else if Qltb 15 wind then
      [mkFactor "Moderate Wind" (wind, " km/h") moderate
         "Wind assists fire spread and reduces humidity."]
    else [] in
  let rain := get_default (rainfall weather_data) 0 in
  let factors4 :=
    if Qltb 5 rain then
      [mkFactor "Recent Rainfall" (rain, " mm") protective
         "Recent precipitation reduces fire risk by moistening fuels."]
    else if Qltb rain 1 then
      [mkFactor "No Recent Rain" (rain, " mm") moderate
         "Dry conditions persist without recent precipitation."]
    else [] in
  let fwi := get_default (fwi weather_data) 10 in
  let factors5 :=
    if Qltb 15 fwi then
      [mkFactor "High Fire Weather Index" (fwi, "") critical
         "FWI indicates severe fire weather conditions."]
    else [] in
  let factors := (factors1 ++ factors2 ++ factors3 ++ factors4 ++ factors5)%list in
  mkExplanation (_generate_summary (risk_category prediction) factors) factors
    (firstn 5 (sorted_desc (feature_importance prediction))).

(** ** The world around the backend *)

(** Calls whose occurrence is observable: requests sent to the live service
    and the per-cell steps of the pipeline. *)
Inductive Call :=
| CallHttpGet (lat lng : Q)
| CallSimulate (grid_id : string)
| CallIndices (grid_id : string)
| CallPredict (grid_id : string)
| CallLoadModel.

Record World `{Runtime} := mkWorld {
  OPENWEATHER_API_KEY : string;
  (** answers of the live service to the requests still to come; a request
      beyond the end of the script fails *)
  service : list HttpOutcome;
  rng : rng_state;
  model_dir : ModelDir;
  _model_instance : option FireRiskModel;
  trace : list Call
}.
Arguments mkWorld {_} _ _ _ _ _ _.

Inductive AlertLevel := CRITICAL | WARNING | NORMAL.

Record GridPrediction := mkGridPrediction {
  gp_grid_id : string;
  gp_row : nat;
  gp_col : nat;
  gp_center : Q * Q;
  gp_bounds : Bounds;
  gp_area_km2 : R;
  gp_risk_score : Q;
  gp_risk_category : Category;
  gp_probability : Q;
  gp_weather : WeatherData;
  gp_model_type : string
}.

Record Summary := mkSummary {
  total_grids : nat;
  average_risk : Q;
  max_risk : Q;
  min_risk : Q;
  high_risk_count : nat;
  medium_risk_count : nat;
  low_risk_count : nat;
  data_source_real : nat;
  data_source_simulated : nat;
  alert_level : AlertLevel
}.

Record RegionPredictionResponse := mkRegionPredictionResponse {
  rp_success : bool;
  rp_region_id : string;
  rp_region_name : string;
  rp_grids : list GridPrediction;
  rp_summary : Summary
}.

Record GridExplanationResponse := mkGridExplanationResponse {
  ge_success : bool;
  ge_grid : GridCell.t;
  ge_weather : WeatherData;
  ge_prediction : Prediction;
  ge_explanation : Explanation
}.

Definition Category_eqb (a b : Category) : bool :=
  match a, b with
  | Low, Low | Medium, Medium | High, High => true
  | _, _ => false
  end.

(** [l.count(x)] *)
Definition count {A : Type} (eqb : A -> A -> bool) (x : A) (l : list A) : nat :=
  length (List.filter (fun y => eqb y x) l).

Definition sum (l : list Q) : Q := fold_left Qplus l 0.

(** [max(l)] and [min(l)] of a non-empty list, scanning left to right. *)
Definition max_list (first : Q) (rest : list Q) : Q := fold_left py_max rest first.
Definition min_list (first : Q) (rest : list Q) : Q := fold_left py_min rest first.

(** The summary statistics of [predict_fire_risk]. *)
Definition summarize (predictions : list GridPrediction) : result Summary :=
  let risk_scores := map gp_risk_score predictions in
  let categories := map gp_risk_category predictions in
  let sources := map (fun p => get_default (source (gp_weather p)) "unknown") predictions in
  let real_data_count := count String.eqb "openweather_api" sources in
  let simulated_count := count String.eqb "simulated" sources in
  match risk_scores with
  | [] => Raise ZeroDivisionError
  | first :: rest =>
      Ok (mkSummary
            (length predictions)
            (py_round (sum risk_scores / inject_Z (Z.of_nat (length risk_scores))) 1)
            (py_round (max_list first rest) 1)
            (py_round (min_list first rest) 1)
            (count Category_eqb High categories)
            (count Category_eqb Medium categories)
            (count Category_eqb Low categories)
            real_data_count
            simulated_count
            (if Nat.leb 3 (count Category_eqb High categories) then CRITICAL
             else if Nat.leb 1 (count Category_eqb High categories) then WARNING
             else NORMAL))
  end.

Section Backend.
Context `{RT : Runtime}.

(** Computations that read and change the world and may raise. *)
Definition M (A : Type) : Type := World -> result A * World.

Definition ret {A : Type} (a : A) : M A := fun w => (Ok a, w).

Definition raise {A : Type} (e : exn) : M A := fun w => (Raise e, w).

Definition bind {A B : Type} (c : M A) (k : A -> M B) : M B :=
  fun w =>
    match c w with
    | (Ok a, w') => k a w'
    | (Raise e, w') => (Raise e, w')
    end.

Definition lift {A : Type} (r : result A) : M A := fun w => (r, w).

Definition log (c : Call) : M unit :=
  fun w =>
    (Ok tt,
     mkWorld (OPENWEATHER_API_KEY w) (service w) (rng w) (model_dir w)
       (_model_instance w) (trace w ++ [c])%list).

Notation "x <- c ;; k" := (bind c (fun x => k))
  (at level 100, c at next level, right associativity).
Notation "c ;;; k" := (bind c (fun _ => k))
  (at level 100, right associativity).

Fixpoint mapM {A B : Type} (f : A -> M B) (l : list A) : M (list B) :=
  match l with
  | [] => ret []
  | a :: l' => b <- f a ;; bs <- mapM f l' ;; ret (b :: bs)
  end.

(** One GET on the live service. *)
Definition http_get (lat lng : Q) : M HttpOutcome :=
  fun w =>
    let w' := mkWorld (OPENWEATHER_API_KEY w) (tl (service w)) (rng w)
                (model_dir w) (_model_instance w)
                (trace w ++ [CallHttpGet lat lng])%list in
    (Ok (hd HttpFailure (service w)), w').

Definition fetch_weather_from_api (lat lng : Q) : M (option LiveWeather) :=
  fun w =>
    if String.eqb (OPENWEATHER_API_KEY w) "" then (Ok None, w)
    else
      (outcome <- http_get lat lng ;;
       match outcome with
       | HttpReply 200 (Some data) =>
           ret (Some
                  (mkLiveWeather
                     (main_temp data)
                     (main_humidity data)
                     (wind_speed_ms data * 3.6)
                     match rain_1h data with
                     | Some (Number v) => Number (if Qeq_bool v 0 then 0 else v)
                     | Some NotNumber => NotNumber
                     | None => Number 0
                     end
                     (get_default (weather0_description data) "Unknown")))
       | _ => ret None
       end) w.

(** [generate_simulated_weather] on the global generator. *)
Definition simulate (lat lng : Q) (grid_id : string) : M WeatherData :=
  fun w =>
    let (weather, s) := generate_simulated_weather lat lng grid_id (rng w) in
    (Ok weather,
     mkWorld (OPENWEATHER_API_KEY w) (service w) s (model_dir w)
       (_model_instance w) (trace w ++ [CallSimulate grid_id])%list).

(** A live dictionary under the arithmetic of
    [generate_fire_weather_indices]: its first lines compute with the
    temperature, the humidity and the rainfall and raise [TypeError] on the
    first of them that is not a number; on numbers the dictionary is an
    ordinary weather dictionary. *)
Definition live_observation (live : LiveWeather) : result WeatherData :=
  match numeric (live_temperature live) with
  | Raise e => Raise e
  | Ok temp =>
  match numeric (live_humidity live) with
  | Raise e => Raise e
  | Ok humidity =>
  match numeric (live_rainfall live) with
  | Raise e => Raise e
  | Ok rain =>
      Ok (mkWeatherData (Some temp) (Some humidity) (Some (live_wind_speed live))
            (Some rain) (Some "openweather_api") (Some (live_description live))
            None None None None None None None None None)
  end end end.

Definition get_weather_for_grid (lat lng : Q) (grid_id : string) : M WeatherData :=
  weather <- fetch_weather_from_api lat lng ;;
  match weather with
  | None =>
      weather <- simulate lat lng grid_id ;;
      log (CallIndices grid_id) ;;;
      fwi_indices <- lift (generate_fire_weather_indices weather) ;;
      ret (merge_weather weather fwi_indices lat lng grid_id)
  | Some live =>
      log (CallIndices grid_id) ;;;
      weather <- lift (live_observation live) ;;
      fwi_indices <- lift (generate_fire_weather_indices weather) ;;
      ret (merge_weather weather fwi_indices lat lng grid_id)
  end.

(** [get_model]: the process-wide instance, built on first use. *)
Definition get_model : M FireRiskModel :=
  fun w =>
    match _model_instance w with
    | Some m => (Ok m, w)
    | None =>
        let m := _load_model (model_dir w) in
        (Ok m,
         mkWorld (OPENWEATHER_API_KEY w) (service w) (rng w) (model_dir w)
           (Some m) (trace w ++ [CallLoadModel])%list)
    end.

Definition predict_for_grid (model : FireRiskModel) (grid : GridCell.t)
    : M GridPrediction :=
  weather <- get_weather_for_grid (GridCell.center_lat grid)
               (GridCell.center_lng grid) (GridCell.id grid) ;;
  log (CallPredict (GridCell.id grid)) ;;;
  prediction <- lift (predict model weather) ;;
  ret (mkGridPrediction (GridCell.id grid) (GridCell.row grid) (GridCell.col grid)
         (GridCell.center_lat grid, GridCell.center_lng grid)
         (GridCell.bounds grid) (GridCell.area_km2 grid)
         (risk_score prediction) (risk_category prediction)
         (probability prediction) weather (model_type prediction)).

Definition available_regions : string :=
  "['amazon', 'california', 'australia', 'mediterranean']".

(** [POST /api/predict].  The cells are taken one after the other, in
    grid order, which is also the order of the results of
    [asyncio.gather]. *)
Definition predict_fire_risk (region_id : string) : M RegionPredictionResponse :=
  match FOREST_REGIONS !! region_id with
  | None =>
      raise (HTTPException 404
               ("Unknown region: " +:+ region_id +:+ ". Available: "
                +:+ available_regions))
  | Some region =>
      grids <- lift (generate_grids_for_region region_id) ;;
      model <- get_model ;;
      predictions <- mapM (predict_for_grid model) grids ;;
      summary <- lift (summarize predictions) ;;
      ret (mkRegionPredictionResponse true region_id (ForestRegion.name region)
             predictions summary)
  end.

(** [GET /api/grid/{region_id}/{grid_id}] *)
Definition get_grid_explanation (region_id grid_id : string)
    : M GridExplanationResponse :=
  match FOREST_REGIONS !! region_id with
  | None => raise (HTTPException 404 ("Unknown region: " +:+ region_id))
  | Some _ =>
      grids <- lift (generate_grids_for_region region_id) ;;
      match List.find (fun g => String.eqb (GridCell.id g) grid_id) grids with
      | None => raise (HTTPException 404 ("Grid not found: " +:+ grid_id))
      | Some grid =>
          weather <- get_weather_for_grid (GridCell.center_lat grid)
                       (GridCell.center_lng grid) (GridCell.id grid) ;;
          model <- get_model ;;
          log (CallPredict (GridCell.id grid)) ;;;
          prediction <- lift (predict model weather) ;;
          let explanation := explain_prediction model weather prediction in
          ret (mkGridExplanationResponse true grid weather prediction explanation)
      end
  end.
End Backend.

(** ** grid.py and main.py: the read-only endpoints *)

(** An entry of [get_all_regions]. *)
Record RegionEntry := mkRegionEntry {
  re_id : string;
  re_name : string;
  re_description : string;
  re_center : Q * Q;
  re_bounds : Bounds;
  re_grid_count : nat
}.

(** A grid cell as a dictionary; [grid_cell_to_dict] also carries the
    region, the cells of [get_region_info] do not. *)
Record GridDict := mkGridDict {
  gd_id : string;
  gd_region : option string;
  gd_row : nat;
  gd_col : nat;
  gd_center : Q * Q;
  gd_bounds : Bounds;
  gd_area_km2 : R
}.

Record RegionInfo := mkRegionInfo {
  ri_id : string;
  ri_name : string;
  ri_description : string;
  ri_center : Q * Q;
  ri_bounds : Bounds;
  ri_grids : list GridDict
}.

(** [FOREST_REGIONS.values()], in insertion order. *)
Definition FOREST_REGIONS_values : list ForestRegion.t :=
  omap (fun key => FOREST_REGIONS !! key) FOREST_REGIONS_keys.

Definition get_all_regions : list RegionEntry :=
  map (fun region =>
         mkRegionEntry (ForestRegion.id region) (ForestRegion.name region)
           (ForestRegion.description region)
           (ForestRegion.center_lat region, ForestRegion.center_lng region)
           (ForestRegion.bounds region)
           (ForestRegion.grid_rows region * ForestRegion.grid_cols region))
      FOREST_REGIONS_values.

Definition get_region_info (region_id : string) : result RegionInfo :=
  match FOREST_REGIONS !! region_id with
  | None => Raise (ValueError ("Unknown region: " +:+ region_id))
  | Some region =>
      match generate_grids_for_region region_id with
      | Raise e => Raise e
      | Ok grids =>
          Ok (mkRegionInfo (ForestRegion.id region) (ForestRegion.name region)
                (ForestRegion.description region)
                (ForestRegion.center_lat region, ForestRegion.center_lng region)
                (ForestRegion.bounds region)
                (map (fun g =>
                        mkGridDict (GridCell.id g) None (GridCell.row g)
                          (GridCell.col g)
                          (GridCell.center_lat g, GridCell.center_lng g)
                          (GridCell.bounds g) (GridCell.area_km2 g))
                     grids))
      end
  end.

Definition grid_cell_to_dict (grid : GridCell.t) : GridDict :=
  mkGridDict (GridCell.id grid) (Some (GridCell.region grid)) (GridCell.row grid)
    (GridCell.col grid) (GridCell.center_lat grid, GridCell.center_lng grid)
    (GridCell.bounds grid) (GridCell.area_km2 grid).

(** [GET /api/regions]: the count and the entries. *)
Definition list_regions : bool * nat * list RegionEntry :=
  let regions := get_all_regions in
  (true, length regions, regions).

(** [GET /api/grids/{region_id}]: a [ValueError] becomes a 404 carrying its
    message, any other exception passes through. *)
Definition get_grids (region_id : string) : result (bool * RegionInfo) :=
  match get_region_info region_id with
  | Ok region_info => Ok (true, region_info)
  | Raise (ValueError msg) => Raise (HTTPException 404 msg)
  | Raise e => Raise e
  end.

Section Health.
Context `{RT : Runtime}.

(** [GET /api/health]: status, [model_loaded] and [regions_available]. *)
Definition health_check : M (string * bool * nat) :=
  bind get_model (fun model =>
  ret ("healthy", is_loaded model, size FOREST_REGIONS)).
End Health.

(** ** model.py and weather.py in binary floating point

    The scorer and the index derivation once more, this time with Python's
    floats as they are: IEEE-754 binary64 numbers, every operation rounded
    to the nearest representable value, ties to even.  A float is kept by
    its exact rational value (the sign of a zero is not kept); Python
    integers, which here stay far below 2^53, are the floats of the same
    value.  [x ** y] is the power of the C library. *)

Module Binary64.

Inductive float := Finite (q : Q) | PlusInf | MinusInf | NaN.

(** 2^e *)
Definition two_power (e : Z) : Q :=
  if (0 <=? e)%Z then inject_Z (2 ^ e) else 1 # Z.to_pos (2 ^ (- e)).

(** The integer part of the binary logarithm of a positive rational. *)
Definition floor_log2 (q : Q) : Z :=
  let k := (Z.log2 (Qnum q) - Z.log2 (Zpos (Qden q)))%Z in
  if Qle_bool (two_power k) q then k else (k - 1)%Z.

(** Rounding of an exact result: the nearest number with a 53-bit
    significand (fewer below 2^-1022), ties to the even significand,
    infinite from 2^1024 on. *)
Definition nearest (q : Q) : float :=
  if Qeq_bool q 0 then Finite 0
  else
    let e := Z.max (floor_log2 (Qabs q) - 52) (-1074) in
    let m := round_half_even (q / two_power e) in
    let v := Qred (inject_Z m * two_power e) in
    if Qle_bool (two_power 1024) (Qabs v)
    then (if Qle_bool 0 q then PlusInf else MinusInf)
    else Finite v.

Definition neg (x : float) : float :=
  match x with
  | Finite q => Finite (- q)
  | PlusInf => MinusInf
  | MinusInf => PlusInf
  | NaN => NaN
  end.

(** [x + y] *)
Definition add (x y : float) : float :=
  match x, y with
  | Finite a, Finite b => nearest (a + b)
  | NaN, _ | _, NaN => NaN
  | PlusInf, MinusInf | MinusInf, PlusInf => NaN
  | PlusInf, _ | _, PlusInf => PlusInf
  | MinusInf, _ | _, MinusInf => MinusInf
  end.

(** [x - y] *)
Definition sub (x y : float) : float := add x (neg y).

(** The product of an infinity of the given sign with [y]. *)
Definition mul_inf (positive : bool) (y : float) : float :=
  match y with
  | NaN => NaN
  | Finite b =>
      if Qeq_bool b 0 then NaN
      else if Bool.eqb positive (Qle_bool 0 b) then PlusInf else MinusInf
  | PlusInf => if positive then PlusInf else MinusInf
  | MinusInf => if positive then MinusInf else PlusInf
  end.

(** [x * y] *)
Definition mul (x y : float) : float :=
  match x, y with
  | Finite a, Finite b => nearest (a * b)
  | NaN, _ => NaN
  | PlusInf, _ => mul_inf true y
  | MinusInf, _ => mul_inf false y
  | _, PlusInf => mul_inf true x
  | _, MinusInf => mul_inf false x
  | _, NaN => NaN
  end.

(** [x / y]: Python raises on a zero divisor. *)
Definition truediv (x y : float) : result float :=
  match x, y with
  | _, Finite b =>
      if Qeq_bool b 0 then Raise ZeroDivisionError
      else match x with
           | Finite a => Ok (nearest (a / b))
           | _ => Ok (mul_inf (Qle_bool 0 b) x)
           end
  | NaN, _ | _, NaN => Ok NaN
  | Finite _, _ => Ok (Finite 0)
  | _, _ => Ok NaN
  end.

(** [x < y] and [x <= y]: false as soon as one side is not a number. *)
Definition lt (x y : float) : bool :=
  match x, y with
  | Finite a, Finite b => Qltb a b
  | NaN, _ | _, NaN => false
  | _, MinusInf => false
  | PlusInf, _ => false
  | _, _ => true
  end.

Definition le (x y : float) : bool :=
  match x, y with
  | Finite a, Finite b => Qleb a b
  | NaN, _ | _, NaN => false
  | MinusInf, _ => true
  | _, PlusInf => true
  | _, _ => false
  end.

(** [min(a, b)] and [max(a, b)] keep their first argument unless the second
    one compares strictly smaller (resp. larger). *)
Definition py_min (a b : float) : float := if lt b a then b else a.
Definition py_max (a b : float) : float := if lt a b then b else a.

(** [round(x, n)]: the float nearest to the decimal that is nearest to the
    exact value of [x], ties to the even digit; infinities and not-a-number
    round to themselves. *)
Definition round (x : float) (n : nat) : float :=
  match x with
  | Finite q => nearest (py_round q n)
  | _ => x
  end.

(** A literal, read as the nearest float. *)
Definition lit (q : Q) : float := nearest q.

(** The C library behind [**].  The bases the backend raises to a power
    lie in [0, 600], where the result is a float and no error is raised. *)
Class Libm := { float_pow : float -> float -> float }.

(** *** weather.py *)

(** The numeric entries of a weather dictionary. *)
Record WeatherData := mkWeatherData {
  temperature : option float;
  humidity : option float;
  wind_speed : option float;
  rainfall : option float;
  ffmc : option float;
  dmc : option float;
  dc : option float;
  isi : option float;
  bui : option float;
  fwi : option float
}.

Record FireIndices := mkFireIndices {
  ix_ffmc : float; ix_dmc : float; ix_dc : float;
  ix_isi : float; ix_bui : float; ix_fwi : float
}.

Definition generate_fire_weather_indices `{Libm} (weather : WeatherData)
    : result FireIndices :=
  match get_item "temperature" (temperature weather) with
  | Raise e => Raise e
  | Ok temp =>
  match get_item "humidity" (humidity weather) with
  | Raise e => Raise e
  | Ok humidity =>
  match get_item "wind_speed" (wind_speed weather) with
  | Raise e => Raise e
  | Ok wind =>
  match get_item "rainfall" (rainfall weather) with
  | Raise e => Raise e
  | Ok rain =>
    let ffmc_base :=
      sub (add (lit 60) (mul (sub temp (lit 25)) (lit 1.5)))
          (mul (sub humidity (lit 50)) (lit 0.3)) in
    let ffmc := py_max (lit 40) (py_min (lit 96) (sub ffmc_base (mul rain (lit 3)))) in
    let dmc :=
      py_max (lit 1)
        (py_min (lit 30)
           (sub (add (lit 10) (mul (sub temp (lit 25)) (lit 0.5)))
                (mul humidity (lit 0.1)))) in
    let dc :=
      py_max (lit 5)
        (py_min (lit 400)
           (sub (add (lit 150) (mul (sub temp (lit 25)) (lit 5)))
                (mul rain (lit 10)))) in
    let isi :=
      py_max (lit 0)
        (py_min (lit 15)
           (add (mul (sub ffmc (lit 60)) (lit 0.15)) (mul wind (lit 0.2)))) in
    let bui :=
      py_max (lit 1)
        (py_min (lit 40) (add (mul dmc (lit 0.8)) (mul dc (lit 0.02)))) in
    let fwi := py_max (lit 0) (py_min (lit 25) (float_pow (mul isi bui) (lit 0.5))) in
    Ok (mkFireIndices (round ffmc 1) (round dmc 1) (round dc 1)
          (round isi 1) (round bui 1) (round fwi 1))
  end end end end.

(** *** model.py *)

Record Classifier := mkClassifier {
  predict_proba : list float -> list float;
  feature_importances_ : list float
}.

Record Scaler := mkScaler { transform : list float -> list float }.

Record FireRiskModel := mkFireRiskModel {
  model : option Classifier;
  scaler : option Scaler;
  metadata : option string;
  is_loaded : bool
}.

Record ModelDir := mkModelDir {
  MODEL_PATH : file Classifier;
  SCALER_PATH : file Scaler;
  METADATA_PATH : file string
}.

Definition _load_model (dir : ModelDir) : FireRiskModel :=
  if exists_ (MODEL_PATH dir) && exists_ (SCALER_PATH dir) then
    match MODEL_PATH dir with
    | Present m =>
        match SCALER_PATH dir with
        | Present s =>
            match METADATA_PATH dir with
            | Absent => mkFireRiskModel (Some m) (Some s) None true
            | Present md => mkFireRiskModel (Some m) (Some s) (Some md) true
            | Corrupt => mkFireRiskModel (Some m) (Some s) None false
            end
        | _ => mkFireRiskModel (Some m) None None false
        end
    | _ => mkFireRiskModel None None None false
    end
  else mkFireRiskModel None None None false.

Definition weather_num (key : string) (w : WeatherData) : option float :=
  if String.eqb key "temperature" then temperature w
  else if String.eqb key "humidity" then humidity w
  else if String.eqb key "wind_speed" then wind_speed w
  else if String.eqb key "rainfall" then rainfall w
  else if String.eqb key "ffmc" then ffmc w
  else if String.eqb key "dmc" then dmc w
  else if String.eqb key "dc" then dc w
  else if String.eqb key "isi" then isi w
  else if String.eqb key "bui" then bui w
  else if String.eqb key "fwi" then fwi w
  else None.

Definition feature_defaults : list (string * float) :=
  [("Temperature", lit 25); ("RH", lit 50); ("Ws", lit 10); ("Rain", lit 0);
   ("FFMC", lit 70); ("DMC", lit 10); ("DC", lit 100); ("ISI", lit 5);
   ("BUI", lit 15); ("FWI", lit 10)].

Definition _weather_to_features (weather_data : WeatherData) : list float :=
  map (fun feature_name =>
         match find_weather_key feature_name WEATHER_TO_FEATURE with
         | Some weather_key =>
             match weather_num weather_key weather_data with
             | Some v => v
             | None => get_default (assoc_get feature_name feature_defaults) (lit 0)
             end
         | None => get_default (assoc_get feature_name feature_defaults) (lit 0)
         end)
      FEATURE_COLUMNS.

Definition _calculate_fallback_risk (weather_data : WeatherData) : float :=
  let temp := get_default (temperature weather_data) (lit 25) in
  let humidity := get_default (humidity weather_data) (lit 50) in
  let wind := get_default (wind_speed weather_data) (lit 10) in
  let rain := get_default (rainfall weather_data) (lit 0) in
  let fwi := get_default (fwi weather_data) (lit 10) in
  let risk :=
    sub (add (add (add (mul (sub temp (lit 20)) (lit 2))
                       (mul (sub (lit 80) humidity) (lit 0.5)))
                  (mul wind (lit 1.5)))
             (mul fwi (lit 3)))
        (mul rain (lit 10)) in
  let risk := py_max (lit 0) (py_min (lit 100) risk) in
  risk.

Definition fallback_importance : list (string * float) :=
  [("Temperature", lit 0.18); ("RH", lit 0.15); ("Ws", lit 0.12);
   ("Rain", lit 0.10); ("FFMC", lit 0.15); ("DMC", lit 0.08); ("DC", lit 0.07);
   ("ISI", lit 0.06); ("BUI", lit 0.05); ("FWI", lit 0.04)].

Record Prediction := mkPrediction {
  risk_score : float;
  risk_category : Category;
  probability : float;
  feature_importance : list (string * float);
  model_type : string
}.

(** The shared tail of [predict]: rounding and the category. *)
Definition finish_prediction (self : FireRiskModel) (risk_score fire_probability : float)
    (feature_importance : list (string * float)) : Prediction :=
  let risk_score := round risk_score 1 in
  let category :=
    if le risk_score (lit (snd RISK_THRESHOLDS_low)) then Low
    else if le risk_score (lit (snd RISK_THRESHOLDS_medium)) then Medium
    else High in
  mkPrediction risk_score category (round fire_probability 4)
    (map (fun kv => (fst kv, round (snd kv) 4)) feature_importance)
    (if is_loaded self then "Random Forest" else "Rule-based Fallback").

Definition predict (self : FireRiskModel) (weather_data : WeatherData)
    : result Prediction :=
  match is_loaded self, model self with
  | true, Some m =>
      let features := _weather_to_features weather_data in
      match scaler self with
      | None => Raise AttributeError
      | Some sc =>
          let features_scaled := transform sc features in
          let proba := predict_proba m features_scaled in
          match (if Nat.ltb 1 (length proba) then nth_error proba 1
                 else nth_error proba 0) with
          | None => Raise IndexError
          | Some fire_probability =>
              let risk_score := mul fire_probability (lit 100) in
              let importance := feature_importances_ m in
              let feature_importance := combine FEATURE_COLUMNS importance in
              Ok (finish_prediction self risk_score fire_probability
                    feature_importance)
          end
      end
  | _, _ =>
      let risk_score := _calculate_fallback_risk weather_data in
      match truediv risk_score (lit 100) with
      | Raise e => Raise e
      | Ok fire_probability =>
          Ok (finish_prediction self risk_score fire_probability fallback_importance)
      end
  end.
End Binary64.

(** ** Notions the specification uses *)

(** Clamping as the specification words it. *)
Definition clamp (lo hi x : Q) : Q :=
  if Qltb x lo then lo else if Qltb hi x then hi else x.



(** The category bands as the specification states them. *)
Definition stated_bands (score : Q) (c : Category) : Prop :=
  (c = Low <-> score <= 33) /\
  (c = Medium <-> 34 <= score /\ score <= 66) /\
  (c = High <-> 67 <= score).

(** The classifier answers with probabilities. *)
Definition probabilities_in_unit (self : FireRiskModel) : Prop :=
  forall m x p, model self = Some m -> In p (predict_proba m x) -> 0 <= p /\ p <= 1.

(** The scorer of a process that found no model files. *)
Definition fallback_model : FireRiskModel :=
  _load_model (mkModelDir Absent Absent Absent).

(** A process that found a classifier answering 0.2 / 0.8 whatever the
    features, and a scaler that leaves them as they are. *)
Definition example_classifier : Classifier :=
  mkClassifier (fun _ => [0.2; 0.8])
    [0.2; 0.15; 0.1; 0.1; 0.15; 0.08; 0.07; 0.06; 0.05; 0.04].

Definition example_loaded_model : FireRiskModel :=
  _load_model
    (mkModelDir (Present example_classifier) (Present (mkScaler (fun x => x))) Absent).

(** A weather dictionary holding the five inputs of the fallback formula. *)
Definition weather_of (temp humidity wind rain fwi : Q) : WeatherData :=
  mkWeatherData (Some temp) (Some humidity) (Some wind) (Some rain) None None
    None None None None None (Some fwi) None None None.

(** The explanation rules, as the code applies them: a factor name, its
    severity and the value that triggers it. *)
Inductive fires (w : WeatherData) : string -> Impact -> Q -> Prop :=
| fires_high_temperature :
    35 < get_default (temperature w) 25 ->
    fires w "High Temperature" critical (get_default (temperature w) 25)
| fires_elevated_temperature :
    30 < get_default (temperature w) 25 -> get_default (temperature w) 25 <= 35 ->
    fires w "Elevated Temperature" high (get_default (temperature w) 25)
| fires_very_low_humidity :
    get_default (humidity w) 50 < 30 ->
    fires w "Very Low Humidity" critical (get_default (humidity w) 50)
| fires_low_humidity :
    30 <= get_default (humidity w) 50 -> get_default (humidity w) 50 < 50 ->
    fires w "Low Humidity" moderate (get_default (humidity w) 50)
| fires_high_wind_speed :
    20 < get_default (wind_speed w) 10 ->
    fires w "High Wind Speed" critical (get_default (wind_speed w) 10)
| fires_moderate_wind :
    15 < get_default (wind_speed w) 10 -> get_default (wind_speed w) 10 <= 20 ->
    fires w "Moderate Wind" moderate (get_default (wind_speed w) 10)
| fires_recent_rainfall :
    5 < get_default (rainfall w) 0 ->
    fires w "Recent Rainfall" protective (get_default (rainfall w) 0)
| fires_no_recent_rain :
    get_default (rainfall w) 0 < 1 ->
    fires w "No Recent Rain" moderate (get_default (rainfall w) 0)
| fires_high_fwi :
    15 < get_default (fwi w) 10 ->
    fires w "High Fire Weather Index" critical (get_default (fwi w) 10).

(** The same rules with the three middle bands read with both endpoints, as
    the specification words them. *)
Inductive stated_fires (w : WeatherData) : string -> Impact -> Q -> Prop :=
| stated_high_temperature :
    35 < get_default (temperature w) 25 ->
    stated_fires w "High Temperature" critical (get_default (temperature w) 25)
| stated_elevated_temperature :
    30 <= get_default (temperature w) 25 -> get_default (temperature w) 25 <= 35 ->
    stated_fires w "Elevated Temperature" high (get_default (temperature w) 25)
| stated_very_low_humidity :
    get_default (humidity w) 50 < 30 ->
    stated_fires w "Very Low Humidity" critical (get_default (humidity w) 50)
| stated_low_humidity :
    30 <= get_default (humidity w) 50 -> get_default (humidity w) 50 <= 50 ->
    stated_fires w "Low Humidity" moderate (get_default (humidity w) 50)
| stated_high_wind_speed :
    20 < get_default (wind_speed w) 10 ->
    stated_fires w "High Wind Speed" critical (get_default (wind_speed w) 10)
| stated_moderate_wind :
    15 <= get_default (wind_speed w) 10 -> get_default (wind_speed w) 10 <= 20 ->
    stated_fires w "Moderate Wind" moderate (get_default (wind_speed w) 10)
| stated_recent_rainfall :
    5 < get_default (rainfall w) 0 ->
    stated_fires w "Recent Rainfall" protective (get_default (rainfall w) 0)
| stated_no_recent_rain :
    get_default (rainfall w) 0 < 1 ->
    stated_fires w "No Recent Rain" moderate (get_default (rainfall w) 0)
| stated_high_fwi :
    15 < get_default (fwi w) 10 ->
    stated_fires w "High Fire Weather Index" critical (get_default (fwi w) 10).

(** A contributing factor of the given name, severity and value is listed. *)
Definition lists_factor (e : Explanation) (name : string) (i : Impact) (v : Q) : Prop :=
  exists f, In f (contributing_factors e) /\
            factor f = name /\ impact f = i /\ fst (value f) = v.

(** The live service gives no observation for this request. *)
Definition live_unavailable `{Runtime} (lat lng : Q) (w : World) : Prop :=
  fst (fetch_weather_from_api lat lng w) = Ok None.

(** A small runtime to run the model on examples: the hash is the length of
    the string, the generator is a linear congruential one on 31 bits, and
    the power is a square root taken to three decimals on the integers. *)
Definition lcg_next (s : Z) : Z := ((s * 1103515245 + 12345) mod 2147483648)%Z.

#[export] Instance example_runtime : Runtime := {|
  py_hash := fun s => Z.of_nat (String.length s);
  rng_state := Z;
  rng_seed := fun seed => seed;
  rng_random := fun s => (inject_Z (lcg_next s) / inject_Z 2147483648, lcg_next s);
  float_pow := fun x _ => inject_Z (Z.sqrt (Qfloor (x * 1000000))) / 1000
|}.

Definition example_world : World :=
  mkWorld "" [] 0%Z (mkModelDir Absent Absent Absent) None [].

(** A per-cell result of the given category, for examples of aggregation. *)
Definition cell_result (c : Category) : GridPrediction :=
  mkGridPrediction "" 0 0 (0, 0) (mkBounds 0 0 0 0) 0%R 0 c 0 empty_weather "".

(** The same process later on: the generator has been used and the model
    has been loaded. *)
Definition example_world_later : World :=
  mkWorld "" [] 20260101%Z (mkModelDir Absent Absent Absent)
    (Some fallback_model) [CallLoadModel].

(** The equal subdivisions of a region's latitude and longitude spans. *)
Definition lat_step (region : ForestRegion.t) : Q :=
  (north (ForestRegion.bounds region) - south (ForestRegion.bounds region))
  / inject_Z (Z.of_nat (ForestRegion.grid_rows region)).

Definition lng_step (region : ForestRegion.t) : Q :=
  (east (ForestRegion.bounds region) - west (ForestRegion.bounds region))
  / inject_Z (Z.of_nat (ForestRegion.grid_cols region)).

(** The points of a bounding box; the north and west edges belong to it,
    the south and east edges to its neighbours. *)
Definition in_box (b : Bounds) (lat lng : Q) : Prop :=
  south b < lat /\ lat <= north b /\ west b <= lng /\ lng < east b.

(** A region that can be partitioned: a proper box and a positive arity. *)
Definition well_formed (region : ForestRegion.t) : Prop :=
  (0 < ForestRegion.grid_rows region)%nat /\
  (0 < ForestRegion.grid_cols region)%nat /\
  south (ForestRegion.bounds region) < north (ForestRegion.bounds region) /\
  west (ForestRegion.bounds region) < east (ForestRegion.bounds region).

(** A live dictionary holding something that is not a number where the
    index derivation computes. *)
Definition ill_typed (live : LiveWeather) : Prop :=
  live_temperature live = NotNumber \/ live_humidity live = NotNumber \/
  live_rainfall live = NotNumber.

(** The four entries the index derivation reads. *)
Definition observed (obs : WeatherData) : Prop :=
  is_Some (temperature obs) /\ is_Some (humidity obs) /\
  is_Some (wind_speed obs) /\ is_Some (rainfall obs).

(** Categories in increasing order of severity. *)
Definition category_rank (c : Category) : nat :=
  match c with Low => 0 | Medium => 1 | High => 2 end.

(** Importance entries in descending order of value, and the entries of a
    given value. *)
Definition descending (a b : string * Q) : Prop := snd b <= snd a.

Definition has_value (v : Q) (x : string * Q) : bool := Qeq_bool (snd x) v.

(** Whether a character occurs in a string. *)
Fixpoint has_char (c : Ascii.ascii) (s : string) : bool :=
  match s with
  | EmptyString => false
  | String a s' => Ascii.eqb a c || has_char c s'
  end.

(** Requests on the live service among the calls of a trace, and the
    request a cell gives rise to. *)
Definition is_http_get (c : Call) : bool :=
  match c with CallHttpGet _ _ => true | _ => false end.

Definition request_of (g : GridCell.t) : Call :=
  CallHttpGet (GridCell.center_lat g) (GridCell.center_lng g).

(** A process without an API key. *)
Definition offline `{Runtime} (w : World) : bool :=
  String.eqb (OPENWEATHER_API_KEY w) "".

(** From [w] to [w'] the configuration and the cached model are kept, the
    trace grows, and the requests sent are [requests], one scripted answer
    being consumed for each; none is sent without a key. *)
Definition runs_requests `{Runtime} (requests : list Call) (w w' : World) : Prop :=
  OPENWEATHER_API_KEY w' = OPENWEATHER_API_KEY w /\
  model_dir w' = model_dir w /\
  _model_instance w' = _model_instance w /\
  exists calls,
    trace w' = (trace w ++ calls)%list /\
    List.filter is_http_get calls = (if offline w then [] else requests) /\
    service w' = (if offline w then service w
                  else skipn (length requests) (service w)).

(** The entry of a cell in the region response. *)
Definition cell_entry (grid : GridCell.t) (weather : WeatherData) (p : Prediction)
    : GridPrediction :=
  mkGridPrediction (GridCell.id grid) (GridCell.row grid) (GridCell.col grid)
    (GridCell.center_lat grid, GridCell.center_lng grid)
    (GridCell.bounds grid) (GridCell.area_km2 grid)
    (risk_score p) (risk_category p) (probability p) weather (model_type p).

(** [gp] is the entry of [grid] scored by [model] on an observation of the
    provider; in a process without a key the observation is the simulated
    one of the cell. *)
Definition answers `{Runtime} (model : FireRiskModel) (off : bool)
    (grid : GridCell.t) (gp : GridPrediction) : Prop :=
  exists p,
    predict model (gp_weather gp) = Ok p /\
    gp = cell_entry grid (gp_weather gp) p /\
    (source (gp_weather gp) = Some "openweather_api" \/
     source (gp_weather gp) = Some "simulated") /\
    (off = true ->
     source (gp_weather gp) = Some "simulated" /\
     forall s,
       fst (get_weather_sync (GridCell.center_lat grid) (GridCell.center_lng grid)
              (GridCell.id grid) s) = Ok (gp_weather gp)).

(** A process with an API key, on a service that answers the first request
    and fails on all later ones. *)
Definition example_world_online : World :=
  mkWorld "demo-key"
    [HttpReply 200 (Some (mkApiBody (Number 31) (Number 25) 5 None (Some "clear sky")))]
    0%Z (mkModelDir Absent Absent Absent) None [].

(** How a prediction request can fail once the region is found: inside a
    loaded classifier, or, in a process with an API key, on a live reading
    that is not a number. *)
Definition pipeline_failure `{Runtime} (model : FireRiskModel) (w : World) (e : exn)
    : Prop :=
  (is_loaded model = true /\ (e = IndexError \/ e = AttributeError)) \/
  (e = TypeError /\ OPENWEATHER_API_KEY w <> "").

(** ** The binary reading *)

(** Clamping on floats: [lo] up to [lo], [hi] from [hi] on, the value
    itself in between; what is not a number counts as beyond the range. *)
Definition float_clamp (lo hi x : Binary64.float) : Binary64.float :=
  if Binary64.le x lo then lo else if Binary64.lt x hi then x else hi.



(** A weather input of five finite floats, given by their values. *)
Definition float_weather_of (temp humidity wind rain fwi : Q) : Binary64.WeatherData :=
  Binary64.mkWeatherData
    (Some (Binary64.Finite temp)) (Some (Binary64.Finite humidity))
    (Some (Binary64.Finite wind)) (Some (Binary64.Finite rain))
    None None None None None (Some (Binary64.Finite fwi)).


(** The value of a literal. *)
Definition value_of (x : Binary64.float) : Q :=
  match x with Binary64.Finite q => q | _ => 0 end.

(** The scorer of a process that found no model files. *)
Definition fallback_float_model : Binary64.FireRiskModel :=
  Binary64._load_model (Binary64.mkModelDir Absent Absent Absent).

(** A process with an API key whose service answers with a temperature
    that is not a number. *)
Definition example_world_null_temperature : World :=
  mkWorld "demo-key"
    [HttpReply 200 (Some (mkApiBody NotNumber (Number 25) 5 None (Some "clear sky")))]
    0%Z (mkModelDir Absent Absent Absent) None [].

(** A finite float within bounds. *)
Definition in_range (lo hi : Q) (x : Binary64.float) : Prop :=
  exists v, x = Binary64.Finite v /\ lo <= v /\ v <= hi.

(** [y] is the square root of [x] to within the accuracy of a library
    power: its square is [x] up to a relative error of 2^-50. *)
Definition is_square_root (x y : Binary64.float) : Prop :=
  match x, y with
  | Binary64.Finite a, Binary64.Finite b =>
      0 <= b /\ Qabs (b * b - a) <= a * Binary64.two_power (-50)
  | _, _ => False
  end.

(** Contract of the library power at the exponent one half. *)
Definition pow_half_is_square_root `{Binary64.Libm} : Prop :=
  forall a, 0 <= a ->
    is_square_root (Binary64.Finite a)
      (Binary64.float_pow (Binary64.Finite a) (Binary64.lit 0.5)).

(** A library for examples: the power one half is the integer square root
    taken to 52 binary places (it is not rounded to a float), any other
    power is not modelled. *)
Definition binary_sqrt (a : Q) : Q :=
  Z.sqrt (Qnum a * Zpos (Qden a) * 2 ^ 104) # (Qden a * 2 ^ 52).

#[export] Instance example_libm : Binary64.Libm := {|
  Binary64.float_pow := fun x y =>
    match x, y with
    | Binary64.Finite a, Binary64.Finite b =>
        if Qeq_bool b (1 # 2) && Qle_bool 0 a then Binary64.Finite (binary_sqrt a)
        else Binary64.NaN
    | _, _ => Binary64.NaN
    end
|}.


(** * Properties

    ** Comparisons, clamping and rounding *)

Lemma Qltb_lt x y : Qltb x y = true <-> x < y.
Proof.
  unfold Qltb. rewrite negb_true_iff. split.
  - intros H. apply Qnot_le_lt. intros Hle. apply Qle_bool_iff in Hle. congruence.
  - intros H. destruct (Qle_bool y x) eqn:E; [|reflexivity].
    apply Qle_bool_iff in E. exfalso. apply (Qlt_not_le _ _ H E).
Qed.

Lemma Qltb_ge x y : Qltb x y = false <-> y <= x.
Proof.
  unfold Qltb. rewrite negb_false_iff. apply Qle_bool_iff.
Qed.

Lemma Qleb_le x y : Qleb x y = true <-> x <= y.
Proof. apply Qle_bool_iff. Qed.

Lemma Qleb_gt x y : Qleb x y = false <-> y < x.
Proof.
  unfold Qleb. split.
  - intros H. apply Qnot_le_lt. intros Hle. apply Qle_bool_iff in Hle. congruence.
  - intros H. destruct (Qle_bool x y) eqn:E; [|reflexivity].
    apply Qle_bool_iff in E. exfalso. apply (Qlt_not_le _ _ H E).
Qed.

Lemma py_min_spec a b : (b < a /\ py_min a b = b) \/ (a <= b /\ py_min a b = a).
Proof.
  unfold py_min. destruct (Qltb b a) eqn:E.
  - left. split; [apply Qltb_lt, E | reflexivity].
  - right. split; [apply Qltb_ge, E | reflexivity].
Qed.

Lemma py_max_spec a b : (a < b /\ py_max a b = b) \/ (b <= a /\ py_max a b = a).
Proof.
  unfold py_max. destruct (Qltb a b) eqn:E.
  - left. split; [apply Qltb_lt, E | reflexivity].
  - right. split; [apply Qltb_ge, E | reflexivity].
Qed.

Lemma py_clamp lo hi x : lo <= hi -> py_max lo (py_min hi x) == clamp lo hi x.
Proof.
  intros Hle. unfold clamp.
  destruct (py_min_spec hi x) as [[H1 ->]|[H1 ->]];
    destruct (py_max_spec lo x) as [[H2 E2]|[H2 E2]];
    destruct (py_max_spec lo hi) as [[H3 E3]|[H3 E3]];
    destruct (Qltb x lo) eqn:E4; destruct (Qltb hi x) eqn:E5;
    try apply Qltb_lt in E4; try apply Qltb_ge in E4;
    try apply Qltb_lt in E5; try apply Qltb_ge in E5;
    try rewrite E2; try rewrite E3; lra.
Qed.

Lemma py_clamp_range lo hi x :
  lo <= hi -> lo <= py_max lo (py_min hi x) /\ py_max lo (py_min hi x) <= hi.
Proof.
  intros Hle.
  destruct (py_min_spec hi x) as [[H1 E1]|[H1 E1]]; rewrite E1;
    [destruct (py_max_spec lo x) as [[H2 E2]|[H2 E2]]
    |destruct (py_max_spec lo hi) as [[H2 E2]|[H2 E2]]]; rewrite E2; lra.
Qed.

Lemma round_half_even_cases x :
  round_half_even x = Qfloor x \/ round_half_even x = (Qfloor x + 1)%Z /\ inject_Z (Qfloor x) < x.
Proof.
  unfold round_half_even.
  destruct (Qcompare (x - inject_Z (Qfloor x)) (1 # 2)) eqn:E.
  - apply Qeq_alt in E. destruct (Z.even (Qfloor x)); [left; reflexivity|].
    right. split; [reflexivity | lra].
  - left; reflexivity.
  - apply Qgt_alt in E. right. split; [reflexivity | lra].
Qed.

Lemma round_half_even_between (a b : Z) x :
  inject_Z a <= x -> x <= inject_Z b ->
  (a <= round_half_even x <= b)%Z.
Proof.
  intros Ha Hb.
  assert (Hfa : (a <= Qfloor x)%Z).
  { rewrite <- (Qfloor_Z a). apply Qfloor_resp_le, Ha. }
  assert (Hfb : (Qfloor x <= b)%Z).
  { rewrite <- (Qfloor_Z b). apply Qfloor_resp_le, Hb. }
  destruct (round_half_even_cases x) as [-> | [-> Hlt]]; [lia|].
  split; [lia|].
  destruct (Z.eq_dec (Qfloor x) b) as [Heq | Hne]; [|lia].
  rewrite Heq in Hlt. lra.
Qed.

Lemma pow10_pos n : 0 < pow10 n.
Proof.
  unfold pow10. replace 0 with (inject_Z 0) by reflexivity.
  rewrite <- Zlt_Qlt. apply Z.pow_pos_nonneg; lia.
Qed.

Lemma Qdiv_mult_cancel a p : 0 < p -> a / p * p == a.
Proof. intros Hp. field. lra. Qed.

Lemma py_round_between (a b : Z) x n :
  inject_Z a / pow10 n <= x -> x <= inject_Z b / pow10 n ->
  inject_Z a / pow10 n <= py_round x n /\ py_round x n <= inject_Z b / pow10 n.
Proof.
  intros Ha Hb. pose proof (pow10_pos n) as Hp.
  assert (H1 : inject_Z a <= x * pow10 n).
  { rewrite <- (Qdiv_mult_cancel (inject_Z a) (pow10 n) Hp).
    apply Qmult_le_r; assumption. }
  assert (H2 : x * pow10 n <= inject_Z b).
  { rewrite <- (Qdiv_mult_cancel (inject_Z b) (pow10 n) Hp).
    apply Qmult_le_r; assumption. }
  destruct (round_half_even_between a b _ H1 H2) as [L U].
  unfold py_round. split.
  - apply Qmult_le_r with (z := pow10 n); [exact Hp|].
    rewrite !Qdiv_mult_cancel by exact Hp. rewrite <- Zle_Qle. exact L.
  - apply Qmult_le_r with (z := pow10 n); [exact Hp|].
    rewrite !Qdiv_mult_cancel by exact Hp. rewrite <- Zle_Qle. exact U.
Qed.

Lemma round_half_even_comp x y : x == y -> round_half_even x = round_half_even y.
Proof.
  intros E. unfold round_half_even. rewrite (Qfloor_comp _ _ E).
  assert (E' : x - inject_Z (Qfloor y) == y - inject_Z (Qfloor y)) by (rewrite E; reflexivity).
  rewrite (Qcompare_comp _ _ E' (1#2) (1#2) (Qeq_refl _)). reflexivity.
Qed.

#[export] Instance round_half_even_Proper : Proper (Qeq ==> eq) round_half_even.
Proof. intros x y E. apply round_half_even_comp, E. Qed.

#[export] Instance py_round_Proper : Proper (Qeq ==> eq ==> Qeq) py_round.
Proof.
  intros x y E n m <-. unfold py_round.
  assert (E' : x * pow10 n == y * pow10 n) by (rewrite E; reflexivity).
  rewrite (round_half_even_comp _ _ E'). reflexivity.
Qed.

#[export] Instance py_min_Proper : Proper (Qeq ==> Qeq ==> Qeq) py_min.
Proof.
  intros a a' Ea b b' Eb.
  destruct (py_min_spec a b) as [[H ->]|[H ->]];
    destruct (py_min_spec a' b') as [[H' ->]|[H' ->]]; lra.
Qed.

#[export] Instance py_max_Proper : Proper (Qeq ==> Qeq ==> Qeq) py_max.
Proof.
  intros a a' Ea b b' Eb.
  destruct (py_max_spec a b) as [[H ->]|[H ->]];
    destruct (py_max_spec a' b') as [[H' ->]|[H' ->]]; lra.
Qed.

(** ** The scorer *)

Lemma _load_model_not_loaded dir :
  MODEL_PATH dir = Absent \/ SCALER_PATH dir = Absent ->
  is_loaded (_load_model dir) = false.
Proof.
  intros [H | H]; unfold _load_model; rewrite H; simpl.
  - reflexivity.
  - rewrite andb_false_r. reflexivity.
Qed.

Lemma predict_fallback self w :
  is_loaded self = false ->
  predict self w =
    Ok (finish_prediction self (_calculate_fallback_risk w)
          (_calculate_fallback_risk w / 100) fallback_importance).
Proof. intros H. unfold predict. rewrite H. reflexivity. Qed.

Lemma _calculate_fallback_risk_range w :
  0 <= _calculate_fallback_risk w /\ _calculate_fallback_risk w <= 100.
Proof. unfold _calculate_fallback_risk. apply py_clamp_range. lra. Qed.

Lemma py_round_1_percent x : 0 <= x -> x <= 100 -> 0 <= py_round x 1 /\ py_round x 1 <= 100.
Proof.
  intros H0 H1.
  destruct (py_round_between 0 1000 x 1) as [L U].
  - vm_compute (inject_Z 0 / pow10 1). lra.
  - assert (E : inject_Z 1000 / pow10 1 == 100) by reflexivity. rewrite E. exact H1.
  - split.
    + assert (E : inject_Z 0 / pow10 1 == 0) by reflexivity. rewrite E in L. exact L.
    + assert (E : inject_Z 1000 / pow10 1 == 100) by reflexivity. rewrite E in U. exact U.
Qed.

(** The category is decided by the two upper thresholds alone. *)
Lemma finish_prediction_category self s fp imp :
  let p := finish_prediction self s fp imp in
  (risk_category p = Low <-> risk_score p <= 33) /\
  (risk_category p = Medium <-> 33 < risk_score p /\ risk_score p <= 66) /\
  (risk_category p = High <-> 66 < risk_score p).
Proof.
  simpl. unfold RISK_THRESHOLDS_low, RISK_THRESHOLDS_medium. simpl snd.
  destruct (Qleb (py_round s 1) 33) eqn:E1;
    [apply Qleb_le in E1
    |apply Qleb_gt in E1; destruct (Qleb (py_round s 1) 66) eqn:E2;
     [apply Qleb_le in E2 | apply Qleb_gt in E2]].
  all: split; [|split]; (split; [intros Hc | intros Hs]).
  all: try discriminate Hc; try reflexivity; try lra.
Qed.

Lemma predict_score_range self w p :
  probabilities_in_unit self -> predict self w = Ok p ->
  0 <= risk_score p /\ risk_score p <= 100.
Proof.
  intros Hprob. unfold predict.
  destruct (is_loaded self) eqn:Hl; [destruct (model self) as [m|] eqn:Hm|].
  - destruct (scaler self) as [sc|]; [|discriminate].
    set (proba := predict_proba m _).
    destruct (if Nat.ltb 1 (length proba) then nth_error proba 1 else nth_error proba 0)
      as [fp|] eqn:Hfp; [|discriminate].
    intros [= <-]. simpl.
    assert (Hin : In fp proba).
    { destruct (Nat.ltb 1 (length proba)); eapply nth_error_In; exact Hfp. }
    destruct (Hprob m _ fp Hm Hin) as [H0 H1].
    apply py_round_1_percent; lra.
  - intros [= <-]. simpl. apply py_round_1_percent; apply _calculate_fallback_risk_range.
  - intros [= <-]. simpl. apply py_round_1_percent; apply _calculate_fallback_risk_range.
Qed.

Lemma predict_finish self w p :
  predict self w = Ok p -> exists s fp imp, p = finish_prediction self s fp imp.
Proof.
  unfold predict.
  destruct (is_loaded self); [destruct (model self) as [m|]|].
  - destruct (scaler self) as [sc|]; [|discriminate].
    destruct (if Nat.ltb 1 _ then _ else _) as [fp|]; [|discriminate].
    intros [= <-]. eauto.
  - intros [= <-]. eauto.
  - intros [= <-]. eauto.
Qed.

(** C2, as the code has it.  Every score lies in [0, 100]; the category is
    Low exactly up to 33, Medium exactly above 33 and up to 66, High exactly
    above 66.  On whole-number scores these are the stated bands (33 is
    Low, 34 and 66 are Medium, 67 is High). *)
Theorem score_range_and_bands self w p :
  probabilities_in_unit self ->
  predict self w = Ok p ->
  0 <= risk_score p /\ risk_score p <= 100 /\
  (risk_category p = Low <-> risk_score p <= 33) /\
  (risk_category p = Medium <-> 33 < risk_score p /\ risk_score p <= 66) /\
  (risk_category p = High <-> 66 < risk_score p) /\
  (forall z : Z, risk_score p == inject_Z z ->
     stated_bands (risk_score p) (risk_category p)).
Proof.
  intros Hprob Hp.
  destruct (predict_score_range _ _ _ Hprob Hp) as [H0 H100].
  destruct (predict_finish _ _ _ Hp) as (s & fp & imp & ->).
  destruct (finish_prediction_category self s fp imp) as (HL & HM & HH).
  split; [exact H0|]. split; [exact H100|].
  split; [exact HL|]. split; [exact HM|]. split; [exact HH|].
  intros z Hz.
  assert (Hint : forall k : Z, inject_Z k < inject_Z z <-> inject_Z (k + 1) <= inject_Z z).
  { intros k. rewrite <- Zlt_Qlt, <- Zle_Qle. lia. }
  unfold stated_bands. rewrite HL, HM, HH, Hz.
  split; [reflexivity|]. split.
  - rewrite (Hint 33%Z). reflexivity.
  - rewrite (Hint 66%Z). reflexivity.
Qed.

Lemma score_range_and_bands_witness :
  exists p,
    predict example_loaded_model (weather_of 40 20 25 0 20) = Ok p /\
    0 <= risk_score p /\ risk_score p <= 100 /\
    (risk_category p = High <-> 66 < risk_score p).
Proof.
  assert (Hp : predict example_loaded_model (weather_of 40 20 25 0 20)
               = Ok (finish_prediction example_loaded_model (0.8 * 100) 0.8
                       (combine FEATURE_COLUMNS
                          (feature_importances_ example_classifier))))
    by reflexivity.
  assert (Hprob : probabilities_in_unit example_loaded_model).
  { intros m x q [= <-] Hin. simpl in Hin.
    destruct Hin as [<- | [<- | []]]; split; vm_compute; discriminate. }
  destruct (score_range_and_bands _ _ _ Hprob Hp) as (H0 & H100 & _ & _ & HH & _).
  eexists. split; [exact Hp|]. split; [exact H0|]. split; [exact H100 | exact HH].
Defined.

(** C2 as stated fails on the code: temperature 25, humidity 54, wind 6, no
    rain and index 0.5 score 33.5, which is Medium although below 34. *)
Lemma stated_bands_counterexample :
  exists p,
    predict fallback_model (weather_of 25 54 6 0 0.5) = Ok p /\
    risk_score p == 33.5 /\ risk_category p = Medium /\
    ~ stated_bands (risk_score p) (risk_category p).
Proof.
  eexists. split; [reflexivity|]. split; [reflexivity|]. split; [reflexivity|].
  intros (_ & HM & _). destruct (proj1 HM eq_refl) as [H34 _].
  vm_compute in H34. apply H34. reflexivity.
Qed.

(** ** Explanation rules *)

Lemma explain_factors self w p :
  exists f1 f2 f3 f4 f5,
    contributing_factors (explain_prediction self w p)
      = (f1 ++ f2 ++ f3 ++ f4 ++ f5)%list /\
    (forall n i v, (exists f, In f f1 /\ factor f = n /\ impact f = i /\ fst (value f) = v)
        <-> (n = "High Temperature" /\ i = critical /\ v = get_default (temperature w) 25
             /\ 35 < v)
            \/ (n = "Elevated Temperature" /\ i = high /\ v = get_default (temperature w) 25
                /\ 30 < v /\ v <= 35)) /\
    (forall n i v, (exists f, In f f2 /\ factor f = n /\ impact f = i /\ fst (value f) = v)
        <-> (n = "Very Low Humidity" /\ i = critical /\ v = get_default (humidity w) 50
             /\ v < 30)
            \/ (n = "Low Humidity" /\ i = moderate /\ v = get_default (humidity w) 50
                /\ 30 <= v /\ v < 50)) /\
    (forall n i v, (exists f, In f f3 /\ factor f = n /\ impact f = i /\ fst (value f) = v)
        <-> (n = "High Wind Speed" /\ i = critical /\ v = get_default (wind_speed w) 10
             /\ 20 < v)
            \/ (n = "Moderate Wind" /\ i = moderate /\ v = get_default (wind_speed w) 10
                /\ 15 < v /\ v <= 20)) /\
    (forall n i v, (exists f, In f f4 /\ factor f = n /\ impact f = i /\ fst (value f) = v)
        <-> (n = "Recent Rainfall" /\ i = protective /\ v = get_default (rainfall w) 0
             /\ 5 < v)
            \/ (n = "No Recent Rain" /\ i = moderate /\ v = get_default (rainfall w) 0
                /\ v < 1)) /\
    (forall n i v, (exists f, In f f5 /\ factor f = n /\ impact f = i /\ fst (value f) = v)
        <-> (n = "High Fire Weather Index" /\ i = critical /\ v = get_default (fwi w) 10
             /\ 15 < v)).
Proof.
  unfold explain_prediction. cbv zeta. simpl contributing_factors.
  do 5 eexists. split; [reflexivity|].
  split; [|split; [|split; [|split]]]; intros n i v.
  all: match goal with
       | |- context [if Qltb ?a ?b then _ else if Qltb ?c ?d then _ else _] =>
           destruct (Qltb a b) eqn:E1;
           [apply Qltb_lt in E1
           |apply Qltb_ge in E1; destruct (Qltb c d) eqn:E2;
            [apply Qltb_lt in E2 | apply Qltb_ge in E2]]
       | |- context [if Qltb ?a ?b then _ else _] =>
           destruct (Qltb a b) eqn:E1; [apply Qltb_lt in E1 | apply Qltb_ge in E1]
       end.
  all: split;
    [ intros (f & Hin & Hn & Hi & Hv); simpl in Hin;
      repeat (destruct Hin as [Hin | Hin]); try contradiction;
      subst; simpl; tauto
    | intros Hd;
      repeat match type of Hd with
             | _ \/ _ => destruct Hd as [Hd | Hd]
             end;
      destruct Hd as (-> & -> & -> & Hd);
      first [ exfalso; lra
            | eexists; split; [left; reflexivity|]; simpl; tauto ] ].
Qed.

(** C8, as the code has it.  The listed contributing factors are exactly
    the rules that fire, each with its severity and triggering value:
    temperature above 35, or above 30 and up to 35; humidity below 30, or
    from 30 to below 50; wind above 20, or above 15 and up to 20; rainfall
    above 5, or below 1; index above 15.  An absent entry counts as 25, 50,
    10, 0 and 10 respectively. *)
Theorem explanation_lists_firing_rules self w p n i v :
  lists_factor (explain_prediction self w p) n i v <-> fires w n i v.
Proof.
  destruct (explain_factors self w p)
    as (f1 & f2 & f3 & f4 & f5 & E & H1 & H2 & H3 & H4 & H5).
  unfold lists_factor. rewrite E. split.
  - intros (f & Hin & Hn & Hi & Hv).
    rewrite !in_app_iff in Hin.
    destruct Hin as [Hin | [Hin | [Hin | [Hin | Hin]]]].
    + destruct (proj1 (H1 n i v)) as [(-> & -> & -> & H) | (-> & -> & -> & H & H')];
        [eauto | constructor; assumption | constructor; assumption].
    + destruct (proj1 (H2 n i v)) as [(-> & -> & -> & H) | (-> & -> & -> & H & H')];
        [eauto | constructor; assumption | constructor; assumption].
    + destruct (proj1 (H3 n i v)) as [(-> & -> & -> & H) | (-> & -> & -> & H & H')];
        [eauto | constructor; assumption | constructor; assumption].
    + destruct (proj1 (H4 n i v)) as [(-> & -> & -> & H) | (-> & -> & -> & H)];
        [eauto | constructor; assumption | constructor; assumption].
    + destruct (proj1 (H5 n i v)) as (-> & -> & -> & H);
        [eauto | constructor; assumption].
  - intros Hf.
    assert (Hex : forall l : list Factor,
               (exists f, In f l /\ factor f = n /\ impact f = i /\ fst (value f) = v) ->
               (l = f1 \/ l = f2 \/ l = f3 \/ l = f4 \/ l = f5) ->
               exists f, In f (f1 ++ f2 ++ f3 ++ f4 ++ f5)%list /\
                         factor f = n /\ impact f = i /\ fst (value f) = v).
    { intros l (f & Hin & Hrest) Hl. exists f. split; [|exact Hrest].
      rewrite !in_app_iff.
      destruct Hl as [-> | [-> | [-> | [-> | ->]]]]; tauto. }
    inversion Hf; subst.
    + apply (Hex f1); [apply H1; left; tauto | tauto].
    + apply (Hex f1); [apply H1; right; tauto | tauto].
    + apply (Hex f2); [apply H2; left; tauto | tauto].
    + apply (Hex f2); [apply H2; right; tauto | tauto].
    + apply (Hex f3); [apply H3; left; tauto | tauto].
    + apply (Hex f3); [apply H3; right; tauto | tauto].
    + apply (Hex f4); [apply H4; left; tauto | tauto].
    + apply (Hex f4); [apply H4; right; tauto | tauto].
    + apply (Hex f5); [apply H5; tauto | tauto].
Qed.

(** C8 as stated, with both endpoints in the middle bands, fails on the
    code: at exactly 30 degrees the stated rule fires but no temperature
    factor is listed. *)
Lemma stated_fires_counterexample :
  exists p,
    predict fallback_model (weather_of 30 60 10 2 10) = Ok p /\
    stated_fires (weather_of 30 60 10 2 10) "Elevated Temperature" high 30 /\
    ~ lists_factor
        (explain_prediction fallback_model (weather_of 30 60 10 2 10) p)
        "Elevated Temperature" high 30.
Proof.
  eexists. split; [reflexivity|]. split.
  - apply (stated_elevated_temperature (weather_of 30 60 10 2 10)); simpl; lra.
  - intros (f & Hin & _). vm_compute in Hin. exact Hin.
Qed.

(** ** Aggregation *)

Lemma summarize_Ok predictions s :
  summarize predictions = Ok s ->
  high_risk_count s = count Category_eqb High (map gp_risk_category predictions) /\
  alert_level s =
    (if Nat.leb 3 (high_risk_count s) then CRITICAL
     else if Nat.leb 1 (high_risk_count s) then WARNING else NORMAL).
Proof.
  unfold summarize. destruct (map gp_risk_score predictions); [discriminate|].
  intros [= <-]. simpl. split; reflexivity.
Qed.

Lemma count_map {A B : Type} (eqb : B -> B -> bool) (f : A -> B) (x : B) (l : list A) :
  count eqb x (map f l) = length (List.filter (fun a => eqb (f a) x) l).
Proof.
  unfold count. induction l as [|a l IH]; [reflexivity|].
  simpl. destruct (eqb (f a) x); simpl; rewrite IH; reflexivity.
Qed.

Lemma summarize_total predictions :
  predictions <> [] -> exists s, summarize predictions = Ok s.
Proof.
  destruct predictions as [|p ps]; [congruence|]. intros _.
  unfold summarize. simpl map. eexists. reflexivity.
Qed.

(** C6.  An aggregation pass over the cells of a region yields a summary
    whose alert level is CRITICAL exactly when at least 3 cells are High,
    WARNING exactly when 1 or 2 are, NORMAL exactly when none is; the count
    of High cells is reported as [high_risk_count].  Twelve cells of which 3
    are High, 2 Medium and 7 Low give CRITICAL with a count of 3. *)
Theorem alert_level_by_high_count :
  (forall predictions,
      predictions <> [] ->
      exists s,
        summarize predictions = Ok s /\
        high_risk_count s =
          length (List.filter (fun p => Category_eqb (gp_risk_category p) High) predictions) /\
        (alert_level s = CRITICAL <-> (3 <= high_risk_count s)%nat) /\
        (alert_level s = WARNING <->
           high_risk_count s = 1%nat \/ high_risk_count s = 2%nat) /\
        (alert_level s = NORMAL <-> high_risk_count s = 0%nat)) /\
  (forall predictions,
      map gp_risk_category predictions =
        [High; High; High; Medium; Medium; Low; Low; Low; Low; Low; Low; Low] ->
      exists s,
        summarize predictions = Ok s /\ total_grids s = 12%nat /\
        alert_level s = CRITICAL /\ high_risk_count s = 3%nat).
Proof.
  split.
  - intros predictions Hne.
    destruct (summarize_total predictions Hne) as [s Hs].
    destruct (summarize_Ok _ _ Hs) as [Hc Ha].
    exists s. split; [exact Hs|]. split.
    { rewrite Hc. apply count_map. }
    rewrite Ha.
    destruct (Nat.leb_spec 3 (high_risk_count s));
      [|destruct (Nat.leb_spec 1 (high_risk_count s))].
    all: split; [|split]; (split; [intros Hx | intros Hx]).
    all: try discriminate Hx; try reflexivity; lia.
  - intros predictions Hcats.
    assert (Hne : predictions <> []) by (intros ->; discriminate Hcats).
    destruct (summarize_total predictions Hne) as [s Hs].
    destruct (summarize_Ok _ _ Hs) as [Hc Ha].
    exists s. split; [exact Hs|].
    assert (H3 : high_risk_count s = 3%nat) by (rewrite Hc, Hcats; reflexivity).
    split; [|split; [|exact H3]].
    + revert Hs. unfold summarize.
      destruct (map gp_risk_score predictions); [discriminate|].
      intros [= <-]. simpl.
      rewrite <- (length_map gp_risk_category), Hcats. reflexivity.
    + rewrite Ha, H3. reflexivity.
Qed.

Lemma alert_level_by_high_count_witness :
  exists s,
    summarize (map cell_result
                 [High; High; High; Medium; Medium; Low; Low; Low; Low; Low; Low; Low])
      = Ok s /\
    total_grids s = 12%nat /\ alert_level s = CRITICAL /\ high_risk_count s = 3%nat.
Proof.
  apply (proj2 alert_level_by_high_count). reflexivity.
Defined.

(** ** Unknown regions *)

(** C7.  For a region id outside the registry the region-wide prediction
    raises the not-found error and leaves the world as it found it: no
    request is sent, nothing is simulated, no index is derived, no cell is
    scored, the model is not even loaded, and no response is built.  The
    partitioner refuses the id as well. *)
Theorem unknown_region_fails_first `{RT : Runtime} (region_id : string) (w : World) :
  FOREST_REGIONS !! region_id = None ->
  predict_fire_risk region_id w =
    (Raise (HTTPException 404
              ("Unknown region: " +:+ region_id +:+ ". Available: "
               +:+ available_regions)), w) /\
  generate_grids_for_region region_id =
    Raise (ValueError ("Unknown region: " +:+ region_id)).
Proof.
  intros H. unfold predict_fire_risk, generate_grids_for_region. rewrite H.
  split; reflexivity.
Qed.

Lemma unknown_region_fails_first_witness :
  predict_fire_risk "atlantis" example_world =
    (Raise (HTTPException 404
              ("Unknown region: " +:+ "atlantis" +:+ ". Available: "
               +:+ available_regions)), example_world) /\
  generate_grids_for_region "atlantis" =
    Raise (ValueError ("Unknown region: " +:+ "atlantis")).
Proof.
  apply (unknown_region_fails_first "atlantis" example_world). reflexivity.
Defined.

(** ** Fire-weather indices *)

Lemma py_round_1_between (a b : Z) x :
  inject_Z a <= x -> x <= inject_Z b ->
  inject_Z a <= py_round x 1 /\ py_round x 1 <= inject_Z b.
Proof.
  intros Ha Hb.
  assert (Ea : inject_Z (a * 10) / pow10 1 == inject_Z a).
  { rewrite inject_Z_mult. change (pow10 1) with (inject_Z 10). field. }
  assert (Eb : inject_Z (b * 10) / pow10 1 == inject_Z b).
  { rewrite inject_Z_mult. change (pow10 1) with (inject_Z 10). field. }
  destruct (py_round_between (a * 10) (b * 10) x 1) as [L U].
  - rewrite Ea. exact Ha.
  - rewrite Eb. exact Hb.
  - rewrite Ea in L. rewrite Eb in U. split; assumption.
Qed.

(** ** Simulated weather *)

Section Simulation.
Context `{RT : Runtime}.

(** Seeding makes the draws independent of the state the generator was
    left in. *)
Lemma generate_simulated_weather_reseeds lat lng grid_id s s' :
  generate_simulated_weather lat lng grid_id s
  = generate_simulated_weather lat lng grid_id s'.
Proof. reflexivity. Qed.

Lemma generate_simulated_weather_fields lat lng grid_id s :
  exists t h ws r,
    fst (simulated_values lat lng grid_id s) = (t, h, ws, r) /\
    fst (generate_simulated_weather lat lng grid_id s) =
      mkWeatherData (Some (py_round t 1)) (Some (py_round h 1))
        (Some (py_round ws 1)) (Some (py_round r 1)) (Some "simulated")
        (Some "Simulated conditions")
        None None None None None None None None None.
Proof.
  unfold generate_simulated_weather.
  destruct (simulated_values lat lng grid_id s) as [[[[t h] ws] r] s1].
  exists t, h, ws, r. split; reflexivity.
Qed.

Lemma get_weather_sync_Ok lat lng grid_id s :
  exists ix,
    generate_fire_weather_indices (fst (generate_simulated_weather lat lng grid_id s))
      = Ok ix /\
    fst (get_weather_sync lat lng grid_id s) =
      Ok (merge_weather (fst (generate_simulated_weather lat lng grid_id s)) ix
            lat lng grid_id).
Proof.
  destruct (generate_simulated_weather_fields lat lng grid_id s)
    as (t & h & ws & r & _ & E).
  unfold get_weather_sync.
  destruct (generate_simulated_weather lat lng grid_id s) as [obs s1].
  simpl in E. subst obs. eexists. split; reflexivity.
Qed.

(** Without a live observation the provider returns what
    [get_weather_sync] returns. *)
Lemma get_weather_for_grid_simulated lat lng grid_id w :
  live_unavailable lat lng w ->
  forall s,
    fst (get_weather_for_grid lat lng grid_id w)
    = fst (get_weather_sync lat lng grid_id s).
Proof.
  unfold live_unavailable. intros Hun s.
  destruct (get_weather_sync_Ok lat lng grid_id s) as (ix & Hix & Hsync).
  rewrite Hsync.
  unfold get_weather_for_grid, bind.
  destruct (fetch_weather_from_api lat lng w) as [r w1]. simpl in Hun. subst r.
  unfold simulate.
  rewrite (generate_simulated_weather_reseeds lat lng grid_id (rng w1) s).
  destruct (generate_simulated_weather lat lng grid_id s) as [obs s1].
  simpl in Hix |- *. unfold lift. rewrite Hix. reflexivity.
Qed.
End Simulation.

(** C5.  With the live service unavailable, two calls of the weather
    provider for the same cell identifier and coordinate return the same
    simulated observation, whatever the worlds they run in: the simulator
    seeds the generator with the hash of the identifier modulo 10000 before
    it draws, so the state the generator was left in does not matter. *)
Theorem simulation_deterministic `{RT : Runtime} (lat lng : Q) (grid_id : string)
    (w1 w2 : World) :
  live_unavailable lat lng w1 -> live_unavailable lat lng w2 ->
  fst (get_weather_for_grid lat lng grid_id w1)
  = fst (get_weather_for_grid lat lng grid_id w2) /\
  (exists obs,
      fst (get_weather_for_grid lat lng grid_id w1) = Ok obs /\
      source obs = Some "simulated") /\
  (forall s s',
      generate_simulated_weather lat lng grid_id s
      = generate_simulated_weather lat lng grid_id s') /\
  (forall s,
      fst (fst (fst (fst (simulated_values lat lng grid_id s)))) =
        py_max 15
          (py_min 45
             (20 + (1 - Qabs lat / 90) * 20
              + fst (uniform (-5) 10 (rng_seed (py_hash grid_id mod 10000)%Z))))).
Proof.
  intros H1 H2.
  split; [|split; [|split]].
  - rewrite (get_weather_for_grid_simulated lat lng grid_id w1 H1 (rng w1)).
    rewrite (get_weather_for_grid_simulated lat lng grid_id w2 H2 (rng w1)).
    reflexivity.
  - rewrite (get_weather_for_grid_simulated lat lng grid_id w1 H1 (rng w1)).
    destruct (get_weather_sync_Ok lat lng grid_id (rng w1)) as (ix & _ & ->).
    eexists. split; [reflexivity|].
    destruct (generate_simulated_weather_fields lat lng grid_id (rng w1))
      as (t & h & ws & r & _ & ->).
    reflexivity.
  - intros s s'. reflexivity.
  - intros s. unfold simulated_values.
    destruct (uniform (-5) 10 (rng_seed (py_hash grid_id mod 10000)%Z)) as [u1 s1].
    destruct (uniform (-10) 10 s1) as [u2 s2].
    destruct (uniform 5 25 s2) as [u3 s3].
    destruct (if Qltb 60 _ then uniform 0 5 s3 else (0, s3)) as [u4 s4].
    reflexivity.
Qed.

Lemma simulation_deterministic_witness :
  fst (get_weather_for_grid 37.5 (-119.5) "california_grid_1_1" example_world)
  = fst (get_weather_for_grid 37.5 (-119.5) "california_grid_1_1"
           example_world_later).
Proof.
  apply (simulation_deterministic 37.5 (-119.5) "california_grid_1_1" example_world
           example_world_later);
    reflexivity.
Defined.

(** ** Rainfall of simulated weather *)

Lemma uniform_range `{RT : Runtime} (a b : Q) s :
  random_in_unit_interval -> a <= b ->
  a <= fst (uniform a b s) /\ fst (uniform a b s) <= b.
Proof.
  intros Hr Hab. unfold uniform. destruct (Hr s) as [H0 H1].
  destruct (rng_random s) as [r s']. simpl in *.
  assert (0 <= (b - a) * r) by (apply Qmult_le_0_compat; lra).
  assert ((b - a) * r <= (b - a) * 1).
  { rewrite !(Qmult_comm (b - a)). apply Qmult_le_compat_r; lra. }
  lra.
Qed.

Lemma simulated_rainfall `{RT : Runtime} lat lng grid_id s t h ws r :
  fst (simulated_values lat lng grid_id s) = (t, h, ws, r) ->
  (h <= 60 -> r = 0) /\
  (60 < h -> exists s3, r = fst (uniform 0 5 s3)).
Proof.
  unfold simulated_values.
  destruct (uniform (-5) 10 (rng_seed (py_hash grid_id mod 10000)%Z)) as [u1 s1].
  destruct (uniform (-10) 10 s1) as [u2 s2].
  destruct (uniform 5 25 s2) as [u3 s3].
  destruct (Qltb 60 _) eqn:E.
  - destruct (uniform 0 5 s3) as [u4 s4] eqn:E4. simpl. intros [= <- <- <- <-].
    apply Qltb_lt in E. split; [intros Hle; exfalso; lra|].
    intros _. exists s3. rewrite E4. reflexivity.
  - simpl. intros [= <- <- <- <-]. apply Qltb_ge in E.
    split; [intros _; reflexivity | intros Hlt; exfalso; lra].
Qed.

Lemma py_round_1_zero_five x : 0 <= x -> x <= 5 -> 0 <= py_round x 1 /\ py_round x 1 <= 5.
Proof. intros H0 H5. apply (py_round_1_between 0 5); assumption. Qed.

Lemma no_recent_rainfall self w p f :
  get_default (rainfall w) 0 <= 5 ->
  In f (contributing_factors (explain_prediction self w p)) ->
  factor f <> "Recent Rainfall".
Proof.
  intros Hle Hin Hname.
  destruct (explain_factors self w p)
    as (f1 & f2 & f3 & f4 & f5 & E & H1 & H2 & H3 & H4 & H5).
  rewrite E, !in_app_iff in Hin.
  assert (Hex : forall l : list Factor,
             In f l ->
             exists g, In g l /\ factor g = "Recent Rainfall" /\
                       impact g = impact f /\ fst (value g) = fst (value f))
    by (intros l Hl; exists f; tauto).
  destruct Hin as [Hin | [Hin | [Hin | [Hin | Hin]]]]; apply Hex in Hin.
  - apply H1 in Hin. destruct Hin as [(Hn & _) | (Hn & _)]; discriminate Hn.
  - apply H2 in Hin. destruct Hin as [(Hn & _) | (Hn & _)]; discriminate Hn.
  - apply H3 in Hin. destruct Hin as [(Hn & _) | (Hn & _)]; discriminate Hn.
  - apply H4 in Hin. destruct Hin as [(_ & _ & Hv & H5') | (Hn & _)];
      [rewrite Hv in H5'; lra | discriminate Hn].
  - apply H5 in Hin. destruct Hin as (Hn & _). discriminate Hn.
Qed.

(** C10.  The rainfall of a simulated observation never exceeds 5: it is 0
    when the simulated humidity (as drawn, before rounding) is at most 60,
    and otherwise a draw between 0 and 5 rounded to one decimal.  So the
    explanation of a simulated observation never lists the protective
    Recent Rainfall factor, which needs more than 5. *)
Theorem simulated_rainfall_never_protective `{RT : Runtime}
    (lat lng : Q) (grid_id : string) (s : rng_state) :
  random_in_unit_interval ->
  exists t h ws r,
    fst (simulated_values lat lng grid_id s) = (t, h, ws, r) /\
    rainfall (fst (generate_simulated_weather lat lng grid_id s))
      = Some (py_round r 1) /\
    (h <= 60 -> r = 0 /\ py_round r 1 == 0) /\
    (60 < h -> exists s3, r = fst (uniform 0 5 s3) /\ 0 <= r /\ r <= 5) /\
    (0 <= py_round r 1 /\ py_round r 1 <= 5) /\
    (forall w obs self p f,
        live_unavailable lat lng w ->
        fst (get_weather_for_grid lat lng grid_id w) = Ok obs ->
        rainfall obs = Some (py_round r 1) /\
        (In f (contributing_factors (explain_prediction self obs p)) ->
         factor f <> "Recent Rainfall")).
Proof.
  intros Hrand.
  destruct (generate_simulated_weather_fields lat lng grid_id s)
    as (t & h & ws & r & Hv & Hobs).
  destruct (simulated_rainfall _ _ _ _ _ _ _ _ Hv) as [Hdry Hwet].
  assert (Hr : 0 <= r /\ r <= 5).
  { destruct (Qlt_le_dec 60 h) as [Hh | Hh].
    - destruct (Hwet Hh) as [s3 ->]. apply uniform_range; [exact Hrand | lra].
    - rewrite (Hdry Hh). lra. }
  assert (Hround : 0 <= py_round r 1 /\ py_round r 1 <= 5)
    by (apply py_round_1_zero_five; apply Hr).
  exists t, h, ws, r.
  split; [exact Hv|]. split; [rewrite Hobs; reflexivity|].
  split; [intros Hh; rewrite (Hdry Hh); split; reflexivity|].
  split; [intros Hh; destruct (Hwet Hh) as [s3 E]; exists s3; tauto|].
  split; [exact Hround|].
  intros w obs self p f Hun Hget.
  rewrite (get_weather_for_grid_simulated lat lng grid_id w Hun s) in Hget.
  destruct (get_weather_sync_Ok lat lng grid_id s) as (ix & _ & Hsync).
  rewrite Hsync in Hget. injection Hget as <-.
  assert (Hrain : rainfall (merge_weather (fst (generate_simulated_weather lat lng grid_id s))
                              ix lat lng grid_id) = Some (py_round r 1))
    by (rewrite Hobs; reflexivity).
  split; [exact Hrain|].
  apply no_recent_rainfall. rewrite Hrain. simpl. apply Hround.
Qed.

Lemma example_runtime_random_in_unit_interval : random_in_unit_interval.
Proof.
  intros s. simpl.
  assert (Hm : (0 <= lcg_next s < 2147483648)%Z)
    by (unfold lcg_next; apply Z.mod_pos_bound; lia).
  assert (Hp : 0 < inject_Z 2147483648) by reflexivity.
  split.
  - apply Qle_shift_div_l; [exact Hp|]. rewrite Qmult_0_l.
    change 0 with (inject_Z 0). rewrite <- Zle_Qle. lia.
  - apply Qlt_shift_div_r; [exact Hp|]. rewrite Qmult_1_l.
    rewrite <- Zlt_Qlt. lia.
Qed.

Lemma simulated_rainfall_never_protective_witness :
  exists t h ws r,
    fst (simulated_values (-3.5) (-64.375) "amazon_grid_1_0" (rng example_world_later)) = (t, h, ws, r) /\
    (0 <= py_round r 1 /\ py_round r 1 <= 5).
Proof.
  destruct (simulated_rainfall_never_protective (-3.5) (-64.375) "amazon_grid_1_0" (rng example_world_later)
              example_runtime_random_in_unit_interval)
    as (t & h & ws & r & Hv & _ & _ & _ & Hr & _).
  exists t, h, ws, r. split; [exact Hv | exact Hr].
Defined.

(** ** The grid *)

Lemma inject_nat_succ (n : nat) :
  inject_Z (Z.of_nat (S n)) == inject_Z (Z.of_nat n) + 1.
Proof. rewrite Nat2Z.inj_succ. unfold Z.succ. rewrite inject_Z_plus. reflexivity. Qed.

Lemma inject_nat_pos (n : nat) : (0 < n)%nat -> 0 < inject_Z (Z.of_nat n).
Proof. intros H. change 0 with (inject_Z 0). rewrite <- Zlt_Qlt. lia. Qed.

Lemma inject_nat_le (n m : nat) :
  (n <= m)%nat -> inject_Z (Z.of_nat n) <= inject_Z (Z.of_nat m).
Proof. intros H. rewrite <- Zle_Qle. lia. Qed.

(** One axis: consecutive half-open intervals of equal length cover their
    span, each point once. *)
Lemma axis_cover (w step x : Q) (n : nat) :
  0 < step -> w <= x -> x < w + inject_Z (Z.of_nat n) * step ->
  exists c, (c < n)%nat /\
            w + inject_Z (Z.of_nat c) * step <= x /\
            x < w + inject_Z (Z.of_nat c) * step + step.
Proof.
  intros Hs Hw. induction n as [|n IH]; intros Hx.
  - change (inject_Z (Z.of_nat 0)) with 0 in Hx. exfalso. lra.
  - destruct (Qlt_le_dec x (w + inject_Z (Z.of_nat n) * step)) as [Hlt | Hge].
    + destruct (IH Hlt) as (c & Hc & H1 & H2). exists c. split; [lia | tauto].
    + exists n. split; [lia|]. split; [exact Hge|].
      rewrite inject_nat_succ in Hx. lra.
Qed.

Lemma axis_disjoint (w step x : Q) (c c' : nat) :
  0 < step ->
  w + inject_Z (Z.of_nat c) * step <= x ->
  x < w + inject_Z (Z.of_nat c) * step + step ->
  w + inject_Z (Z.of_nat c') * step <= x ->
  x < w + inject_Z (Z.of_nat c') * step + step ->
  c = c'.
Proof.
  intros Hs H1 H2 H1' H2'.
  assert (Hlt : forall a b : nat,
             (a < b)%nat ->
             w + inject_Z (Z.of_nat a) * step + step
             <= w + inject_Z (Z.of_nat b) * step).
  { intros a b Hab.
    assert (Hle : inject_Z (Z.of_nat (S a)) * step <= inject_Z (Z.of_nat b) * step).
    { apply Qmult_le_compat_r; [apply inject_nat_le; lia | lra]. }
    rewrite inject_nat_succ in Hle. lra. }
  destruct (Nat.lt_trichotomy c c') as [H | [H | H]].
  - pose proof (Hlt c c' H). exfalso. lra.
  - exact H.
  - pose proof (Hlt c' c H). exfalso. lra.
Qed.

Lemma axis_span (lo hi : Q) (n : nat) :
  (0 < n)%nat ->
  inject_Z (Z.of_nat n) * ((hi - lo) / inject_Z (Z.of_nat n)) == hi - lo.
Proof. intros Hn. pose proof (inject_nat_pos n Hn). field. lra. Qed.

(** Row-major enumeration by two nested loops. *)
Lemma nested_loops_length {A : Type} (f : nat -> nat -> A) (a n m : nat) :
  length (flat_map (fun r => map (f r) (seq 0 m)) (seq a n)) = (n * m)%nat.
Proof.
  revert a. induction n as [|n IH]; intros a; [reflexivity|].
  simpl. rewrite length_app, length_map, length_seq, IH. reflexivity.
Qed.

Lemma nested_loops_nth {A : Type} (f : nat -> nat -> A) (a n m r c : nat) :
  (r < n)%nat -> (c < m)%nat ->
  nth_error (flat_map (fun r => map (f r) (seq 0 m)) (seq a n)) (r * m + c)
  = Some (f (a + r)%nat c).
Proof.
  revert a r. induction n as [|n IH]; intros a r Hr Hc; [lia|].
  simpl. destruct r as [|r].
  - rewrite nth_error_app1 by (rewrite length_map, length_seq; exact Hc).
    simpl. rewrite nth_error_map, nth_error_seq.
    destruct (Nat.ltb_spec c m); [|lia]. simpl. rewrite Nat.add_0_r. reflexivity.
  - rewrite nth_error_app2 by (rewrite length_map, length_seq; simpl; lia).
    rewrite length_map, length_seq.
    replace (S r * m + c - m)%nat with (r * m + c)%nat by (simpl; lia).
    rewrite IH by lia. f_equal. f_equal. lia.
Qed.

Lemma nested_loops_index {A : Type} (f : nat -> nat -> A) (n m i : nat) (x : A) :
  nth_error (flat_map (fun r => map (f r) (seq 0 m)) (seq 0 n)) i = Some x ->
  exists r c, (r < n)%nat /\ (c < m)%nat /\ i = (r * m + c)%nat /\ x = f r c.
Proof.
  intros H.
  assert (Hi : (i < n * m)%nat).
  { rewrite <- (nested_loops_length f 0 n m). apply nth_error_Some. congruence. }
  assert (Hm : (0 < m)%nat) by (destruct m; [lia | lia]).
  exists (i / m)%nat, (i mod m)%nat.
  assert (Hr : (i / m < n)%nat) by (apply Nat.Div0.div_lt_upper_bound; lia).
  assert (Hc : (i mod m < m)%nat) by (apply Nat.mod_upper_bound; lia).
  assert (Ei : i = (i / m * m + i mod m)%nat).
  { rewrite (Nat.div_mod_eq i m) at 1. lia. }
  split; [exact Hr|]. split; [exact Hc|]. split; [exact Ei|].
  rewrite Ei in H. rewrite (nested_loops_nth f 0 n m _ _ Hr Hc) in H.
  simpl in H. congruence.
Qed.

Lemma nested_loops_In {A : Type} (f : nat -> nat -> A) (n m : nat) (x : A) :
  In x (flat_map (fun r => map (f r) (seq 0 m)) (seq 0 n)) <->
  exists r c, (r < n)%nat /\ (c < m)%nat /\ x = f r c.
Proof.
  rewrite in_flat_map. split.
  - intros (r & Hr & Hx). apply in_map_iff in Hx. destruct Hx as (c & <- & Hc).
    apply in_seq in Hr. apply in_seq in Hc. exists r, c. repeat split; lia.
  - intros (r & c & Hr & Hc & ->). exists r. split; [apply in_seq; lia|].
    apply in_map_iff. exists c. split; [reflexivity | apply in_seq; lia].
Qed.

Lemma grids_of_region_Ok region_id region :
  (0 < ForestRegion.grid_rows region)%nat ->
  (0 < ForestRegion.grid_cols region)%nat ->
  grids_of_region region_id region =
    Ok (flat_map
          (fun row =>
             map (make_cell region_id region (lat_step region) (lng_step region) row)
               (seq 0 (ForestRegion.grid_cols region)))
          (seq 0 (ForestRegion.grid_rows region))).
Proof.
  intros Hr Hc. unfold grids_of_region.
  destruct (Nat.eqb_spec (ForestRegion.grid_rows region) 0); [lia|].
  destruct (Nat.eqb_spec (ForestRegion.grid_cols region) 0); [lia|].
  reflexivity.
Qed.

Lemma in_box_make_cell region_id region r c lat lng :
  in_box (GridCell.bounds
            (make_cell region_id region (lat_step region) (lng_step region) r c))
    lat lng <->
  (- north (ForestRegion.bounds region) + inject_Z (Z.of_nat r) * lat_step region
     <= - lat /\
   - lat < - north (ForestRegion.bounds region)
           + inject_Z (Z.of_nat r) * lat_step region + lat_step region) /\
  (west (ForestRegion.bounds region) + inject_Z (Z.of_nat c) * lng_step region
     <= lng /\
   lng < west (ForestRegion.bounds region)
         + inject_Z (Z.of_nat c) * lng_step region + lng_step region).
Proof. unfold in_box. simpl. split; intros H; repeat split; lra. Qed.

Section Tiling.
Variables (region_id : string) (region : ForestRegion.t).
Hypothesis Hwf : well_formed region.

Local Abbreviation rows := (ForestRegion.grid_rows region).
Local Abbreviation cols := (ForestRegion.grid_cols region).
Local Abbreviation b := (ForestRegion.bounds region).

Lemma lat_step_pos : 0 < lat_step region.
Proof.
  destruct Hwf as (Hr & _ & Hlat & _). unfold lat_step.
  apply Qlt_shift_div_l; [apply inject_nat_pos, Hr | lra].
Qed.

Lemma lng_step_pos : 0 < lng_step region.
Proof.
  destruct Hwf as (_ & Hc & _ & Hlng). unfold lng_step.
  apply Qlt_shift_div_l; [apply inject_nat_pos, Hc | lra].
Qed.

Lemma lat_steps_span :
  inject_Z (Z.of_nat rows) * lat_step region == north b - south b.
Proof. destruct Hwf as (Hr & _). apply axis_span, Hr. Qed.

Lemma lng_steps_span :
  inject_Z (Z.of_nat cols) * lng_step region == east b - west b.
Proof. destruct Hwf as (_ & Hc & _). apply axis_span, Hc. Qed.

Lemma cell_inside r c lat lng :
  (r < rows)%nat -> (c < cols)%nat ->
  in_box (GridCell.bounds
            (make_cell region_id region (lat_step region) (lng_step region) r c))
    lat lng ->
  in_box b lat lng.
Proof.
  intros Hr Hc Hin. apply in_box_make_cell in Hin.
  destruct Hin as [[H1 H2] [H3 H4]].
  pose proof lat_step_pos as Hls. pose proof lng_step_pos as Hgs.
  pose proof lat_steps_span as Els. pose proof lng_steps_span as Egs.
  assert (Hr0 : 0 <= inject_Z (Z.of_nat r) * lat_step region).
  { apply Qmult_le_0_compat; [change 0 with (inject_Z 0); rewrite <- Zle_Qle; lia | lra]. }
  assert (Hc0 : 0 <= inject_Z (Z.of_nat c) * lng_step region).
  { apply Qmult_le_0_compat; [change 0 with (inject_Z 0); rewrite <- Zle_Qle; lia | lra]. }
  assert (Hr1 : inject_Z (Z.of_nat (S r)) * lat_step region
                <= inject_Z (Z.of_nat rows) * lat_step region).
  { apply Qmult_le_compat_r; [apply inject_nat_le; lia | lra]. }
  assert (Hc1 : inject_Z (Z.of_nat (S c)) * lng_step region
                <= inject_Z (Z.of_nat cols) * lng_step region).
  { apply Qmult_le_compat_r; [apply inject_nat_le; lia | lra]. }
  rewrite inject_nat_succ in Hr1, Hc1.
  unfold in_box. repeat split; lra.
Qed.

Lemma cell_covers lat lng :
  in_box b lat lng ->
  exists r c, (r < rows)%nat /\ (c < cols)%nat /\
    in_box (GridCell.bounds
              (make_cell region_id region (lat_step region) (lng_step region) r c))
      lat lng.
Proof.
  intros (H1 & H2 & H3 & H4).
  pose proof lat_steps_span as Els. pose proof lng_steps_span as Egs.
  destruct (axis_cover (- north b) (lat_step region) (- lat) rows lat_step_pos)
    as (r & Hr & Hr1 & Hr2); [lra | lra |].
  destruct (axis_cover (west b) (lng_step region) lng cols lng_step_pos)
    as (c & Hc & Hc1 & Hc2); [lra | lra |].
  exists r, c. split; [exact Hr|]. split; [exact Hc|].
  apply in_box_make_cell. tauto.
Qed.

Lemma cells_disjoint r c r' c' lat lng :
  in_box (GridCell.bounds
            (make_cell region_id region (lat_step region) (lng_step region) r c))
    lat lng ->
  in_box (GridCell.bounds
            (make_cell region_id region (lat_step region) (lng_step region) r' c'))
    lat lng ->
  r = r' /\ c = c'.
Proof.
  intros H H'. apply in_box_make_cell in H, H'.
  destruct H as [[H1 H2] [H3 H4]]. destruct H' as [[H1' H2'] [H3' H4']].
  split.
  - exact (axis_disjoint _ _ _ r r' lat_step_pos H1 H2 H1' H2').
  - exact (axis_disjoint _ _ _ c c' lng_step_pos H3 H4 H3' H4').
Qed.

(** The partition of a well-formed region. *)
Lemma grids_tile :
  exists cells,
    grids_of_region region_id region = Ok cells /\
    length cells = (rows * cols)%nat /\
    (forall r c, (r < rows)%nat -> (c < cols)%nat ->
       exists cell,
         nth_error cells (r * cols + c) = Some cell /\
         GridCell.row cell = r /\ GridCell.col cell = c /\
         north (GridCell.bounds cell)
           == north b - inject_Z (Z.of_nat r) * lat_step region /\
         south (GridCell.bounds cell)
           == north (GridCell.bounds cell) - lat_step region /\
         west (GridCell.bounds cell)
           == west b + inject_Z (Z.of_nat c) * lng_step region /\
         east (GridCell.bounds cell)
           == west (GridCell.bounds cell) + lng_step region) /\
    (forall cell lat lng,
       In cell cells -> in_box (GridCell.bounds cell) lat lng -> in_box b lat lng) /\
    (forall lat lng,
       in_box b lat lng ->
       exists cell, In cell cells /\ in_box (GridCell.bounds cell) lat lng) /\
    (forall i j ci cj lat lng,
       nth_error cells i = Some ci -> nth_error cells j = Some cj ->
       in_box (GridCell.bounds ci) lat lng -> in_box (GridCell.bounds cj) lat lng ->
       i = j).
Proof.
  destruct Hwf as (Hrows & Hcols & _).
  eexists. split; [apply grids_of_region_Ok; assumption|].
  split; [apply nested_loops_length|].
  split; [|split; [|split]].
  - intros r c Hr Hc. eexists. split; [apply nested_loops_nth; assumption|].
    simpl. repeat split; reflexivity.
  - intros cell lat lng Hin Hbox.
    apply nested_loops_In in Hin. destruct Hin as (r & c & Hr & Hc & ->).
    exact (cell_inside r c lat lng Hr Hc Hbox).
  - intros lat lng Hbox.
    destruct (cell_covers lat lng Hbox) as (r & c & Hr & Hc & Hin).
    eexists. split; [|exact Hin].
    apply nested_loops_In. exists r, c. repeat split; assumption.
  - intros i j ci cj lat lng Hi Hj Hci Hcj.
    apply nested_loops_index in Hi, Hj.
    destruct Hi as (r & c & _ & _ & -> & ->).
    destruct Hj as (r' & c' & _ & _ & -> & ->).
    destruct (cells_disjoint _ _ _ _ _ _ Hci Hcj) as [-> ->]. reflexivity.
Qed.
End Tiling.

Lemma registered_regions region_id region :
  FOREST_REGIONS !! region_id = Some region ->
  (region_id = "amazon" /\ region = amazon) \/
  (region_id = "california" /\ region = california) \/
  (region_id = "australia" /\ region = australia) \/
  (region_id = "mediterranean" /\ region = mediterranean).
Proof.
  unfold FOREST_REGIONS. intros H.
  destruct (decide (region_id = "amazon")) as [-> | N1].
  { rewrite lookup_insert_eq in H. left. split; congruence. }
  rewrite lookup_insert_ne in H by congruence.
  destruct (decide (region_id = "california")) as [-> | N2].
  { rewrite lookup_insert_eq in H. right. left. split; congruence. }
  rewrite lookup_insert_ne in H by congruence.
  destruct (decide (region_id = "australia")) as [-> | N3].
  { rewrite lookup_insert_eq in H. right. right. left. split; congruence. }
  rewrite lookup_insert_ne in H by congruence.
  destruct (decide (region_id = "mediterranean")) as [-> | N4].
  { rewrite lookup_insert_eq in H. right. right. right. split; congruence. }
  rewrite lookup_insert_ne in H by congruence.
  rewrite lookup_empty in H. discriminate.
Qed.

Lemma registered_well_formed region_id region :
  FOREST_REGIONS !! region_id = Some region -> well_formed region.
Proof.
  intros H.
  destruct (registered_regions _ _ H) as [[_ ->] | [[_ ->] | [[_ ->] | [_ ->]]]];
    unfold well_formed; simpl; repeat split; try lia; reflexivity.
Qed.

(** C3.  For a registered region the partition returns rows x cols cells in
    row-major order; the cell of row r and column c has its north edge at
    the region's north minus r latitude steps, its south edge one step
    below, its west edge at the region's west plus c longitude steps and
    its east edge one step further.  The cells tile the region: each lies
    inside it, every point of the region is in some cell, and no point is in
    two of them. *)
Theorem partition_tiles_region (region_id : string) (region : ForestRegion.t) :
  FOREST_REGIONS !! region_id = Some region ->
  exists cells,
    generate_grids_for_region region_id = Ok cells /\
    length cells
      = (ForestRegion.grid_rows region * ForestRegion.grid_cols region)%nat /\
    (forall r c,
       (r < ForestRegion.grid_rows region)%nat ->
       (c < ForestRegion.grid_cols region)%nat ->
       exists cell,
         nth_error cells (r * ForestRegion.grid_cols region + c) = Some cell /\
         GridCell.row cell = r /\ GridCell.col cell = c /\
         north (GridCell.bounds cell)
           == north (ForestRegion.bounds region)
              - inject_Z (Z.of_nat r) * lat_step region /\
         south (GridCell.bounds cell)
           == north (GridCell.bounds cell) - lat_step region /\
         west (GridCell.bounds cell)
           == west (ForestRegion.bounds region)
              + inject_Z (Z.of_nat c) * lng_step region /\
         east (GridCell.bounds cell)
           == west (GridCell.bounds cell) + lng_step region) /\
    (forall cell lat lng,
       In cell cells -> in_box (GridCell.bounds cell) lat lng ->
       in_box (ForestRegion.bounds region) lat lng) /\
    (forall lat lng,
       in_box (ForestRegion.bounds region) lat lng ->
       exists cell, In cell cells /\ in_box (GridCell.bounds cell) lat lng) /\
    (forall i j ci cj lat lng,
       nth_error cells i = Some ci -> nth_error cells j = Some cj ->
       in_box (GridCell.bounds ci) lat lng -> in_box (GridCell.bounds cj) lat lng ->
       i = j).
Proof.
  intros H. unfold generate_grids_for_region. rewrite H.
  apply grids_tile. exact (registered_well_formed _ _ H).
Qed.

Lemma partition_tiles_region_witness :
  exists cells,
    generate_grids_for_region "california" = Ok cells /\ length cells = 12%nat.
Proof.
  destruct (partition_tiles_region "california" california eq_refl)
    as (cells & Hg & Hlen & _).
  exists cells. split; [exact Hg | exact Hlen].
Defined.
(** ** The per-cell pipeline *)

Section Pipeline.
Context `{RT : Runtime}.

Lemma generate_fire_weather_indices_total obs :
  observed obs -> exists ix, generate_fire_weather_indices obs = Ok ix.
Proof.
  intros ([t Ht] & [h Hh] & [ws Hw] & [r Hr]).
  unfold generate_fire_weather_indices. rewrite Ht, Hh, Hw, Hr. simpl.
  eexists. reflexivity.
Qed.
End Pipeline.

Lemma live_observation_Ok live weather :
  live_observation live = Ok weather ->
  ~ ill_typed live /\ observed weather /\
  source weather = Some "openweather_api" /\
  live_temperature live = Number (get_default (temperature weather) 0) /\
  live_humidity live = Number (get_default (humidity weather) 0) /\
  wind_speed weather = Some (live_wind_speed live) /\
  live_rainfall live = Number (get_default (rainfall weather) 0).
Proof.
  unfold live_observation, ill_typed.
  destruct (live_temperature live) as [t|]; [|discriminate].
  destruct (live_humidity live) as [h|]; [|discriminate].
  destruct (live_rainfall live) as [r|]; [|discriminate].
  cbn [numeric]. intros [= <-]. cbn.
  split; [intros [H | [H | H]]; discriminate H|].
  repeat split; eexists; reflexivity.
Qed.

Lemma live_observation_Raise live e :
  live_observation live = Raise e -> e = TypeError /\ ill_typed live.
Proof.
  unfold live_observation, ill_typed.
  destruct (live_temperature live) as [t|];
    [|intros [= <-]; split; [reflexivity | left; reflexivity]].
  destruct (live_humidity live) as [h|];
    [|intros [= <-]; split; [reflexivity | right; left; reflexivity]].
  destruct (live_rainfall live) as [r|];
    [discriminate | intros [= <-]; split; [reflexivity | right; right; reflexivity]].
Qed.

(** ** Cell areas *)

Lemma Rround_half_even_near (x : R) :
  (- (1 / 2) <= IZR (Rround_half_even x) - x <= 1 / 2)%R.
Proof.
  pose proof (Zfloor_bound x) as [Hlo Hhi].
  unfold Rround_half_even. cbv zeta.
  destruct (Rlt_dec (x - IZR (Zfloor x)) (1 / 2)) as [H1 | H1].
  - lra.
  - destruct (Rlt_dec (1 / 2) (x - IZR (Zfloor x))) as [H2 | H2].
    + rewrite plus_IZR. lra.
    + destruct (Z.even (Zfloor x)); [|rewrite plus_IZR]; lra.
Qed.

Lemma Rpy_round_2_near (x : R) :
  (x - 1 / 200 <= Rpy_round x 2 <= x + 1 / 200)%R.
Proof.
  unfold Rpy_round.
  pose proof (Rround_half_even_near (x * 10 ^ 2)) as H.
  replace (10 ^ 2)%R with 100%R in * by (simpl; lra).
  lra.
Qed.

Lemma cos_lower_bound (x : R) :
  (- (PI / 3) <= x <= PI / 3)%R -> (1 / 2 <= cos x <= 1)%R.
Proof.
  intros [Hlo Hhi]. split; [|apply COS_bound].
  pose proof PI_RGT_0 as Hpi.
  assert (Hpos : forall y, (0 <= y <= PI / 3)%R -> (1 / 2 <= cos y)%R).
  { intros y [H0 H1]. rewrite <- cos_PI3. apply cos_decr_1; lra. }
  destruct (Rle_dec 0 x) as [H | H].
  - apply Hpos. lra.
  - rewrite <- cos_neg. apply Hpos. lra.
Qed.

Lemma Q2R_inject_Z (z : Z) : Q2R (inject_Z z) = IZR z.
Proof. unfold Q2R. simpl. lra. Qed.

Lemma radians_bound (q : Q) :
  -60 <= q -> q <= 60 -> (- (PI / 3) <= radians (Q2R q) <= PI / 3)%R.
Proof.
  intros Hlo Hhi. apply Qle_Rle in Hlo, Hhi.
  change (-60) with (inject_Z (-60)) in Hlo. change 60 with (inject_Z 60) in Hhi.
  rewrite Q2R_inject_Z in Hlo, Hhi.
  pose proof PI_RGT_0 as Hpi. unfold radians. nra.
Qed.

(** The comparison on real numbers: a cell of sides [A] and [B] against a
    region [k] times as large, [k >= 3], both at latitudes where the cosine
    is at least one half. *)
Lemma area_comparison (A B k cc cr : R) :
  (0 < A)%R -> (0 < B)%R -> (1 / 2 <= A * B)%R -> (3 <= k)%R ->
  (1 / 2 <= cc <= 1)%R -> (1 / 2 <= cr <= 1)%R ->
  let cell := (A * 111 * B * (111 * cc))%R in
  let reg := (k * (A * 111 * B * (111 * cr)))%R in
  (0 < Rpy_round cell 2 /\ Rpy_round cell 2 < reg /\
   Rpy_round cell 2 < Rpy_round reg 2)%R.
Proof.
  intros HA HB HAB Hk [Hc0 Hc1] [Hr0 Hr1] cell reg.
  pose proof (Rpy_round_2_near cell) as [L U].
  pose proof (Rpy_round_2_near reg) as [L' U'].
  set (P := (A * B)%R) in *.
  assert (Ecell : cell = (12321 * (P * cc))%R) by (unfold cell, P; ring).
  assert (Ereg : reg = (12321 * (k * (P * cr)))%R) by (unfold reg, P; ring).
  assert (H1 : (P * cc <= P)%R) by nra.
  assert (H2 : (P / 2 <= P * cc)%R) by nra.
  assert (H3 : (P / 2 <= P * cr)%R) by nra.
  assert (H4 : (3 * (P * cr) <= k * (P * cr))%R) by nra.
  rewrite Ecell in *. rewrite Ereg in *.
  repeat split; lra.
Qed.

Lemma midpoint_bounds (lo hi x y : Q) :
  lo <= x -> x <= hi -> lo <= y -> y <= hi ->
  lo <= (x + y) / 2 /\ (x + y) / 2 <= hi.
Proof. intros. unfold Qdiv. change (/ 2) with (1 # 2). split; lra. Qed.

Section Areas.
Variables (region_id : string) (region : ForestRegion.t).
Hypothesis Hwf : well_formed region.
Hypothesis Hsouth : -60 <= south (ForestRegion.bounds region).
Hypothesis Hnorth : north (ForestRegion.bounds region) <= 60.
Hypothesis Hcells :
  (3 <= ForestRegion.grid_rows region * ForestRegion.grid_cols region)%nat.
Hypothesis Hsize : 1 # 2 <= lat_step region * lng_step region.

Local Abbreviation b := (ForestRegion.bounds region).
Local Abbreviation cell r c :=
  (make_cell region_id region (lat_step region) (lng_step region) r c).

Lemma region_area_eq :
  calculate_grid_area b =
    (Q2R (inject_Z (Z.of_nat (ForestRegion.grid_rows region)))
     * Q2R (inject_Z (Z.of_nat (ForestRegion.grid_cols region)))
     * (Q2R (lat_step region) * 111 * Q2R (lng_step region)
        * (111 * cos (radians (Q2R ((north b + south b) / 2))))))%R.
Proof.
  pose proof (lat_steps_span region Hwf) as Els.
  pose proof (lng_steps_span region Hwf) as Egs.
  destruct Hwf as (_ & _ & Hlat & Hlng).
  unfold calculate_grid_area.
  assert (E1 : Qabs (north b - south b)
               == inject_Z (Z.of_nat (ForestRegion.grid_rows region)) * lat_step region).
  { rewrite Qabs_pos by lra. rewrite Els. reflexivity. }
  assert (E2 : Qabs (east b - west b)
               == inject_Z (Z.of_nat (ForestRegion.grid_cols region)) * lng_step region).
  { rewrite Qabs_pos by lra. rewrite Egs. reflexivity. }
  rewrite (Qeq_eqR _ _ E1), (Qeq_eqR _ _ E2), !Q2R_mult. ring.
Qed.

Lemma cell_area_eq r c :
  calculate_grid_area (GridCell.bounds (cell r c)) =
    (Q2R (lat_step region) * 111 * Q2R (lng_step region)
     * (111 * cos (radians
                     (Q2R ((north (GridCell.bounds (cell r c))
                            + south (GridCell.bounds (cell r c))) / 2)))))%R.
Proof.
  pose proof (lat_step_pos region Hwf) as Hls.
  pose proof (lng_step_pos region Hwf) as Hgs.
  unfold calculate_grid_area.
  assert (E1 : Qabs (north (GridCell.bounds (cell r c))
                     - south (GridCell.bounds (cell r c))) == lat_step region).
  { unfold make_cell. cbn [GridCell.bounds north south east west].
    rewrite Qabs_pos; [ring | ring_simplify; lra]. }
  assert (E2 : Qabs (east (GridCell.bounds (cell r c))
                     - west (GridCell.bounds (cell r c))) == lng_step region).
  { unfold make_cell. cbn [GridCell.bounds north south east west].
    rewrite Qabs_pos; [ring | ring_simplify; lra]. }
  rewrite (Qeq_eqR _ _ E1), (Qeq_eqR _ _ E2). reflexivity.
Qed.

Lemma cell_latitudes r c :
  (r < ForestRegion.grid_rows region)%nat ->
  south b <= south (GridCell.bounds (cell r c)) /\
  north (GridCell.bounds (cell r c)) <= north b.
Proof.
  intros Hr.
  pose proof (lat_step_pos region Hwf) as Hls.
  pose proof (lat_steps_span region Hwf) as Els.
  assert (Hr0 : 0 <= inject_Z (Z.of_nat r) * lat_step region).
  { apply Qmult_le_0_compat; [change 0 with (inject_Z 0); rewrite <- Zle_Qle; lia | lra]. }
  assert (Hr1 : inject_Z (Z.of_nat (S r)) * lat_step region
                <= inject_Z (Z.of_nat (ForestRegion.grid_rows region)) * lat_step region).
  { apply Qmult_le_compat_r; [apply inject_nat_le; lia | lra]. }
  rewrite inject_nat_succ in Hr1.
  unfold make_cell. cbn [GridCell.bounds north south east west].
  split; lra.
Qed.

Lemma cell_area_bounds r c :
  (r < ForestRegion.grid_rows region)%nat ->
  (c < ForestRegion.grid_cols region)%nat ->
  (0 < GridCell.area_km2 (cell r c) /\
   GridCell.area_km2 (cell r c) < calculate_grid_area b /\
   GridCell.area_km2 (cell r c) < Rpy_round (calculate_grid_area b) 2)%R.
Proof.
  intros Hr Hc.
  destruct (cell_latitudes r c Hr) as [Hs Hn].
  destruct Hwf as (_ & _ & Hlat & _).
  assert (Hsn : south (GridCell.bounds (cell r c)) <= north (GridCell.bounds (cell r c))).
  { pose proof (lat_step_pos region Hwf).
    unfold make_cell. cbn [GridCell.bounds north south east west]. lra. }
  change (GridCell.area_km2 (cell r c))
    with (Rpy_round (calculate_grid_area (GridCell.bounds (cell r c))) 2).
  rewrite region_area_eq, cell_area_eq.
  apply area_comparison.
  - rewrite <- RMicromega.Q2R_0. apply Qlt_Rlt, lat_step_pos, Hwf.
  - rewrite <- RMicromega.Q2R_0. apply Qlt_Rlt, lng_step_pos, Hwf.
  - rewrite <- Q2R_mult. apply Qle_Rle in Hsize.
    replace (1 / 2)%R with (Q2R (1 # 2)) by (unfold Q2R; simpl; lra). exact Hsize.
  - rewrite !Q2R_inject_Z, <- mult_IZR. apply IZR_le. lia.
  - destruct (midpoint_bounds (-60) 60 (north (GridCell.bounds (cell r c)))
                (south (GridCell.bounds (cell r c)))); [lra | lra | lra | lra |].
    apply cos_lower_bound, radians_bound; assumption.
  - destruct (midpoint_bounds (-60) 60 (north b) (south b)); [lra | lra | lra | lra |].
    apply cos_lower_bound, radians_bound; assumption.
Qed.
End Areas.

Lemma registered_area_conditions region_id region :
  FOREST_REGIONS !! region_id = Some region ->
  -60 <= south (ForestRegion.bounds region) /\
  north (ForestRegion.bounds region) <= 60 /\
  (3 <= ForestRegion.grid_rows region * ForestRegion.grid_cols region)%nat /\
  1 # 2 <= lat_step region * lng_step region.
Proof.
  intros H.
  destruct (registered_regions _ _ H) as [[_ ->] | [[_ ->] | [[_ ->] | [_ ->]]]];
    (split; [|split; [|split]]); try (simpl; lia); vm_compute; discriminate.
Qed.

(** C9.  Every cell of a registered region has a stored area, the rounded
    approximation of its own bounding box, that is positive and below the
    approximate area of the region, rounded or not. *)
Theorem cell_area_positive_below_region (region_id : string)
    (region : ForestRegion.t) (cells : list GridCell.t) (cell : GridCell.t) :
  FOREST_REGIONS !! region_id = Some region ->
  generate_grids_for_region region_id = Ok cells ->
  In cell cells ->
  GridCell.area_km2 cell = Rpy_round (calculate_grid_area (GridCell.bounds cell)) 2 /\
  (0 < GridCell.area_km2 cell)%R /\
  (GridCell.area_km2 cell < calculate_grid_area (ForestRegion.bounds region))%R /\
  (GridCell.area_km2 cell
   < Rpy_round (calculate_grid_area (ForestRegion.bounds region)) 2)%R.
Proof.
  intros Hreg Hgen Hin.
  pose proof (registered_well_formed _ _ Hreg) as Hwf.
  destruct (registered_area_conditions _ _ Hreg) as (Hs & Hn & Hk & Hsz).
  unfold generate_grids_for_region in Hgen. rewrite Hreg in Hgen.
  destruct Hwf as (Hrows & Hcols & Hrest) eqn:Ewf.
  rewrite (grids_of_region_Ok region_id region Hrows Hcols) in Hgen.
  injection Hgen as <-.
  apply nested_loops_In in Hin. destruct Hin as (r & c & Hr & Hc & ->).
  split; [reflexivity|].
  apply cell_area_bounds; assumption.
Qed.

Lemma cell_area_positive_below_region_witness :
  (0 < GridCell.area_km2
         (make_cell "amazon" amazon (lat_step amazon) (lng_step amazon) 2 3))%R.
Proof.
  apply (cell_area_positive_below_region "amazon" amazon
           (flat_map
              (fun row =>
                 map (make_cell "amazon" amazon (lat_step amazon) (lng_step amazon) row)
                   (seq 0 4))
              (seq 0 3))
           (make_cell "amazon" amazon (lat_step amazon) (lng_step amazon) 2 3)).
  - reflexivity.
  - reflexivity.
  - apply nested_loops_In. exists 2%nat, 3%nat. repeat split; lia.
Defined.

(** ** The model at work *)

Example scores_at_the_thresholds :
  map (fun temp =>
         match predict fallback_model (weather_of temp 80 0 0 0) with
         | Ok p => Some (Qred (risk_score p), risk_category p)
         | Raise _ => None
         end)
      [36.5; 37; 53; 53.5; 70]
  = [Some (33, Low); Some (34, Medium); Some (66, Medium); Some (67, High);
     Some (100, High)].
Proof. vm_compute. reflexivity. Qed.

Example amazon_first_cell :
  let cell := make_cell "amazon" amazon (lat_step amazon) (lng_step amazon) 0 0 in
  GridCell.id cell = "amazon_grid_0_0" /\
  north (GridCell.bounds cell) == -2 /\ south (GridCell.bounds cell) == -3 /\
  west (GridCell.bounds cell) == -65 /\ east (GridCell.bounds cell) == -63.75 /\
  GridCell.center_lat cell == -2.5 /\ GridCell.center_lng cell == -64.375.
Proof. repeat split; reflexivity. Qed.

Example mediterranean_last_cell :
  let cell :=
    make_cell "mediterranean" mediterranean (lat_step mediterranean)
      (lng_step mediterranean) 2 3 in
  GridCell.id cell = "mediterranean_grid_2_3" /\
  north (GridCell.bounds cell) == 38 /\
  south (GridCell.bounds cell) == south (ForestRegion.bounds mediterranean) /\
  west (GridCell.bounds cell) == -7 /\
  east (GridCell.bounds cell) == east (ForestRegion.bounds mediterranean).
Proof. repeat split; reflexivity. Qed.

Example simulated_observation :
  exists obs,
    fst (get_weather_for_grid 37.5 (-119.5) "california_grid_1_1" example_world)
      = Ok obs /\
    source obs = Some "simulated" /\
    get_default (temperature obs) 0 == 38.1 /\
    get_default (humidity obs) 0 == 54.7 /\
    get_default (wind_speed obs) 0 == 12.6 /\
    get_default (rainfall obs) 1 == 0 /\
    get_default (fwi obs) 0 == 8.3.
Proof. eexists. split; [vm_compute; reflexivity|]. repeat split; reflexivity. Qed.

Example extreme_observation :
  generate_fire_weather_indices (weather_of 100 0 10 0 0)
  = Ok (mkFireIndices (py_round 96 1) (py_round 30 1) (py_round 400 1)
          (py_round 7.4 1) (py_round 32 1) (py_round 15.388 1)).
Proof. vm_compute. reflexivity. Qed.

Example explanation_of_a_hot_dry_day :
  map (fun f => (factor f, impact f))
    (contributing_factors
       (explain_prediction fallback_model (weather_of 36 20 25 0 20)
          (finish_prediction fallback_model 100 1 fallback_importance)))
  = [("High Temperature", critical); ("Very Low Humidity", critical);
     ("High Wind Speed", critical); ("No Recent Rain", moderate);
     ("High Fire Weather Index", critical)].
Proof. vm_compute. reflexivity. Qed.

Example summary_of_three_cells :
  exists s,
    summarize
      [mkGridPrediction "a" 0 0 (0, 0) (mkBounds 0 0 0 0) 0%R 70.5 High 0.705
         empty_weather "";
       mkGridPrediction "b" 0 1 (0, 0) (mkBounds 0 0 0 0) 0%R 20 Low 0.2
         empty_weather "";
       mkGridPrediction "c" 0 2 (0, 0) (mkBounds 0 0 0 0) 0%R 40 Medium 0.4
         empty_weather ""]
    = Ok s /\
    average_risk s == 43.5 /\ max_risk s == 70.5 /\ min_risk s == 20 /\
    alert_level s = WARNING /\ high_risk_count s = 1%nat.
Proof. eexists. split; [reflexivity|]. repeat split; reflexivity. Qed.

(** A live reply with a temperature that is not a number passes the fetch
    and fails in the index derivation. *)
Example reply_without_temperature :
  fst (get_weather_for_grid 37.5 (-119.5) "california_grid_1_1"
         example_world_null_temperature)
  = Raise TypeError
  /\ fst (get_grid_explanation "california" "california_grid_1_1"
            example_world_null_temperature)
     = Raise TypeError.
Proof. split; reflexivity. Qed.

(** The two readings of the arithmetic part at rounding ties: the sum of
    the rounded terms lands on the other side of the tie than the exact
    sum. *)
Example score_at_a_tie :
  map (fun input =>
         match Binary64.predict fallback_float_model input with
         | Ok p => Some (Binary64.risk_score p, Binary64.risk_category p)
         | Raise _ => None
         end)
      [float_weather_of (value_of (Binary64.lit 20.3)) 52 (value_of (Binary64.lit 12.3)) 0 0;
       float_weather_of 19 (value_of (Binary64.lit 83.6)) (value_of (Binary64.lit 20.3))
         (value_of (Binary64.lit 2.5)) (value_of (Binary64.lit 11.2))]
  = [Some (Binary64.lit 33.1, Medium); Some (Binary64.lit 35.2, Medium)]
  /\ match predict fallback_model (weather_of 20.3 52 12.3 0 0),
           predict fallback_model (weather_of 19 83.6 20.3 2.5 11.2) with
     | Ok p, Ok p' =>
         risk_score p == 33 /\ risk_category p = Low /\
         risk_score p' == 35.2 /\ risk_category p' = Medium
     | _, _ => False
     end.
Proof. split; [vm_compute; reflexivity | repeat split; reflexivity]. Qed.

Example index_at_a_tie :
  match Binary64.generate_fire_weather_indices
          (float_weather_of 41 (value_of (Binary64.lit 55.5))
             (value_of (Binary64.lit 19.4)) 0 0) with
  | Ok ix => Some (Binary64.ix_ffmc ix)
  | Raise _ => None
  end = Some (Binary64.lit 82.3)
  /\ match generate_fire_weather_indices (weather_of 41 55.5 19.4 0 0) with
     | Ok ix => ix_ffmc ix == 82.4
     | Raise _ => False
     end.
Proof. split; [vm_compute; reflexivity | reflexivity]. Qed.

(** * Further properties of the code

    ** Rounding is monotone and accurate *)

Lemma round_half_even_near x :
  inject_Z (round_half_even x) - x <= 1 # 2 /\ x - inject_Z (round_half_even x) <= 1 # 2.
Proof.
  pose proof (Qfloor_le x) as Hlo. pose proof (Qlt_floor x) as Hhi.
  rewrite inject_Z_plus in Hhi. change (inject_Z 1) with 1 in Hhi.
  unfold round_half_even.
  destruct (Qcompare (x - inject_Z (Qfloor x)) (1 # 2)) eqn:E.
  - apply Qeq_alt in E. destruct (Z.even (Qfloor x)).
    + lra.
    + rewrite inject_Z_plus. change (inject_Z 1) with 1. lra.
  - apply Qlt_alt in E. lra.
  - apply Qgt_alt in E. rewrite inject_Z_plus. change (inject_Z 1) with 1. lra.
Qed.

Lemma py_round_near x n :
  py_round x n - x <= (1 # 2) / pow10 n /\ x - py_round x n <= (1 # 2) / pow10 n.
Proof.
  pose proof (pow10_pos n) as Hp.
  destruct (round_half_even_near (x * pow10 n)) as [H1 H2].
  unfold py_round. split.
  - apply Qmult_le_r with (z := pow10 n); [exact Hp|].
    rewrite Qdiv_mult_cancel by exact Hp.
    assert (E : (inject_Z (round_half_even (x * pow10 n)) / pow10 n - x) * pow10 n
                == inject_Z (round_half_even (x * pow10 n)) - x * pow10 n) by (field; lra).
    rewrite E. exact H1.
  - apply Qmult_le_r with (z := pow10 n); [exact Hp|].
    rewrite Qdiv_mult_cancel by exact Hp.
    assert (E : (x - inject_Z (round_half_even (x * pow10 n)) / pow10 n) * pow10 n
                == x * pow10 n - inject_Z (round_half_even (x * pow10 n))) by (field; lra).
    rewrite E. exact H2.
Qed.

Lemma round_half_even_mono x y :
  x <= y -> (round_half_even x <= round_half_even y)%Z.
Proof.
  intros Hxy.
  pose proof (Qfloor_resp_le _ _ Hxy) as Hf.
  destruct (Z.eq_dec (Qfloor x) (Qfloor y)) as [E | N].
  - unfold round_half_even. rewrite <- E.
    destruct (Qcompare_spec (x - inject_Z (Qfloor x)) (1 # 2)) as [Ex | Ex | Ex];
      destruct (Qcompare_spec (y - inject_Z (Qfloor x)) (1 # 2)) as [Ey | Ey | Ey];
      try (exfalso; lra); destruct (Z.even (Qfloor x)); lia.
  - destruct (round_half_even_cases x) as [-> | [-> _]];
      destruct (round_half_even_cases y) as [-> | [-> _]]; lia.
Qed.

Lemma py_round_mono x y n : x <= y -> py_round x n <= py_round y n.
Proof.
  intros Hxy. pose proof (pow10_pos n) as Hp. unfold py_round.
  apply Qmult_le_r with (z := pow10 n); [exact Hp|].
  rewrite !Qdiv_mult_cancel by exact Hp. rewrite <- Zle_Qle.
  apply round_half_even_mono. apply Qmult_le_compat_r; lra.
Qed.

Lemma py_clamp_mono lo hi x y :
  lo <= hi -> x <= y ->
  py_max lo (py_min hi x) <= py_max lo (py_min hi y).
Proof.
  intros Hle Hxy. rewrite !py_clamp by exact Hle. unfold clamp.
  destruct (Qltb x lo) eqn:E1; destruct (Qltb y lo) eqn:E2;
    destruct (Qltb hi x) eqn:E3; destruct (Qltb hi y) eqn:E4;
    try apply Qltb_lt in E1; try apply Qltb_ge in E1;
    try apply Qltb_lt in E2; try apply Qltb_ge in E2;
    try apply Qltb_lt in E3; try apply Qltb_ge in E3;
    try apply Qltb_lt in E4; try apply Qltb_ge in E4; lra.
Qed.

(** ** The scorer, continued *)

Lemma finish_prediction_rank self s s' fp fp' imp imp' :
  py_round s 1 <= py_round s' 1 ->
  (category_rank (risk_category (finish_prediction self s fp imp))
   <= category_rank (risk_category (finish_prediction self s' fp' imp')))%nat.
Proof.
  intros Hs.
  destruct (finish_prediction_category self s fp imp) as (HL & HM & HH).
  destruct (finish_prediction_category self s' fp' imp') as (HL' & HM' & HH').
  simpl risk_score in *.
  destruct (risk_category (finish_prediction self s fp imp)) eqn:E;
    destruct (risk_category (finish_prediction self s' fp' imp')) eqn:E';
    simpl; try lia; exfalso.
  - pose proof (proj1 HM eq_refl). pose proof (proj1 HL' eq_refl). lra.
  - pose proof (proj1 HH eq_refl). pose proof (proj1 HL' eq_refl). lra.
  - pose proof (proj1 HH eq_refl). pose proof (proj1 HM' eq_refl). lra.
Qed.

(** X1.  The rule-based score is monotone: a hotter, drier, windier
    observation with a higher index and no more rain never scores lower,
    never gets a lower probability and never falls into a lower category. *)
Theorem fallback_score_monotone self w w' :
  is_loaded self = false ->
  get_default (temperature w) 25 <= get_default (temperature w') 25 ->
  get_default (humidity w') 50 <= get_default (humidity w) 50 ->
  get_default (wind_speed w) 10 <= get_default (wind_speed w') 10 ->
  get_default (rainfall w') 0 <= get_default (rainfall w) 0 ->
  get_default (fwi w) 10 <= get_default (fwi w') 10 ->
  exists p p',
    predict self w = Ok p /\ predict self w' = Ok p' /\
    risk_score p <= risk_score p' /\
    probability p <= probability p' /\
    (category_rank (risk_category p) <= category_rank (risk_category p'))%nat.
Proof.
  intros Hl Ht Hh Hw Hr Hf.
  rewrite !(predict_fallback _ _ Hl). do 2 eexists.
  split; [reflexivity|]. split; [reflexivity|].
  assert (Hrisk : _calculate_fallback_risk w <= _calculate_fallback_risk w').
  { unfold _calculate_fallback_risk. apply py_clamp_mono; lra. }
  assert (Hscore : py_round (_calculate_fallback_risk w) 1
                   <= py_round (_calculate_fallback_risk w') 1)
    by (apply py_round_mono, Hrisk).
  split; [exact Hscore|]. split.
  - simpl. apply py_round_mono. unfold Qdiv.
    apply Qmult_le_compat_r; [exact Hrisk | discriminate].
  - apply finish_prediction_rank. exact Hscore.
Qed.

Lemma fallback_score_monotone_witness :
  exists p p',
    predict fallback_model (weather_of 28 55 8 1 6) = Ok p /\
    predict fallback_model (weather_of 31 40 12 0 9) = Ok p' /\
    risk_score p <= risk_score p' /\
    probability p <= probability p' /\
    (category_rank (risk_category p) <= category_rank (risk_category p'))%nat.
Proof.
  apply (fallback_score_monotone fallback_model (weather_of 28 55 8 1 6)
           (weather_of 31 40 12 0 9)); vm_compute; congruence.
Defined.

(** X2.  Whatever the mode, the probability of a prediction lies in [0, 1]
    and agrees with the score: the score differs from a hundred times the
    probability by at most 0.055 (both are roundings of the same value). *)
Theorem probability_agrees_with_score self w p :
  probabilities_in_unit self ->
  predict self w = Ok p ->
  0 <= probability p /\ probability p <= 1 /\
  risk_score p - 100 * probability p <= 0.055 /\
  100 * probability p - risk_score p <= 0.055.
Proof.
  intros Hprob Hp.
  assert (Hshape : exists fp, 0 <= fp /\ fp <= 1 /\
                     risk_score p == py_round (fp * 100) 1 /\
                     probability p == py_round fp 4).
  { revert Hp. unfold predict.
    destruct (is_loaded self) eqn:Hl; [destruct (model self) as [m|] eqn:Hm|].
    - destruct (scaler self) as [sc|]; [|discriminate].
      set (proba := predict_proba m _).
      destruct (if Nat.ltb 1 (length proba) then nth_error proba 1 else nth_error proba 0)
        as [fp|] eqn:Hfp; [|discriminate].
      intros [= <-]. exists fp.
      assert (Hin : In fp proba).
      { destruct (Nat.ltb 1 (length proba)); eapply nth_error_In; exact Hfp. }
      destruct (Hprob m _ fp Hm Hin) as [H0 H1].
      split; [exact H0|]. split; [exact H1|]. split; reflexivity.
    - intros [= <-]. exists (_calculate_fallback_risk w / 100).
      destruct (_calculate_fallback_risk_range w) as [H0 H1].
      split; [apply Qle_shift_div_l; lra|]. split; [apply Qle_shift_div_r; lra|].
      split; [|reflexivity]. cbn [risk_score finish_prediction].
      generalize (_calculate_fallback_risk w). intros r.
      apply py_round_Proper; [field | reflexivity].
    - intros [= <-]. exists (_calculate_fallback_risk w / 100).
      destruct (_calculate_fallback_risk_range w) as [H0 H1].
      split; [apply Qle_shift_div_l; lra|]. split; [apply Qle_shift_div_r; lra|].
      split; [|reflexivity]. cbn [risk_score finish_prediction].
      generalize (_calculate_fallback_risk w). intros r.
      apply py_round_Proper; [field | reflexivity]. }
  destruct Hshape as (fp & H0 & H1 & Es & Ep).
  destruct (py_round_between 0 10000 fp 4) as [L U].
  { assert (E : inject_Z 0 / pow10 4 == 0) by reflexivity. rewrite E. exact H0. }
  { assert (E : inject_Z 10000 / pow10 4 == 1) by reflexivity. rewrite E. exact H1. }
  assert (E0 : inject_Z 0 / pow10 4 == 0) by reflexivity.
  assert (E1 : inject_Z 10000 / pow10 4 == 1) by reflexivity.
  rewrite E0 in L. rewrite E1 in U.
  destruct (py_round_near (fp * 100) 1) as [N1 N2].
  destruct (py_round_near fp 4) as [N3 N4].
  assert (D1 : (1 # 2) / pow10 1 == 0.05) by reflexivity.
  assert (D4 : (1 # 2) / pow10 4 == 0.00005) by reflexivity.
  rewrite D1 in N1, N2. rewrite D4 in N3, N4.
  rewrite Es, Ep. repeat split; lra.
Qed.

Lemma probability_agrees_with_score_witness :
  exists p,
    predict example_loaded_model (weather_of 40 20 25 0 20) = Ok p /\
    0 <= probability p /\ probability p <= 1.
Proof.
  assert (Hp : predict example_loaded_model (weather_of 40 20 25 0 20)
               = Ok (finish_prediction example_loaded_model (0.8 * 100) 0.8
                       (combine FEATURE_COLUMNS
                          (feature_importances_ example_classifier))))
    by reflexivity.
  assert (Hprob : probabilities_in_unit example_loaded_model).
  { intros m x q [= <-] Hin. simpl in Hin.
    destruct Hin as [<- | [<- | []]]; split; vm_compute; discriminate. }
  destruct (probability_agrees_with_score _ _ _ Hprob Hp) as (H0 & H1 & _).
  eexists. split; [exact Hp|]. split; [exact H0 | exact H1].
Defined.

(** X3.  The feature vector always has the ten features in training order:
    temperature, humidity, wind, rain and the six indices, each read from
    the weather dictionary under its own key and replaced by its default
    (25, 50, 10, 0, 70, 10, 100, 5, 15, 10) when the key is missing. *)
Theorem features_in_training_order (w : WeatherData) :
  _weather_to_features w =
    [get_default (temperature w) 25; get_default (humidity w) 50;
     get_default (wind_speed w) 10; get_default (rainfall w) 0;
     get_default (ffmc w) 70; get_default (dmc w) 10; get_default (dc w) 100;
     get_default (isi w) 5; get_default (bui w) 15; get_default (fwi w) 10] /\
  length (_weather_to_features w) = length FEATURE_COLUMNS.
Proof.
  split; [|unfold _weather_to_features; apply length_map].
  unfold _weather_to_features. cbn [map FEATURE_COLUMNS].
  repeat match goal with
         | |- _ :: _ = _ :: _ => f_equal
         end.
  all: try reflexivity.
  all: cbn; match goal with
            | |- match ?o with _ => _ end = _ => destruct o; reflexivity
            end.
Qed.

(** X4.  Loading decides the mode once: the model counts as loaded exactly
    when the classifier and the scaler files load and the metadata file, if
    there is one, loads too; a loaded model always holds its classifier and
    its scaler, so the only exception [predict] can raise is the
    [IndexError] of a classifier that answers with no probability at all. *)
Theorem load_decides_mode (dir : ModelDir) :
  (is_loaded (_load_model dir) = true <->
   (exists m s, MODEL_PATH dir = Present m /\ SCALER_PATH dir = Present s) /\
   METADATA_PATH dir <> Corrupt) /\
  (is_loaded (_load_model dir) = true ->
   is_Some (model (_load_model dir)) /\ is_Some (scaler (_load_model dir))) /\
  (forall w e,
      predict (_load_model dir) w = Raise e ->
      e = IndexError /\
      exists m sc,
        model (_load_model dir) = Some m /\ scaler (_load_model dir) = Some sc /\
        predict_proba m (transform sc (_weather_to_features w)) = []).
Proof.
  unfold _load_model.
  destruct (MODEL_PATH dir) as [| |m] eqn:Em;
    destruct (SCALER_PATH dir) as [| |s] eqn:Es;
    destruct (METADATA_PATH dir) as [| |md] eqn:Emd;
    cbn [exists_ andb is_loaded model scaler].
  all: split; [|split].
  all: try (split; [intros H; discriminate H | ]).
  all: try (intros [(m' & s' & Hm & Hs) Hmd]; congruence).
  all: try (intros H; discriminate H).
  all: try (intros w e H; discriminate H).
  all: try (split; [intros _; split; [eauto | congruence] | reflexivity]).
  all: try (intros _; split; eexists; reflexivity).
  all: intros w e; unfold predict; cbn [is_loaded model scaler];
    destruct (predict_proba m (transform s (_weather_to_features w)))
      as [|a [|b proba]] eqn:Ep; cbn [length Nat.ltb Nat.leb nth_error];
    intros H; try discriminate H;
    injection H as <-; split; [reflexivity|]; exists m, s; auto.
Qed.

Lemma load_decides_mode_witness :
  is_Some (model example_loaded_model) /\ is_Some (scaler example_loaded_model).
Proof.
  apply (proj1 (proj2 (load_decides_mode
                         (mkModelDir (Present example_classifier)
                            (Present (mkScaler (fun x => x))) Absent)))).
  reflexivity.
Defined.

(** ** The explanation, continued *)

Lemma explain_groups self w p :
  exists f1 f2 f3 f4 f5,
    contributing_factors (explain_prediction self w p)
      = (f1 ++ f2 ++ f3 ++ f4 ++ f5)%list /\
    (map factor f1 = [] \/ map factor f1 = ["High Temperature"]
     \/ map factor f1 = ["Elevated Temperature"]) /\
    (map factor f2 = [] \/ map factor f2 = ["Very Low Humidity"]
     \/ map factor f2 = ["Low Humidity"]) /\
    (map factor f3 = [] \/ map factor f3 = ["High Wind Speed"]
     \/ map factor f3 = ["Moderate Wind"]) /\
    (map factor f4 = [] \/ map factor f4 = ["Recent Rainfall"]
     \/ map factor f4 = ["No Recent Rain"]) /\
    (map factor f5 = [] \/ map factor f5 = ["High Fire Weather Index"]) /\
    List.filter (fun f => Impact_eqb (impact f) critical) f4 = [].
Proof.
  unfold explain_prediction. cbv zeta. cbn [contributing_factors].
  do 5 eexists. split; [reflexivity|].
  repeat split.
  all: repeat match goal with
              | |- context [Qltb ?a ?b] => destruct (Qltb a b)
              end; cbn; auto.
Qed.

Lemma group_length {A : Type} (f : list Factor) (a b : list A) (g : Factor -> A) :
  (length a <= 1)%nat -> (length b <= 1)%nat ->
  map g f = [] \/ map g f = a \/ map g f = b -> (length f <= 1)%nat.
Proof.
  intros Ha Hb H. rewrite <- (length_map g).
  destruct H as [-> | [-> | ->]]; simpl; lia.
Qed.

Lemma filter_length_le {A : Type} (P : A -> bool) (l : list A) :
  (length (List.filter P l) <= length l)%nat.
Proof. induction l as [|a l IH]; simpl; [lia|]. destruct (P a); simpl; lia. Qed.

(** X5.  An explanation lists at most five factors, at most one per weather
    variable and no name twice, in the fixed order temperature, humidity,
    wind, rain, index; at most four of them are critical. *)
Theorem explanation_shape self w p :
  let factors := contributing_factors (explain_prediction self w p) in
  (length factors <= 5)%nat /\
  (length (List.filter (fun f => Impact_eqb (impact f) critical) factors) <= 4)%nat /\
  NoDup (map factor factors) /\
  sublist (map factor factors)
    ["High Temperature"; "Elevated Temperature"; "Very Low Humidity";
     "Low Humidity"; "High Wind Speed"; "Moderate Wind"; "Recent Rainfall";
     "No Recent Rain"; "High Fire Weather Index"] /\
  ~ (In "High Temperature" (map factor factors) /\
     In "Elevated Temperature" (map factor factors)) /\
  ~ (In "Very Low Humidity" (map factor factors) /\
     In "Low Humidity" (map factor factors)) /\
  ~ (In "High Wind Speed" (map factor factors) /\
     In "Moderate Wind" (map factor factors)) /\
  ~ (In "Recent Rainfall" (map factor factors) /\
     In "No Recent Rain" (map factor factors)).
Proof.
  intros factors. subst factors.
  destruct (explain_groups self w p)
    as (f1 & f2 & f3 & f4 & f5 & -> & G1 & G2 & G3 & G4 & G5 & C4).
  assert (L1 : (length f1 <= 1)%nat) by (eapply group_length; [| |exact G1]; simpl; lia).
  assert (L2 : (length f2 <= 1)%nat) by (eapply group_length; [| |exact G2]; simpl; lia).
  assert (L3 : (length f3 <= 1)%nat) by (eapply group_length; [| |exact G3]; simpl; lia).
  assert (L4 : (length f4 <= 1)%nat) by (eapply group_length; [| |exact G4]; simpl; lia).
  assert (L5 : (length f5 <= 1)%nat).
  { rewrite <- (length_map factor). destruct G5 as [-> | ->]; simpl; lia. }
  assert (Hsub : sublist (map factor (f1 ++ f2 ++ f3 ++ f4 ++ f5))
                   (["High Temperature"; "Elevated Temperature"]
                    ++ ["Very Low Humidity"; "Low Humidity"]
                    ++ ["High Wind Speed"; "Moderate Wind"]
                    ++ ["Recent Rainfall"; "No Recent Rain"]
                    ++ ["High Fire Weather Index"])%list).
  { rewrite !map_app. repeat apply sublist_app.
    - destruct G1 as [-> | [-> | ->]]; repeat constructor.
    - destruct G2 as [-> | [-> | ->]]; repeat constructor.
    - destruct G3 as [-> | [-> | ->]]; repeat constructor.
    - destruct G4 as [-> | [-> | ->]]; repeat constructor.
    - destruct G5 as [-> | ->]; repeat constructor. }
  split; [rewrite !length_app; lia|].
  split.
  { rewrite !List.filter_app, !length_app, C4. simpl.
    pose proof (filter_length_le (fun f => Impact_eqb (impact f) critical) f1).
    pose proof (filter_length_le (fun f => Impact_eqb (impact f) critical) f2).
    pose proof (filter_length_le (fun f => Impact_eqb (impact f) critical) f3).
    pose proof (filter_length_le (fun f => Impact_eqb (impact f) critical) f5).
    lia. }
  split; [eapply sublist_NoDup; [|exact Hsub]; compute_done|].
  split; [exact Hsub|].
  rewrite !map_app, !in_app_iff.
  assert (N1 : forall n, In n (map factor f1) ->
                 n = "High Temperature" \/ n = "Elevated Temperature").
  { intros n. destruct G1 as [E | [E | E]]; rewrite E; simpl; intuition. }
  assert (N2 : forall n, In n (map factor f2) ->
                 n = "Very Low Humidity" \/ n = "Low Humidity").
  { intros n. destruct G2 as [E | [E | E]]; rewrite E; simpl; intuition. }
  assert (N3 : forall n, In n (map factor f3) ->
                 n = "High Wind Speed" \/ n = "Moderate Wind").
  { intros n. destruct G3 as [E | [E | E]]; rewrite E; simpl; intuition. }
  assert (N4 : forall n, In n (map factor f4) ->
                 n = "Recent Rainfall" \/ n = "No Recent Rain").
  { intros n. destruct G4 as [E | [E | E]]; rewrite E; simpl; intuition. }
  assert (N5 : forall n, In n (map factor f5) -> n = "High Fire Weather Index").
  { intros n. destruct G5 as [E | E]; rewrite E; simpl; intuition. }
  assert (One : forall (f : list Factor) a b,
             (length f <= 1)%nat -> In a (map factor f) -> In b (map factor f) -> a = b).
  { intros f a b Hl. destruct f as [|x [|y f]]; simpl in *; [tauto | | lia].
    intros [<- | []] [<- | []]. reflexivity. }
  split; [|split; [|split]]; intros [Ha Hb].
  - assert (Ha1 : In "High Temperature" (map factor f1)).
    { destruct Ha as [H | [H | [H | [H | H]]]]; [exact H | | | |];
        [apply N2 in H | apply N3 in H | apply N4 in H | apply N5 in H];
        first [discriminate H | destruct H as [H | H]; discriminate H]. }
    assert (Hb1 : In "Elevated Temperature" (map factor f1)).
    { destruct Hb as [H | [H | [H | [H | H]]]]; [exact H | | | |];
        [apply N2 in H | apply N3 in H | apply N4 in H | apply N5 in H];
        first [discriminate H | destruct H as [H | H]; discriminate H]. }
    discriminate (One f1 _ _ L1 Ha1 Hb1).
  - assert (Ha1 : In "Very Low Humidity" (map factor f2)).
    { destruct Ha as [H | [H | [H | [H | H]]]]; [| exact H | | |];
        [apply N1 in H | apply N3 in H | apply N4 in H | apply N5 in H];
        first [discriminate H | destruct H as [H | H]; discriminate H]. }
    assert (Hb1 : In "Low Humidity" (map factor f2)).
    { destruct Hb as [H | [H | [H | [H | H]]]]; [| exact H | | |];
        [apply N1 in H | apply N3 in H | apply N4 in H | apply N5 in H];
        first [discriminate H | destruct H as [H | H]; discriminate H]. }
    discriminate (One f2 _ _ L2 Ha1 Hb1).
  - assert (Ha1 : In "High Wind Speed" (map factor f3)).
    { destruct Ha as [H | [H | [H | [H | H]]]]; [| | exact H | |];
        [apply N1 in H | apply N2 in H | apply N4 in H | apply N5 in H];
        first [discriminate H | destruct H as [H | H]; discriminate H]. }
    assert (Hb1 : In "Moderate Wind" (map factor f3)).
    { destruct Hb as [H | [H | [H | [H | H]]]]; [| | exact H | |];
        [apply N1 in H | apply N2 in H | apply N4 in H | apply N5 in H];
        first [discriminate H | destruct H as [H | H]; discriminate H]. }
    discriminate (One f3 _ _ L3 Ha1 Hb1).
  - assert (Ha1 : In "Recent Rainfall" (map factor f4)).
    { destruct Ha as [H | [H | [H | [H | H]]]]; [| | | exact H |];
        [apply N1 in H | apply N2 in H | apply N3 in H | apply N5 in H];
        first [discriminate H | destruct H as [H | H]; discriminate H]. }
    assert (Hb1 : In "No Recent Rain" (map factor f4)).
    { destruct Hb as [H | [H | [H | [H | H]]]]; [| | | exact H |];
        [apply N1 in H | apply N2 in H | apply N3 in H | apply N5 in H];
        first [discriminate H | destruct H as [H | H]; discriminate H]. }
    discriminate (One f4 _ _ L4 Ha1 Hb1).
Qed.

(** ** Ranking the features *)

Lemma insert_desc_Permutation x l : Permutation (x :: l) (insert_desc x l).
Proof.
  induction l as [|y l IH]; simpl; [reflexivity|].
  destruct (Qltb (snd y) (snd x)); [reflexivity|].
  rewrite perm_swap. apply perm_skip, IH.
Qed.

Lemma sorted_desc_fold_Permutation l acc :
  Permutation (acc ++ l) (fold_left (fun acc x => insert_desc x acc) l acc).
Proof.
  revert acc. induction l as [|x l IH]; intros acc; simpl.
  - rewrite app_nil_r. reflexivity.
  - rewrite <- IH, <- insert_desc_Permutation.
    rewrite <- Permutation_middle. reflexivity.
Qed.

Lemma insert_desc_Forall (P : string * Q -> Prop) x l :
  P x -> Forall P l -> Forall P (insert_desc x l).
Proof.
  intros Hx Hl. eapply Permutation_Forall; [apply insert_desc_Permutation|].
  constructor; assumption.
Qed.

Lemma insert_desc_sorted x l :
  StronglySorted descending l -> StronglySorted descending (insert_desc x l).
Proof.
  induction 1 as [|y l Hl IH Hy]; simpl.
  - repeat constructor.
  - destruct (Qltb (snd y) (snd x)) eqn:E.
    + apply Qltb_lt in E. constructor; [constructor; assumption|].
      constructor; [unfold descending; lra|].
      eapply Forall_impl; [exact Hy|]. unfold descending. intros z Hz. lra.
    + apply Qltb_ge in E. constructor; [exact IH|].
      apply insert_desc_Forall; [exact E | exact Hy].
Qed.

Lemma sorted_desc_fold_sorted l acc :
  StronglySorted descending acc ->
  StronglySorted descending (fold_left (fun acc x => insert_desc x acc) l acc).
Proof.
  revert acc. induction l as [|x l IH]; intros acc Hacc; simpl; [exact Hacc|].
  apply IH, insert_desc_sorted, Hacc.
Qed.

Lemma has_value_below v x l :
  Forall (descending x) l -> snd x < v -> List.filter (has_value v) l = [].
Proof.
  intros Hl Hx. induction Hl as [|y l Hy _ IH]; [reflexivity|].
  simpl. rewrite IH. unfold has_value.
  destruct (Qeq_bool (snd y) v) eqn:E; [|reflexivity].
  apply Qeq_bool_iff in E. unfold descending in Hy. lra.
Qed.

Lemma insert_desc_stable v x l :
  StronglySorted descending l ->
  List.filter (has_value v) (insert_desc x l)
  = (List.filter (has_value v) l ++ List.filter (has_value v) [x])%list.
Proof.
  induction 1 as [|y l Hl IH Hy]; [reflexivity|].
  cbn [insert_desc]. destruct (Qltb (snd y) (snd x)) eqn:E.
  - apply Qltb_lt in E. cbn [List.filter]. destruct (has_value v x) eqn:Ex.
    + unfold has_value in Ex. apply Qeq_bool_iff in Ex.
      assert (Hy' : has_value v y = false).
      { unfold has_value. destruct (Qeq_bool (snd y) v) eqn:Ey; [|reflexivity].
        apply Qeq_bool_iff in Ey. lra. }
      rewrite Hy', (has_value_below v y l Hy) by lra. reflexivity.
    + rewrite app_nil_r. reflexivity.
  - cbn [List.filter] in IH |- *. rewrite IH.
    destruct (has_value v y); reflexivity.
Qed.

Lemma sorted_desc_fold_stable v l acc :
  StronglySorted descending acc ->
  List.filter (has_value v) (fold_left (fun acc x => insert_desc x acc) l acc)
  = (List.filter (has_value v) acc ++ List.filter (has_value v) l)%list.
Proof.
  revert acc. induction l as [|x l IH]; intros acc Hacc; simpl fold_left.
  - rewrite app_nil_r. reflexivity.
  - rewrite IH by (apply insert_desc_sorted, Hacc).
    rewrite insert_desc_stable by exact Hacc.
    rewrite <- app_assoc. cbn [List.filter].
    destruct (has_value v x); reflexivity.
Qed.

(** X6.  The top features of an explanation are the first five entries (or
    all, if fewer) of the importance mapping sorted by descending value:
    together with the entries left out they are a rearrangement of the
    mapping, they are in descending order, nothing left out is larger than
    any of them, and entries of equal value keep the order they had in the
    mapping. *)
Theorem top_features_ranked self w p :
  let importance := feature_importance p in
  let top := top_features (explain_prediction self w p) in
  exists rest,
    Permutation importance (top ++ rest) /\
    length top = Nat.min 5 (length importance) /\
    StronglySorted descending top /\
    (forall a b, In a top -> In b rest -> snd b <= snd a) /\
    (forall v,
        List.filter (has_value v) (top ++ rest)
        = List.filter (has_value v) importance).
Proof.
  intros importance top.
  assert (Etop : top = firstn 5 (sorted_desc importance)) by reflexivity.
  clearbody top importance.
  exists (skipn 5 (sorted_desc importance)).
  assert (Hcat : (top ++ skipn 5 (sorted_desc importance))%list = sorted_desc importance)
    by (rewrite Etop; apply firstn_skipn).
  assert (Hperm : Permutation importance (sorted_desc importance)).
  { unfold sorted_desc. rewrite <- sorted_desc_fold_Permutation. reflexivity. }
  assert (Hsorted : StronglySorted descending (sorted_desc importance)).
  { unfold sorted_desc. apply sorted_desc_fold_sorted. constructor. }
  split; [rewrite Hcat; exact Hperm|].
  split.
  { rewrite Etop, length_firstn, <- (Permutation_length Hperm). reflexivity. }
  clear Etop.
  rewrite <- Hcat in Hsorted.
  split; [|split].
  - clear Hcat. induction top as [|a top IH]; [constructor|].
    simpl in Hsorted. inversion Hsorted as [|? ? Hs Hall]; subst.
    constructor; [apply IH, Hs|].
    apply Forall_app in Hall. apply Hall.
  - clear Hcat. intros a b Ha Hb.
    induction top as [|c top IH]; [destruct Ha|].
    simpl in Hsorted. inversion Hsorted as [|? ? Hs Hall]; subst.
    destruct Ha as [-> | Ha]; [|exact (IH Hs Ha)].
    apply Forall_app in Hall. destruct Hall as [_ Hall].
    rewrite Forall_forall in Hall. apply Hall.
    apply list_elem_of_In. exact Hb.
  - intros v. rewrite Hcat. unfold sorted_desc.
    rewrite sorted_desc_fold_stable by constructor. reflexivity.
Qed.

(** ** The weather provider, continued *)

Lemma py_round_one_decimal x : exists z : Z, py_round x 1 == inject_Z z / 10.
Proof. exists (round_half_even (x * pow10 1)). reflexivity. Qed.

(** X7.  Whatever the coordinate and the cell, a simulated observation is
    plausible: temperature in [15, 45], humidity in [20, 95], wind speed in
    [5, 25], rainfall in [0, 5], each with one decimal, tagged as simulated
    and without derived indices yet. *)
Theorem simulated_weather_ranges `{RT : Runtime}
    (lat lng : Q) (grid_id : string) (s : rng_state) :
  random_in_unit_interval ->
  exists t h ws r,
    fst (generate_simulated_weather lat lng grid_id s) =
      mkWeatherData (Some t) (Some h) (Some ws) (Some r) (Some "simulated")
        (Some "Simulated conditions") None None None None None None None None None /\
    (15 <= t /\ t <= 45) /\ (20 <= h /\ h <= 95) /\
    (5 <= ws /\ ws <= 25) /\ (0 <= r /\ r <= 5) /\
    (exists z : Z, t == inject_Z z / 10) /\ (exists z : Z, h == inject_Z z / 10) /\
    (exists z : Z, ws == inject_Z z / 10) /\ (exists z : Z, r == inject_Z z / 10).
Proof.
  intros Hrand.
  destruct (generate_simulated_weather_fields lat lng grid_id s)
    as (t & h & ws & r & Hv & Hobs).
  destruct (simulated_rainfall _ _ _ _ _ _ _ _ Hv) as [Hdry Hwet].
  assert (Hr : 0 <= r /\ r <= 5).
  { destruct (Qlt_le_dec 60 h) as [Hh | Hh].
    - destruct (Hwet Hh) as [s3 ->]. apply uniform_range; [exact Hrand | lra].
    - rewrite (Hdry Hh). lra. }
  assert (Hthw : (15 <= t /\ t <= 45) /\ (20 <= h /\ h <= 95) /\ (5 <= ws /\ ws <= 25)).
  { revert Hv. unfold simulated_values.
    destruct (uniform (-5) 10 (rng_seed (py_hash grid_id mod 10000)%Z)) as [u1 s1].
    destruct (uniform (-10) 10 s1) as [u2 s2].
    pose proof (uniform_range 5 25 s2 Hrand ltac:(lra)) as Hws.
    destruct (uniform 5 25 s2) as [u3 s3].
    destruct (if Qltb 60 _ then uniform 0 5 s3 else (0, s3)) as [u4 s4].
    simpl. intros [= <- <- <- <-].
    split; [apply py_clamp_range; lra|]. split; [apply py_clamp_range; lra|].
    exact Hws. }
  destruct Hthw as (Ht & Hh & Hws).
  exists (py_round t 1), (py_round h 1), (py_round ws 1), (py_round r 1).
  split; [exact Hobs|].
  split; [apply (py_round_1_between 15 45); apply Ht|].
  split; [apply (py_round_1_between 20 95); apply Hh|].
  split; [apply (py_round_1_between 5 25); apply Hws|].
  split; [apply (py_round_1_between 0 5); apply Hr|].
  repeat split; apply py_round_one_decimal.
Qed.

Lemma simulated_weather_ranges_witness :
  exists t,
    temperature (fst (generate_simulated_weather 37.5 (-119.5) "california_grid_1_1"
                        (rng example_world))) = Some t /\
    15 <= t /\ t <= 45.
Proof.
  destruct (simulated_weather_ranges 37.5 (-119.5) "california_grid_1_1"
              (rng example_world) example_runtime_random_in_unit_interval)
    as (t & h & ws & r & E & Ht & _).
  exists t. rewrite E. split; [reflexivity | exact Ht].
Defined.

Section Provider.
Context `{RT : Runtime}.

Lemma http_status_not_200 (status : Z) (body : option ApiBody) (A : Type)
    (ok : ApiBody -> A) (other : A) :
  status <> 200%Z ->
  match HttpReply status body with
  | HttpReply 200 (Some data) => ok data
  | _ => other
  end = other.
Proof.
  intros Hne. destruct status as [|p|p]; try reflexivity.
  do 8 (destruct p as [p|p|]; try reflexivity).
  congruence.
Qed.

(** X8.  A live fetch never raises and sends at most one request: none
    without an API key (the world is left as it is), exactly one with a key.
    It yields a dictionary exactly when the answer has status 200 and a
    usable body, with temperature and humidity passed on as they came, the
    wind speed converted from m/s to km/h and the rainfall defaulting to 0;
    read as an observation, the dictionary has the live service as its
    source.  The generator and the cached model are never touched. *)
Theorem live_fetch_outcome (lat lng : Q) (w : World) :
  exists r w',
    fetch_weather_from_api lat lng w = (Ok r, w') /\
    rng w' = rng w /\ _model_instance w' = _model_instance w /\
    (OPENWEATHER_API_KEY w = "" -> r = None /\ w' = w) /\
    (OPENWEATHER_API_KEY w <> "" ->
       trace w' = (trace w ++ [CallHttpGet lat lng])%list /\
       service w' = tl (service w) /\
       (is_Some r <->
        exists data, hd HttpFailure (service w) = HttpReply 200 (Some data)) /\
       (forall obs data,
          r = Some obs ->
          hd HttpFailure (service w) = HttpReply 200 (Some data) ->
          live_temperature obs = main_temp data /\
          live_humidity obs = main_humidity data /\
          live_wind_speed obs = wind_speed_ms data * 3.6 /\
          (rain_1h data = None -> live_rainfall obs = Number 0) /\
          (forall v, rain_1h data = Some (Number v) ->
                     exists rain, live_rainfall obs = Number rain /\ rain == v) /\
          (rain_1h data = Some NotNumber -> live_rainfall obs = NotNumber) /\
          (forall weather,
              live_observation obs = Ok weather ->
              temperature weather = Some (get_default (temperature weather) 0) /\
              main_temp data = Number (get_default (temperature weather) 0) /\
              main_humidity data = Number (get_default (humidity weather) 0) /\
              wind_speed weather = Some (wind_speed_ms data * 3.6) /\
              (exists rain, rainfall weather = Some rain /\
                            (rain_1h data = None -> rain == 0) /\
                            (forall v, rain_1h data = Some (Number v) -> rain == v)) /\
              source weather = Some "openweather_api"))).
Proof.
  unfold fetch_weather_from_api.
  destruct (String.eqb_spec (OPENWEATHER_API_KEY w) "") as [Hkey | Hkey].
  { exists None, w. repeat split; try reflexivity; congruence. }
  unfold bind, http_get.
  destruct (hd HttpFailure (service w)) as [|status body] eqn:Hhd.
  - eexists None, _. split; [reflexivity|]. split; [reflexivity|].
    split; [reflexivity|]. split; [congruence|]. intros _.
    split; [reflexivity|]. split; [reflexivity|]. split.
    + split; [intros [x Hx]; discriminate Hx | intros [data Hd]; discriminate Hd].
    + intros obs data Hobs. discriminate Hobs.
  - destruct (Z.eq_dec status 200%Z) as [-> | Hne]; [destruct body as [data|]|].
    + eexists (Some _), _. split; [reflexivity|]. split; [reflexivity|].
      split; [reflexivity|]. split; [congruence|]. intros _.
      split; [reflexivity|]. split; [reflexivity|]. split.
      * split; [intros _; exists data; reflexivity | intros _; eexists; reflexivity].
      * intros obs data' [= <-] [= <-].
        cbn [live_temperature live_humidity live_wind_speed live_rainfall].
        split; [reflexivity|]. split; [reflexivity|]. split; [reflexivity|].
        split; [intros ->; reflexivity|].
        split.
        { intros v ->. destruct (Qeq_bool v 0) eqn:Ev; eexists; (split; [reflexivity|]);
            [apply Qeq_bool_iff in Ev; rewrite Ev|]; reflexivity. }
        split; [intros ->; reflexivity|].
        intros weather Hw. unfold live_observation in Hw.
        cbn [live_temperature live_humidity live_wind_speed live_rainfall
             live_description] in Hw.
        destruct (main_temp data) as [t|]; [|discriminate Hw].
        destruct (main_humidity data) as [h|]; [|discriminate Hw].
        cbn [numeric] in Hw.
        destruct (rain_1h data) as [[v|]|]; cbn [numeric] in Hw;
          try discriminate Hw; injection Hw as <-; cbn;
          (split; [reflexivity|]); (split; [reflexivity|]); (split; [reflexivity|]);
          (split; [reflexivity|]); (split; [|reflexivity]); eexists;
          (split; [reflexivity|]); (split; [try discriminate; try reflexivity|]).
        -- intros v' [= <-]. destruct (Qeq_bool v 0) eqn:Ev; [|reflexivity].
           apply Qeq_bool_iff in Ev. rewrite Ev. reflexivity.
        -- intros v' H. discriminate H.
    + eexists None, _. split; [reflexivity|]. split; [reflexivity|].
      split; [reflexivity|]. split; [congruence|]. intros _.
      split; [reflexivity|]. split; [reflexivity|]. split.
      * split; [intros [x Hx]; discriminate Hx | intros [data Hd]; discriminate Hd].
      * intros obs data Hobs. discriminate Hobs.
    + rewrite (http_status_not_200 status body _ _ _ Hne).
      eexists None, _. split; [reflexivity|]. split; [reflexivity|].
      split; [reflexivity|]. split; [congruence|]. intros _.
      split; [reflexivity|]. split; [reflexivity|]. split.
      * split; [intros [x Hx]; discriminate Hx | intros [data Hd]; congruence].
      * intros obs data Hobs. discriminate Hobs.
Qed.
End Provider.

(** ** The grid, continued *)

Lemma grids_of_region_cells region_id region cells :
  well_formed region ->
  grids_of_region region_id region = Ok cells ->
  cells =
    flat_map
      (fun row =>
         map (make_cell region_id region (lat_step region) (lng_step region) row)
           (seq 0 (ForestRegion.grid_cols region)))
      (seq 0 (ForestRegion.grid_rows region)).
Proof.
  intros (Hrows & Hcols & _) H.
  rewrite (grids_of_region_Ok region_id region Hrows Hcols) in H. congruence.
Qed.

(** X10.  In the partition of any region with a proper box and a positive
    arity, the outer cells end on the region's edges and neighbouring cells
    share theirs: a cell's south edge is the north edge of the cell below,
    its east edge the west edge of the cell to its right. *)
Theorem neighbouring_cells_share_edges (region_id : string)
    (region : ForestRegion.t) (cells : list GridCell.t) (r c : nat)
    (cell : GridCell.t) :
  well_formed region ->
  grids_of_region region_id region = Ok cells ->
  (r < ForestRegion.grid_rows region)%nat ->
  (c < ForestRegion.grid_cols region)%nat ->
  nth_error cells (r * ForestRegion.grid_cols region + c) = Some cell ->
  (r = 0%nat ->
   north (GridCell.bounds cell) == north (ForestRegion.bounds region)) /\
  (S r = ForestRegion.grid_rows region ->
   south (GridCell.bounds cell) == south (ForestRegion.bounds region)) /\
  (c = 0%nat ->
   west (GridCell.bounds cell) == west (ForestRegion.bounds region)) /\
  (S c = ForestRegion.grid_cols region ->
   east (GridCell.bounds cell) == east (ForestRegion.bounds region)) /\
  (forall below,
      nth_error cells (S r * ForestRegion.grid_cols region + c) = Some below ->
      north (GridCell.bounds below) == south (GridCell.bounds cell)) /\
  (forall right,
      (S c < ForestRegion.grid_cols region)%nat ->
      nth_error cells (r * ForestRegion.grid_cols region + S c) = Some right ->
      west (GridCell.bounds right) == east (GridCell.bounds cell)).
Proof.
  intros Hwf Hgen Hr Hc Hcell.
  pose proof (grids_of_region_cells _ _ _ Hwf Hgen) as ->.
  pose proof (lat_steps_span region Hwf) as Els.
  pose proof (lng_steps_span region Hwf) as Egs.
  rewrite (nested_loops_nth _ 0 _ _ r c Hr Hc) in Hcell.
  injection Hcell as <-.
  remember (flat_map
              (fun row =>
                 map (make_cell region_id region (lat_step region) (lng_step region) row)
                   (seq 0 (ForestRegion.grid_cols region)))
              (seq 0 (ForestRegion.grid_rows region))) as cells eqn:Ecells.
  cbn [Nat.add make_cell GridCell.bounds north south east west].
  split; [intros ->; change (inject_Z (Z.of_nat 0)) with 0; ring|].
  split; [intros Hlast; rewrite <- Hlast, inject_nat_succ in Els; lra|].
  split; [intros ->; change (inject_Z (Z.of_nat 0)) with 0; ring|].
  split; [intros Hlast; rewrite <- Hlast, inject_nat_succ in Egs; lra|].
  split.
  - intros below Hbelow.
    destruct (Nat.lt_ge_cases (S r) (ForestRegion.grid_rows region)) as [Hlt | Hge].
    + rewrite Ecells, (nested_loops_nth _ 0 _ _ (S r) c Hlt Hc) in Hbelow.
      injection Hbelow as <-. cbn [Nat.add make_cell GridCell.bounds north].
      rewrite inject_nat_succ. ring.
    + exfalso.
      assert (Hsome : nth_error cells (S r * ForestRegion.grid_cols region + c) <> None)
        by (rewrite Hbelow; discriminate).
      apply nth_error_Some in Hsome.
      rewrite Ecells, nested_loops_length in Hsome. nia.
  - intros right Hlt Hright.
    rewrite Ecells, (nested_loops_nth _ 0 _ _ r (S c) Hr Hlt) in Hright.
    injection Hright as <-. cbn [Nat.add make_cell GridCell.bounds west].
    rewrite inject_nat_succ. ring.
Qed.

Lemma neighbouring_cells_share_edges_witness :
  north (GridCell.bounds
           (make_cell "california" california (lat_step california)
              (lng_step california) 0 0))
  == north (ForestRegion.bounds california).
Proof.
  refine (proj1 (neighbouring_cells_share_edges "california" california
                   (flat_map
                      (fun row =>
                         map (make_cell "california" california (lat_step california)
                                (lng_step california) row)
                           (seq 0 4))
                      (seq 0 3))
                   0 0 _ _ _ _ _ _) eq_refl).
  - repeat split; try (simpl; lia); reflexivity.
  - reflexivity.
  - simpl; lia.
  - simpl; lia.
  - reflexivity.
Defined.

(** X11.  Every cell of such a partition belongs to its region, spans one
    latitude step by one longitude step, and has its centre (the point the
    weather is asked for) at the midpoint of its bounds, inside the cell
    and inside the region. *)
Theorem cell_centre_inside (region_id : string) (region : ForestRegion.t)
    (cells : list GridCell.t) (cell : GridCell.t) :
  well_formed region ->
  grids_of_region region_id region = Ok cells ->
  In cell cells ->
  GridCell.region cell = region_id /\
  north (GridCell.bounds cell) - south (GridCell.bounds cell) == lat_step region /\
  east (GridCell.bounds cell) - west (GridCell.bounds cell) == lng_step region /\
  GridCell.center_lat cell
    == (north (GridCell.bounds cell) + south (GridCell.bounds cell)) / 2 /\
  GridCell.center_lng cell
    == (east (GridCell.bounds cell) + west (GridCell.bounds cell)) / 2 /\
  in_box (GridCell.bounds cell) (GridCell.center_lat cell) (GridCell.center_lng cell) /\
  in_box (ForestRegion.bounds region)
    (GridCell.center_lat cell) (GridCell.center_lng cell).
Proof.
  intros Hwf Hgen Hin.
  pose proof (grids_of_region_cells _ _ _ Hwf Hgen) as ->.
  apply nested_loops_In in Hin. destruct Hin as (r & c & Hr & Hc & ->).
  pose proof (lat_step_pos region Hwf) as Hls.
  pose proof (lng_step_pos region Hwf) as Hgs.
  assert (Hown : in_box
                   (GridCell.bounds
                      (make_cell region_id region (lat_step region) (lng_step region) r c))
                   (GridCell.center_lat
                      (make_cell region_id region (lat_step region) (lng_step region) r c))
                   (GridCell.center_lng
                      (make_cell region_id region (lat_step region) (lng_step region) r c))).
  { unfold in_box, make_cell.
    cbn [GridCell.bounds GridCell.center_lat GridCell.center_lng north south east west].
    unfold Qdiv. change (/ 2) with (1 # 2). repeat split; lra. }
  split; [reflexivity|].
  split; [unfold make_cell; cbn [GridCell.bounds north south]; ring|].
  split; [unfold make_cell; cbn [GridCell.bounds east west]; ring|].
  split; [reflexivity|]. split; [reflexivity|].
  split; [exact Hown|].
  exact (cell_inside region_id region Hwf r c _ _ Hr Hc Hown).
Qed.

Lemma cell_centre_inside_witness :
  in_box (ForestRegion.bounds australia)
    (GridCell.center_lat
       (make_cell "australia" australia (lat_step australia) (lng_step australia) 1 2))
    (GridCell.center_lng
       (make_cell "australia" australia (lat_step australia) (lng_step australia) 1 2)).
Proof.
  apply (cell_centre_inside "australia" australia
           (flat_map
              (fun row =>
                 map (make_cell "australia" australia (lat_step australia)
                        (lng_step australia) row)
                   (seq 0 4))
              (seq 0 3))).
  - repeat split; try (simpl; lia); reflexivity.
  - reflexivity.
  - apply nested_loops_In. exists 1%nat, 2%nat. repeat split; lia.
Defined.

Lemma calculate_grid_area_ext (a b : Bounds) :
  north a == north b -> south a == south b ->
  east a - west a == east b - west b ->
  calculate_grid_area a = calculate_grid_area b.
Proof.
  intros Hn Hs Hew. unfold calculate_grid_area.
  assert (E1 : Qabs (north a - south a) == Qabs (north b - south b))
    by (rewrite Hn, Hs; reflexivity).
  assert (E2 : Qabs (east a - west a) == Qabs (east b - west b))
    by (rewrite Hew; reflexivity).
  assert (E3 : (north a + south a) / 2 == (north b + south b) / 2)
    by (rewrite Hn, Hs; reflexivity).
  rewrite (Qeq_eqR _ _ E1), (Qeq_eqR _ _ E2), (Qeq_eqR _ _ E3). reflexivity.
Qed.

(** X12.  Two cells of the same row of a partition have the same stored
    area: the approximation depends on the latitude band only. *)
Theorem same_row_same_area (region_id : string) (region : ForestRegion.t)
    (cells : list GridCell.t) (a b : GridCell.t) :
  well_formed region ->
  grids_of_region region_id region = Ok cells ->
  In a cells -> In b cells ->
  GridCell.row a = GridCell.row b ->
  GridCell.area_km2 a = GridCell.area_km2 b.
Proof.
  intros Hwf Hgen Ha Hb Hrow.
  pose proof (grids_of_region_cells _ _ _ Hwf Hgen) as ->.
  apply nested_loops_In in Ha, Hb.
  destruct Ha as (r & c & _ & _ & ->). destruct Hb as (r' & c' & _ & _ & ->).
  cbn [GridCell.row make_cell] in Hrow. subst r'.
  unfold make_cell. cbn [GridCell.area_km2]. f_equal.
  apply calculate_grid_area_ext; cbn [north south east west]; try reflexivity.
  ring.
Qed.

Lemma same_row_same_area_witness :
  GridCell.area_km2
    (make_cell "amazon" amazon (lat_step amazon) (lng_step amazon) 1 0)
  = GridCell.area_km2
      (make_cell "amazon" amazon (lat_step amazon) (lng_step amazon) 1 3).
Proof.
  apply (same_row_same_area "amazon" amazon
           (flat_map
              (fun row =>
                 map (make_cell "amazon" amazon (lat_step amazon) (lng_step amazon) row)
                   (seq 0 4))
              (seq 0 3))).
  - repeat split; try (simpl; lia); reflexivity.
  - reflexivity.
  - apply nested_loops_In. exists 1%nat, 0%nat. repeat split; lia.
  - apply nested_loops_In. exists 1%nat, 3%nat. repeat split; lia.
  - reflexivity.
Defined.

(** ** Cell identifiers *)

Lemma pretty_N_char_not_separator x : Ascii.eqb (pretty_N_char x) "_"%char = false.
Proof. unfold pretty_N_char. repeat case_match; reflexivity. Qed.

Lemma pretty_N_go_no_separator x s :
  has_char "_"%char s = false -> has_char "_"%char (pretty_N_go x s) = false.
Proof.
  revert s. induction (N.lt_wf_0 x) as [x _ IH]; intros s Hs.
  destruct (N.eq_dec x 0%N) as [-> | Hx]; [rewrite pretty_N_go_0; exact Hs|].
  rewrite pretty_N_go_step by lia. apply IH.
  - apply N.div_lt; lia.
  - cbn [has_char]. rewrite pretty_N_char_not_separator, Hs. reflexivity.
Qed.

Lemma pretty_nat_no_separator (n : nat) : has_char "_"%char (pretty n) = false.
Proof.
  unfold pretty, pretty_nat, pretty, pretty_N.
  case_decide; [reflexivity | apply pretty_N_go_no_separator; reflexivity].
Qed.

Lemma separator_inj (a a' b b' : string) :
  has_char "_"%char a = false -> has_char "_"%char a' = false ->
  a +:+ "_" +:+ b = a' +:+ "_" +:+ b' -> a = a' /\ b = b'.
Proof.
  revert a'. induction a as [|x a IH]; intros [|y a'] Ha Ha' E;
    cbn [String.append has_char] in *.
  - injection E as E. split; [reflexivity | exact E].
  - injection E as Ey _. subst y. rewrite Ascii.eqb_refl in Ha'. discriminate.
  - injection E as Ex _. subst x. rewrite Ascii.eqb_refl in Ha. discriminate.
  - injection E as -> E.
    apply orb_false_iff in Ha, Ha'.
    destruct (IH a' (proj2 Ha) (proj2 Ha') E) as [-> ->]. split; reflexivity.
Qed.

Lemma append_inv_head (p s t : string) : p +:+ s = p +:+ t -> s = t.
Proof.
  induction p as [|x p IH]; cbn [String.append]; intros E; [exact E|].
  injection E as E. exact (IH E).
Qed.

Lemma make_cell_id_inj region_id region ls gs r c r' c' :
  GridCell.id (make_cell region_id region ls gs r c)
  = GridCell.id (make_cell region_id region ls gs r' c') ->
  r = r' /\ c = c'.
Proof.
  cbn [make_cell GridCell.id]. intros E.
  apply append_inv_head in E. apply (append_inv_head "_grid_") in E.
  apply separator_inj in E; try apply pretty_nat_no_separator.
  destruct E as [Er Ec]. apply (inj pretty) in Er, Ec. split; assumption.
Qed.

Lemma nested_loops_NoDup {A B : Type} (key : A -> B) (f : nat -> nat -> A) (n m : nat) :
  (forall r c r' c', key (f r c) = key (f r' c') -> r = r' /\ c = c') ->
  List.NoDup (map key (flat_map (fun r => map (f r) (seq 0 m)) (seq 0 n))).
Proof.
  intros Hinj. apply List.NoDup_nth_error. intros i j Hi E.
  rewrite length_map in Hi.
  destruct (nth_error (flat_map (fun r => map (f r) (seq 0 m)) (seq 0 n)) i)
    as [x|] eqn:Ex; [|apply nth_error_None in Ex; lia].
  rewrite !nth_error_map, Ex in E. cbn [option_map] in E.
  destruct (nth_error (flat_map (fun r => map (f r) (seq 0 m)) (seq 0 n)) j)
    as [y|] eqn:Ey; [|discriminate].
  cbn [option_map] in E. injection E as E.
  apply nested_loops_index in Ex, Ey.
  destruct Ex as (r & c & _ & _ & -> & ->). destruct Ey as (r' & c' & _ & _ & -> & ->).
  destruct (Hinj _ _ _ _ E) as [-> ->]. reflexivity.
Qed.

Lemma find_by_key {A : Type} (key : A -> string) (l : list A) (x : A) :
  List.NoDup (map key l) -> In x l ->
  List.find (fun g => String.eqb (key g) (key x)) l = Some x.
Proof.
  induction l as [|a l IH]; intros Hnd Hin; [destruct Hin|].
  cbn [map] in Hnd. apply List.NoDup_cons_iff in Hnd. destruct Hnd as [Hnot Hnd].
  cbn [List.find]. destruct Hin as [-> | Hin].
  - rewrite String.eqb_refl. reflexivity.
  - destruct (String.eqb_spec (key a) (key x)) as [E | _]; [|exact (IH Hnd Hin)].
    exfalso. apply Hnot. rewrite E. apply in_map, Hin.
Qed.

Lemma find_by_key_None {A : Type} (key : A -> string) (l : list A) (k : string) :
  (forall x, In x l -> key x <> k) ->
  List.find (fun g => String.eqb (key g) k) l = None.
Proof.
  intros Hno. destruct (List.find _ l) as [x|] eqn:E; [|reflexivity].
  apply find_some in E. destruct E as [Hin E].
  apply String.eqb_eq in E. destruct (Hno x Hin E).
Qed.

Lemma grids_of_region_inv region_id region cells :
  grids_of_region region_id region = Ok cells ->
  (0 < ForestRegion.grid_rows region)%nat /\
  (0 < ForestRegion.grid_cols region)%nat /\
  cells =
    flat_map
      (fun row =>
         map (make_cell region_id region (lat_step region) (lng_step region) row)
           (seq 0 (ForestRegion.grid_cols region)))
      (seq 0 (ForestRegion.grid_rows region)).
Proof.
  unfold grids_of_region.
  destruct (Nat.eqb_spec (ForestRegion.grid_rows region) 0); [discriminate|].
  destruct (Nat.eqb_spec (ForestRegion.grid_cols region) 0); [discriminate|].
  intros [= <-]. repeat split; lia.
Qed.

Lemma grids_of_region_ids region_id region cells :
  grids_of_region region_id region = Ok cells ->
  List.NoDup (map GridCell.id cells).
Proof.
  intros H. apply grids_of_region_inv in H. destruct H as (_ & _ & ->).
  apply nested_loops_NoDup. intros r c r' c'. apply make_cell_id_inj.
Qed.

(** X13.  The identifiers of a region's cells are pairwise distinct, each
    is the region id, the row and the column joined as
    [<region>_grid_<row>_<col>], and the linear search by identifier that
    the cell endpoint performs returns exactly the cell carrying it (none
    for an identifier no cell carries). *)
Theorem cell_ids_identify_cells (region_id : string) (region : ForestRegion.t)
    (cells : list GridCell.t) :
  grids_of_region region_id region = Ok cells ->
  List.NoDup (map GridCell.id cells) /\
  (forall cell,
      In cell cells ->
      GridCell.id cell
      = region_id +:+ "_grid_" +:+ pretty (GridCell.row cell) +:+ "_"
        +:+ pretty (GridCell.col cell) /\
      List.find (fun g => String.eqb (GridCell.id g) (GridCell.id cell)) cells
      = Some cell) /\
  (forall a b,
      In a cells -> In b cells ->
      GridCell.row a = GridCell.row b -> GridCell.col a = GridCell.col b -> a = b) /\
  (forall grid_id,
      ~ In grid_id (map GridCell.id cells) ->
      List.find (fun g => String.eqb (GridCell.id g) grid_id) cells = None).
Proof.
  intros H. pose proof (grids_of_region_ids _ _ _ H) as Hnd.
  split; [exact Hnd|]. split; [|split].
  - intros cell Hin. split; [|exact (find_by_key GridCell.id cells cell Hnd Hin)].
    apply grids_of_region_inv in H. destruct H as (_ & _ & ->).
    apply nested_loops_In in Hin. destruct Hin as (r & c & _ & _ & ->). reflexivity.
  - intros a b Ha Hb Hrow Hcol.
    apply grids_of_region_inv in H. destruct H as (_ & _ & ->).
    apply nested_loops_In in Ha, Hb.
    destruct Ha as (r & c & _ & _ & ->). destruct Hb as (r' & c' & _ & _ & ->).
    cbn [make_cell GridCell.row GridCell.col] in Hrow, Hcol. subst. reflexivity.
  - intros grid_id Hno. apply find_by_key_None.
    intros x Hin E. apply Hno. rewrite <- E. apply in_map, Hin.
Qed.

Lemma cell_ids_identify_cells_witness :
  List.NoDup
    (map GridCell.id
       (flat_map
          (fun row =>
             map (make_cell "mediterranean" mediterranean (lat_step mediterranean)
                    (lng_step mediterranean) row)
               (seq 0 4))
          (seq 0 3))).
Proof.
  exact (proj1 (cell_ids_identify_cells "mediterranean" mediterranean _ eq_refl)).
Defined.

(** ** The summary block *)

Lemma count_categories (l : list Category) :
  (count Category_eqb High l + count Category_eqb Medium l
   + count Category_eqb Low l = length l)%nat.
Proof.
  unfold count. induction l as [|c l IH]; [reflexivity|].
  destruct c; cbn [List.filter Category_eqb length]; lia.
Qed.

Lemma count_two_strings (a b : string) (l : list string) :
  a <> b ->
  (count String.eqb a l + count String.eqb b l <= length l)%nat.
Proof.
  intros Hab. unfold count. induction l as [|x l IH]; [reflexivity|].
  cbn [List.filter length].
  destruct (String.eqb_spec x a) as [Ea | _];
    destruct (String.eqb_spec x b) as [Eb | _]; cbn [length]; try lia.
  congruence.
Qed.

Lemma max_list_spec (first : Q) (rest : list Q) :
  In (max_list first rest) (first :: rest) /\
  forall x, In x (first :: rest) -> x <= max_list first rest.
Proof.
  unfold max_list. revert first. induction rest as [|y rest IH]; intros first.
  - cbn. split; [left; reflexivity | intros x [<- | []]; lra].
  - cbn [fold_left]. destruct (IH (py_max first y)) as [Hin Hle].
    assert (Hf : first <= py_max first y /\ y <= py_max first y)
      by (destruct (py_max_spec first y) as [[H ->] | [H ->]]; lra).
    split.
    + destruct Hin as [E | Hin]; [|right; right; exact Hin].
      rewrite <- E.
      destruct (py_max_spec first y) as [[_ ->] | [_ ->]];
        [right; left | left]; reflexivity.
    + intros x [<- | [<- | Hx]].
      * eapply Qle_trans; [apply Hf | apply Hle; left; reflexivity].
      * eapply Qle_trans; [apply Hf | apply Hle; left; reflexivity].
      * apply Hle. right. exact Hx.
Qed.

Lemma min_list_spec (first : Q) (rest : list Q) :
  In (min_list first rest) (first :: rest) /\
  forall x, In x (first :: rest) -> min_list first rest <= x.
Proof.
  unfold min_list. revert first. induction rest as [|y rest IH]; intros first.
  - cbn. split; [left; reflexivity | intros x [<- | []]; lra].
  - cbn [fold_left]. destruct (IH (py_min first y)) as [Hin Hle].
    assert (Hf : py_min first y <= first /\ py_min first y <= y)
      by (destruct (py_min_spec first y) as [[H ->] | [H ->]]; lra).
    split.
    + destruct Hin as [E | Hin]; [|right; right; exact Hin].
      rewrite <- E.
      destruct (py_min_spec first y) as [[_ ->] | [_ ->]];
        [right; left | left]; reflexivity.
    + intros x [<- | [<- | Hx]].
      * eapply Qle_trans; [apply Hle; left; reflexivity | apply Hf].
      * eapply Qle_trans; [apply Hle; left; reflexivity | apply Hf].
      * apply Hle. right. exact Hx.
Qed.

Lemma fold_left_Qplus_bounds (lo hi : Q) (l : list Q) (acc : Q) :
  (forall x, In x l -> lo <= x /\ x <= hi) ->
  acc + lo * inject_Z (Z.of_nat (length l)) <= fold_left Qplus l acc /\
  fold_left Qplus l acc <= acc + hi * inject_Z (Z.of_nat (length l)).
Proof.
  revert acc. induction l as [|x l IH]; intros acc Hb.
  - cbn [fold_left length]. change (inject_Z (Z.of_nat 0)) with 0. lra.
  - cbn [fold_left length]. rewrite inject_nat_succ.
    destruct (Hb x (or_introl eq_refl)) as [Hlo Hhi].
    destruct (IH (acc + x) (fun y Hy => Hb y (or_intror Hy))) as [H1 H2].
    lra.
Qed.

Lemma average_between (lo hi : Q) (l : list Q) :
  l <> [] ->
  (forall x, In x l -> lo <= x /\ x <= hi) ->
  lo <= sum l / inject_Z (Z.of_nat (length l)) /\
  sum l / inject_Z (Z.of_nat (length l)) <= hi.
Proof.
  intros Hne Hb. unfold sum.
  destruct (fold_left_Qplus_bounds lo hi l 0 Hb) as [H1 H2].
  assert (Hn : 0 < inject_Z (Z.of_nat (length l))).
  { destruct l as [|x l]; [congruence|]. cbn [length]. apply inject_nat_pos. lia. }
  split.
  - apply Qle_shift_div_l; [exact Hn | lra].
  - apply Qle_shift_div_r; [exact Hn | lra].
Qed.

(** X19.  The summary of a region run fails only on an empty list of
    results, with a division by zero; otherwise the three category counts
    add up to the number of cells, the two provenance counts do not exceed
    it, the average lies between the minimum and the maximum, every cell's
    score rounded to one decimal lies between them too, and both extremes
    are attained by a cell. *)
Theorem summary_statistics_consistent (predictions : list GridPrediction) :
  match summarize predictions with
  | Raise e => predictions = [] /\ e = ZeroDivisionError
  | Ok s =>
      predictions <> [] /\
      total_grids s = length predictions /\
      (high_risk_count s + medium_risk_count s + low_risk_count s
       = total_grids s)%nat /\
      (data_source_real s + data_source_simulated s <= total_grids s)%nat /\
      min_risk s <= average_risk s /\ average_risk s <= max_risk s /\
      (forall p, In p predictions ->
                 min_risk s <= py_round (gp_risk_score p) 1 /\
                 py_round (gp_risk_score p) 1 <= max_risk s) /\
      (exists p, In p predictions /\ max_risk s = py_round (gp_risk_score p) 1) /\
      (exists p, In p predictions /\ min_risk s = py_round (gp_risk_score p) 1)
  end.
Proof.
  unfold summarize.
  destruct predictions as [|p0 ps]; [split; reflexivity|].
  set (predictions := p0 :: ps).
  change (map gp_risk_score predictions)
    with (gp_risk_score p0 :: map gp_risk_score ps).
  cbn [total_grids high_risk_count medium_risk_count low_risk_count
       data_source_real data_source_simulated min_risk max_risk average_risk].
  destruct (max_list_spec (gp_risk_score p0) (map gp_risk_score ps)) as [Hmax_in Hmax].
  destruct (min_list_spec (gp_risk_score p0) (map gp_risk_score ps)) as [Hmin_in Hmin].
  change (gp_risk_score p0 :: map gp_risk_score ps)
    with (map gp_risk_score predictions) in *.
  assert (Hscore : forall p, In p predictions ->
             min_list (gp_risk_score p0) (map gp_risk_score ps) <= gp_risk_score p /\
             gp_risk_score p <= max_list (gp_risk_score p0) (map gp_risk_score ps)).
  { intros p Hp. split; [apply Hmin | apply Hmax]; apply in_map, Hp. }
  split; [discriminate|]. split; [reflexivity|].
  split.
  { rewrite count_categories, length_map. reflexivity. }
  split.
  { etransitivity; [apply count_two_strings; discriminate|].
    rewrite length_map. reflexivity. }
  assert (Havg : min_list (gp_risk_score p0) (map gp_risk_score ps)
                 <= sum (map gp_risk_score predictions)
                    / inject_Z (Z.of_nat (length (map gp_risk_score predictions))) /\
                 sum (map gp_risk_score predictions)
                 / inject_Z (Z.of_nat (length (map gp_risk_score predictions)))
                 <= max_list (gp_risk_score p0) (map gp_risk_score ps)).
  { apply average_between; [discriminate|].
    intros x Hx. split; [apply Hmin | apply Hmax]; exact Hx. }
  split; [apply py_round_mono, Havg|]. split; [apply py_round_mono, Havg|].
  split.
  { intros p Hp. split; apply py_round_mono, Hscore, Hp. }
  split.
  - apply in_map_iff in Hmax_in. destruct Hmax_in as (p & E & Hp).
    exists p. split; [exact Hp | rewrite E; reflexivity].
  - apply in_map_iff in Hmin_in. destruct Hmin_in as (p & E & Hp).
    exists p. split; [exact Hp | rewrite E; reflexivity].
Qed.

(** ** The endpoints and the world *)

Section Effects.
Context `{RT : Runtime}.

Lemma runs_requests_refl w : runs_requests [] w w.
Proof.
  repeat split. exists []. rewrite app_nil_r.
  repeat split; destruct (offline w); reflexivity.
Qed.

Lemma runs_requests_offline w w1 :
  runs_requests [] w w1 -> offline w1 = offline w.
Proof. intros (Hk & _). unfold offline. rewrite Hk. reflexivity. Qed.

Lemma runs_requests_trans r1 r2 w w1 w2 :
  runs_requests r1 w w1 -> runs_requests r2 w1 w2 ->
  runs_requests (r1 ++ r2)%list w w2.
Proof.
  intros (Hk1 & Hd1 & Hm1 & c1 & Ht1 & Hf1 & Hs1)
         (Hk2 & Hd2 & Hm2 & c2 & Ht2 & Hf2 & Hs2).
  assert (Hoff : offline w1 = offline w) by (unfold offline; rewrite Hk1; reflexivity).
  rewrite Hoff in Hf2, Hs2.
  split; [congruence|]. split; [congruence|]. split; [congruence|].
  exists (c1 ++ c2)%list. split; [|split].
  - rewrite Ht2, Ht1, app_assoc. reflexivity.
  - rewrite List.filter_app, Hf1, Hf2. destruct (offline w); reflexivity.
  - rewrite Hs2, Hs1. destruct (offline w); [reflexivity|].
    rewrite length_app, skipn_skipn, Nat.add_comm. reflexivity.
Qed.

Lemma runs_requests_log requests w w1 c :
  runs_requests requests w w1 -> is_http_get c = false ->
  runs_requests requests w
    (mkWorld (OPENWEATHER_API_KEY w1) (service w1) (rng w1) (model_dir w1)
       (_model_instance w1) (trace w1 ++ [c])%list).
Proof.
  intros (Hk & Hd & Hm & calls & Ht & Hf & Hs) Hc.
  split; [exact Hk|]. split; [exact Hd|]. split; [exact Hm|].
  exists (calls ++ [c])%list. cbn [trace service]. split; [|split].
  - rewrite Ht, app_assoc. reflexivity.
  - rewrite List.filter_app. cbn [List.filter]. rewrite Hc, app_nil_r. exact Hf.
  - exact Hs.
Qed.

Lemma fetch_weather_from_api_effects lat lng w :
  exists r w',
    fetch_weather_from_api lat lng w = (Ok r, w') /\
    runs_requests [CallHttpGet lat lng] w w' /\
    (offline w = true -> r = None).
Proof.
  unfold fetch_weather_from_api.
  destruct (String.eqb (OPENWEATHER_API_KEY w) "") eqn:Hkey.
  { exists None, w. split; [reflexivity|]. split; [|reflexivity].
    repeat split. exists []. rewrite app_nil_r. unfold offline. rewrite Hkey.
    repeat split. }
  unfold bind, http_get.
  assert (Hrun : runs_requests [CallHttpGet lat lng] w
                   (mkWorld (OPENWEATHER_API_KEY w) (tl (service w)) (rng w) (model_dir w)
                      (_model_instance w) (trace w ++ [CallHttpGet lat lng])%list)).
  { repeat split. exists [CallHttpGet lat lng]. unfold offline. rewrite Hkey.
    repeat split. }
  assert (Hoff : forall r : option LiveWeather, offline w = true -> r = None)
    by (unfold offline; rewrite Hkey; discriminate).
  destruct (hd HttpFailure (service w)) as [|status [data|]].
  - eexists None, _. split; [reflexivity|]. split; [exact Hrun | apply Hoff].
  - destruct (Z.eq_dec status 200%Z) as [-> | Hne].
    + eexists (Some _), _. split; [reflexivity|]. split; [exact Hrun | apply Hoff].
    + eexists None, _. split; [|split; [exact Hrun | apply Hoff]].
      destruct status as [|p|p]; try reflexivity.
      do 8 (destruct p as [p|p|]; try reflexivity). congruence.
  - eexists None, _. split; [|split; [exact Hrun | apply Hoff]].
    destruct status as [|p|p]; try reflexivity.
    do 8 (destruct p as [p|p|]; try reflexivity).
Qed.

(** The provider: one request at most, an observation of one of the two
    sources, or the [TypeError] of a live reading that is not a number. *)
Lemma get_weather_for_grid_effects lat_ lng_ grid_id_ w :
  exists r w',
    get_weather_for_grid lat_ lng_ grid_id_ w = (r, w') /\
    runs_requests [CallHttpGet lat_ lng_] w w' /\
    (forall obs,
        r = Ok obs ->
        lat obs = Some lat_ /\ lng obs = Some lng_ /\ grid_id obs = Some grid_id_ /\
        observed obs /\
        (is_Some (ffmc obs) /\ is_Some (dmc obs) /\ is_Some (dc obs) /\
         is_Some (isi obs) /\ is_Some (bui obs) /\ is_Some (fwi obs)) /\
        (source obs = Some "openweather_api" \/ source obs = Some "simulated") /\
        (source obs = Some "simulated" <->
         fst (fetch_weather_from_api lat_ lng_ w) = Ok None) /\
        (forall live,
            fst (fetch_weather_from_api lat_ lng_ w) = Ok (Some live) ->
            ~ ill_typed live)) /\
    (forall e,
        r = Raise e ->
        e = TypeError /\ OPENWEATHER_API_KEY w <> "" /\
        exists live,
          fst (fetch_weather_from_api lat_ lng_ w) = Ok (Some live) /\ ill_typed live) /\
    (forall live,
        fst (fetch_weather_from_api lat_ lng_ w) = Ok (Some live) ->
        ~ ill_typed live -> exists obs, r = Ok obs) /\
    (fst (fetch_weather_from_api lat_ lng_ w) = Ok None ->
     exists obs,
       r = Ok obs /\ source obs = Some "simulated" /\
       forall s, fst (get_weather_sync lat_ lng_ grid_id_ s) = Ok obs).
Proof.
  destruct (fetch_weather_from_api_effects lat_ lng_ w) as (r & w1 & Hf & Hrun & Hoff).
  unfold get_weather_for_grid, bind. rewrite Hf. cbn [fst].
  destruct r as [live|].
  - assert (Hkey : OPENWEATHER_API_KEY w <> "").
    { intros E. assert (Ho : offline w = true) by (unfold offline; rewrite E; reflexivity).
      discriminate (Hoff Ho). }
    unfold log, lift.
    destruct (live_observation live) as [weather|e] eqn:Hlive.
    + destruct (live_observation_Ok _ _ Hlive) as (Hwell & Hobs & Hsrc & _).
      destruct (generate_fire_weather_indices_total weather Hobs) as [ix Hix].
      rewrite Hix. unfold ret.
      eexists _, _. split; [reflexivity|].
      split; [apply runs_requests_log; [exact Hrun | reflexivity]|].
      split; [|split; [|split]].
      * intros obs [= <-]. cbn [lat lng grid_id merge_weather source ffmc dmc dc isi bui fwi].
        split; [reflexivity|]. split; [reflexivity|]. split; [reflexivity|].
        split; [exact Hobs|].
        split; [repeat split; eexists; reflexivity|].
        split; [left; exact Hsrc|].
        split; [rewrite Hsrc; split; intros H; discriminate H|].
        intros live' [= <-]. exact Hwell.
      * intros e H. discriminate H.
      * intros live' _ _. eexists. reflexivity.
      * intros H. discriminate H.
    + destruct (live_observation_Raise _ _ Hlive) as [-> Hill].
      eexists _, _. split; [reflexivity|].
      split; [apply runs_requests_log; [exact Hrun | reflexivity]|].
      split; [|split; [|split]].
      * intros obs H. discriminate H.
      * intros e [= <-]. split; [reflexivity|]. split; [exact Hkey|].
        exists live. split; [reflexivity | exact Hill].
      * intros live' [= <-] Hwell. destruct (Hwell Hill).
      * intros H. discriminate H.
  - unfold simulate.
    destruct (get_weather_sync_Ok lat_ lng_ grid_id_ (rng w1)) as (ix & Hix & Hsync).
    destruct (generate_simulated_weather_fields lat_ lng_ grid_id_ (rng w1))
      as (t & h & ws & rn & _ & Hobs).
    destruct (generate_simulated_weather lat_ lng_ grid_id_ (rng w1)) as [obs s1] eqn:Hgen.
    cbn [fst] in Hobs, Hix, Hsync. unfold log, lift. rewrite Hix.
    eexists _, _. split; [reflexivity|]. split; [|split; [|split; [|split]]].
    + cbn [OPENWEATHER_API_KEY service rng model_dir _model_instance trace].
      apply (runs_requests_log _ w
               (mkWorld (OPENWEATHER_API_KEY w1) (service w1) s1 (model_dir w1)
                  (_model_instance w1) (trace w1 ++ [CallSimulate grid_id_])%list));
        [|reflexivity].
      pose proof (runs_requests_log _ w w1 (CallSimulate grid_id_) Hrun eq_refl) as H.
      destruct H as (Hk & Hd & Hm & calls & Ht & Hfl & Hs).
      split; [exact Hk|]. split; [exact Hd|]. split; [exact Hm|].
      exists calls. split; [exact Ht|]. split; [exact Hfl | exact Hs].
    + intros obs' [= <-].
      cbn [lat lng grid_id merge_weather source ffmc dmc dc isi bui fwi].
      split; [reflexivity|]. split; [reflexivity|]. split; [reflexivity|].
      split; [rewrite Hobs; repeat split; eexists; reflexivity|].
      split; [repeat split; eexists; reflexivity|].
      rewrite Hobs. cbn [source].
      split; [right; reflexivity|]. split; [split; reflexivity|].
      intros live H. discriminate H.
    + intros e H. discriminate H.
    + intros live H. discriminate H.
    + intros _. eexists. split; [reflexivity|].
      split; [cbn [source merge_weather]; rewrite Hobs; reflexivity|].
      intros s. exact Hsync.
Qed.

Lemma offline_fetch lat_ lng_ w :
  offline w = true -> fst (fetch_weather_from_api lat_ lng_ w) = Ok None.
Proof.
  intros Ho. unfold fetch_weather_from_api. unfold offline in Ho. rewrite Ho. reflexivity.
Qed.

Lemma predict_Raise self weather e :
  predict self weather = Raise e ->
  is_loaded self = true /\ (e = IndexError \/ e = AttributeError).
Proof.
  unfold predict.
  destruct (is_loaded self); [destruct (model self) as [m|]|]; try discriminate.
  destruct (scaler self) as [sc|]; [|intros [= <-]; split; [reflexivity | right; reflexivity]].
  destruct (if Nat.ltb 1 _ then _ else _) as [fp|]; [discriminate|].
  intros [= <-]. split; [reflexivity | left; reflexivity].
Qed.

Lemma predict_for_grid_effects model grid w :
  exists r w',
    predict_for_grid model grid w = (r, w') /\
    runs_requests [request_of grid] w w' /\
    (forall gp, r = Ok gp -> answers model (offline w) grid gp) /\
    (forall e, r = Raise e -> pipeline_failure model w e).
Proof.
  destruct (get_weather_for_grid_effects (GridCell.center_lat grid)
              (GridCell.center_lng grid) (GridCell.id grid) w)
    as (r0 & w1 & Hg & Hrun & Hok & Hraise & _ & Hsim).
  unfold predict_for_grid, bind. rewrite Hg.
  destruct r0 as [obs|e0].
  - unfold log, lift.
    destruct (Hok obs eq_refl) as (_ & _ & _ & _ & _ & Hsrc & Hsimiff & _).
    destruct (predict model obs) as [p|e] eqn:Hp.
    + eexists _, _. split; [reflexivity|].
      split; [apply runs_requests_log; [exact Hrun | reflexivity]|]. split.
      * intros gp [= <-]. exists p. cbn [cell_entry gp_weather].
        split; [exact Hp|]. split; [reflexivity|]. split; [exact Hsrc|].
        intros Ho. destruct (Hsim (offline_fetch _ _ _ Ho)) as (obs' & [= <-] & Hs & Hsync).
        split; [exact Hs | exact Hsync].
      * intros e H. discriminate H.
    + eexists _, _. split; [reflexivity|].
      split; [apply runs_requests_log; [exact Hrun | reflexivity]|]. split.
      * intros gp H. discriminate H.
      * intros e' [= <-]. left. exact (predict_Raise _ _ _ Hp).
  - exists (Raise e0), w1. split; [reflexivity|]. split; [exact Hrun|]. split.
    + intros gp H. discriminate H.
    + intros e [= <-]. destruct (Hraise e0 eq_refl) as (-> & Hkey & _).
      right. split; [reflexivity | exact Hkey].
Qed.

Lemma pipeline_failure_key model w w1 e :
  OPENWEATHER_API_KEY w1 = OPENWEATHER_API_KEY w ->
  pipeline_failure model w1 e -> pipeline_failure model w e.
Proof. unfold pipeline_failure. intros ->. exact (fun H => H). Qed.

Lemma mapM_predict_for_grid_effects model grids w :
  exists r w' k,
    mapM (predict_for_grid model) grids w = (r, w') /\
    (k <= length grids)%nat /\
    runs_requests (map request_of (firstn k grids)) w w' /\
    (forall gps, r = Ok gps ->
                 k = length grids /\ Forall2 (answers model (offline w)) grids gps) /\
    (forall e, r = Raise e -> pipeline_failure model w e).
Proof.
  revert w. induction grids as [|grid grids IH]; intros w.
  - exists (Ok []), w, 0%nat. split; [reflexivity|]. split; [reflexivity|].
    split; [apply runs_requests_refl|]. split.
    + intros gps [= <-]. split; [reflexivity | constructor].
    + intros e H. discriminate H.
  - destruct (predict_for_grid_effects model grid w)
      as (r1 & w1 & Hp & Hrun & Hans & Hfail).
    cbn [mapM]. unfold bind at 1. rewrite Hp.
    destruct r1 as [gp|e].
    + destruct (IH w1) as (r & w2 & k & Hm & Hk & Hrun2 & Hok & Hraise).
      assert (Ekey : OPENWEATHER_API_KEY w1 = OPENWEATHER_API_KEY w)
        by (destruct Hrun as (Hkey & _); exact Hkey).
      assert (Eoff : offline w1 = offline w) by (unfold offline; rewrite Ekey; reflexivity).
      unfold bind at 1. rewrite Hm.
      exists (match r with Ok bs => Ok (gp :: bs) | Raise e => Raise e end), w2, (S k).
      split; [destruct r; reflexivity|]. split; [cbn [length]; lia|].
      split; [exact (runs_requests_trans _ _ _ _ _ Hrun Hrun2)|]. split.
      * intros gps Hgps. destruct r as [bs|e]; [|discriminate].
        injection Hgps as <-. destruct (Hok bs eq_refl) as [-> Hall].
        split; [reflexivity|]. constructor; [|rewrite <- Eoff; exact Hall].
        exact (Hans gp eq_refl).
      * intros e He. destruct r as [bs|e']; [discriminate|].
        injection He as <-.
        exact (pipeline_failure_key _ _ _ _ Ekey (Hraise e' eq_refl)).
    + exists (Raise e), w1, 1%nat.
      split; [reflexivity|]. split; [cbn [length]; lia|].
      split; [exact Hrun|]. split; [intros gps H; discriminate H|].
      intros e' [= <-]. exact (Hfail e eq_refl).
Qed.

Lemma get_model_effects w :
  exists m w0,
    get_model w = (Ok m, w0) /\
    m = match _model_instance w with
        | Some m => m
        | None => _load_model (model_dir w)
        end /\
    OPENWEATHER_API_KEY w0 = OPENWEATHER_API_KEY w /\
    service w0 = service w /\ rng w0 = rng w /\ model_dir w0 = model_dir w /\
    _model_instance w0 = Some m /\
    trace w0 = (trace w ++ match _model_instance w with
                           | Some _ => []
                           | None => [CallLoadModel]
                           end)%list.
Proof.
  unfold get_model. destruct (_model_instance w) as [m|] eqn:Hm.
  - exists m, w. rewrite app_nil_r. repeat split. exact Hm.
  - eexists _, _. repeat split.
Qed.

Lemma summarize_sources gps s :
  summarize gps = Ok s ->
  total_grids s = length gps /\
  data_source_real s
  = length (List.filter
              (fun p => String.eqb (get_default (source (gp_weather p)) "unknown")
                          "openweather_api") gps) /\
  data_source_simulated s
  = length (List.filter
              (fun p => String.eqb (get_default (source (gp_weather p)) "unknown")
                          "simulated") gps).
Proof.
  unfold summarize. destruct (map gp_risk_score gps); [discriminate|].
  intros [= <-]. cbn [total_grids data_source_real data_source_simulated].
  rewrite !count_map. repeat split.
Qed.

Lemma sources_simulated gps :
  Forall (fun gp => source (gp_weather gp) = Some "simulated") gps ->
  length (List.filter
            (fun p => String.eqb (get_default (source (gp_weather p)) "unknown")
                        "openweather_api") gps) = 0%nat /\
  length (List.filter
            (fun p => String.eqb (get_default (source (gp_weather p)) "unknown")
                        "simulated") gps) = length gps.
Proof.
  induction 1 as [|gp gps Hgp _ [IH1 IH2]]; [split; reflexivity|].
  cbn [List.filter]. rewrite Hgp. cbn [get_default String.eqb Ascii.eqb Bool.eqb].
  cbn [length]. rewrite IH1, IH2. split; reflexivity.
Qed.

Lemma sources_partition gps :
  Forall (fun gp => source (gp_weather gp) = Some "openweather_api" \/
                    source (gp_weather gp) = Some "simulated") gps ->
  (length (List.filter
             (fun p => String.eqb (get_default (source (gp_weather p)) "unknown")
                         "openweather_api") gps)
   + length (List.filter
               (fun p => String.eqb (get_default (source (gp_weather p)) "unknown")
                           "simulated") gps)
   = length gps)%nat.
Proof.
  induction 1 as [|gp gps Hgp _ IH]; [reflexivity|].
  cbn [List.filter].
  destruct Hgp as [Hgp | Hgp]; rewrite Hgp;
    cbn [get_default String.eqb Ascii.eqb Bool.eqb length]; lia.
Qed.

Lemma answers_sources model off grids gps :
  Forall2 (answers model off) grids gps ->
  Forall (fun gp => source (gp_weather gp) = Some "openweather_api" \/
                    source (gp_weather gp) = Some "simulated") gps /\
  (off = true ->
   Forall (fun gp => source (gp_weather gp) = Some "simulated") gps).
Proof.
  induction 1 as [|g gp grids gps (p & _ & _ & Hsrc & Hoff) _ [IH1 IH2]].
  - split; [constructor | intros _; constructor].
  - split; [constructor; assumption|].
    intros Ho. constructor; [apply (Hoff Ho) | apply IH2, Ho].
Qed.

Lemma Forall2_length_eq {A B : Type} (P : A -> B -> Prop) l k :
  Forall2 P l k -> length l = length k.
Proof. induction 1; cbn [length]; congruence. Qed.

(** The two halves of a region run: the registry, the grid and the model
    first, the cells and the summary after. *)
Lemma predict_fire_risk_effects region_id region w :
  FOREST_REGIONS !! region_id = Some region ->
  exists grids m w0 r w' k,
    generate_grids_for_region region_id = Ok grids /\
    length grids
    = (ForestRegion.grid_rows region * ForestRegion.grid_cols region)%nat /\
    get_model w = (Ok m, w0) /\
    mapM (predict_for_grid m) grids w0 = (r, w') /\
    (k <= length grids)%nat /\
    runs_requests (map request_of (firstn k grids)) w0 w' /\
    (forall gps,
        r = Ok gps ->
        k = length grids /\ Forall2 (answers m (offline w)) grids gps /\
        exists s,
          summarize gps = Ok s /\
          predict_fire_risk region_id w
          = (Ok (mkRegionPredictionResponse true region_id
                   (ForestRegion.name region) gps s), w')) /\
    (forall e,
        r = Raise e ->
        predict_fire_risk region_id w = (Raise e, w') /\ pipeline_failure m w e).
Proof.
  intros Hreg.
  pose proof (registered_well_formed _ _ Hreg) as (Hrows & Hcols & _).
  destruct (get_model_effects w) as (m & w0 & Hget & _ & Hkey & _).
  unfold predict_fire_risk. rewrite Hreg.
  unfold generate_grids_for_region. rewrite Hreg.
  rewrite (grids_of_region_Ok region_id region Hrows Hcols).
  set (grids := flat_map _ _).
  assert (Hlen : length grids
                 = (ForestRegion.grid_rows region * ForestRegion.grid_cols region)%nat)
    by apply nested_loops_length.
  destruct (mapM_predict_for_grid_effects m grids w0)
    as (r & w' & k & Hm & Hk & Hrun & Hok & Hraise).
  assert (Eoff : offline w0 = offline w) by (unfold offline; rewrite Hkey; reflexivity).
  exists grids, m, w0, r, w', k.
  split; [reflexivity|]. split; [exact Hlen|]. split; [exact Hget|].
  split; [exact Hm|]. split; [exact Hk|]. split; [exact Hrun|].
  split.
  - intros gps ->. destruct (Hok gps eq_refl) as [Ek Hall].
    split; [exact Ek|]. split; [rewrite <- Eoff; exact Hall|].
    assert (Hne : gps <> []).
    { intros ->. apply Forall2_length_eq in Hall. cbn [length] in Hall. nia. }
    destruct (summarize_total gps Hne) as [s Hs].
    exists s. split; [exact Hs|].
    unfold bind at 1. unfold lift at 1. unfold bind at 1. rewrite Hget.
    unfold bind at 1. rewrite Hm. unfold bind, lift. rewrite Hs. reflexivity.
  - intros e ->. split; [|exact (pipeline_failure_key _ _ _ _ Hkey (Hraise e eq_refl))].
    unfold bind at 1. unfold lift at 1. unfold bind at 1. rewrite Hget.
    unfold bind at 1. rewrite Hm. reflexivity.
Qed.

Lemma predict_model_type self weather p :
  predict self weather = Ok p ->
  model_type p = if is_loaded self then "Random Forest" else "Rule-based Fallback".
Proof.
  intros H. destruct (predict_finish _ _ _ H) as (s & fp & imp & ->). reflexivity.
Qed.
End Effects.

Section Endpoints.
Context `{RT : Runtime}.

Lemma get_model_then_run w m w0 requests w' :
  get_model w = (Ok m, w0) ->
  runs_requests requests w0 w' ->
  OPENWEATHER_API_KEY w' = OPENWEATHER_API_KEY w /\
  model_dir w' = model_dir w /\
  _model_instance w' = Some m /\
  m = match _model_instance w with
      | Some m => m
      | None => _load_model (model_dir w)
      end /\
  exists calls,
    trace w' = (trace w ++ calls)%list /\
    List.filter is_http_get calls = (if offline w then [] else requests) /\
    service w' = (if offline w then service w
                  else skipn (length requests) (service w)).
Proof.
  intros Hget (Hk & Hd & Hi & calls & Ht & Hf & Hs).
  destruct (get_model_effects w) as (m' & w0' & Hget' & Em & Hk0 & Hs0 & _ & Hd0 & Hi0 & Ht0).
  rewrite Hget in Hget'. injection Hget' as <- <-.
  assert (Eoff : offline w0 = offline w) by (unfold offline; rewrite Hk0; reflexivity).
  rewrite Eoff, Hs0 in *.
  split; [congruence|]. split; [congruence|]. split; [congruence|].
  split; [exact Em|].
  exists (match _model_instance w with Some _ => [] | None => [CallLoadModel] end
          ++ calls)%list.
  split; [rewrite Ht, Ht0, app_assoc; reflexivity|]. split; [|exact Hs].
  rewrite List.filter_app, Hf. destruct (_model_instance w); reflexivity.
Qed.

Lemma requests_length (k : nat) (grids : list GridCell.t) :
  (k <= length grids)%nat -> length (map request_of (firstn k grids)) = k.
Proof. intros Hk. rewrite length_map. apply firstn_length_le, Hk. Qed.

(** X9.  The provider answers unless a live reading is not a number.
    Without a usable live reply it returns the simulated observation; on a
    live reply whose temperature, humidity and rainfall are numbers it
    returns the live observation; on a live reply holding anything else
    there it raises [TypeError], from the arithmetic of the index
    derivation, and that is its only failure.  An answer echoes the
    coordinate and the cell identifier, carries all ten features the scorer
    reads, and is tagged as live or as simulated, simulated exactly when
    the live fetch gave nothing. *)
Theorem provider_answers_or_type_error (lat_ lng_ : Q) (grid_id_ : string) (w : World) :
  exists r w',
    get_weather_for_grid lat_ lng_ grid_id_ w = (r, w') /\
    (forall obs,
        r = Ok obs ->
        lat obs = Some lat_ /\ lng obs = Some lng_ /\ grid_id obs = Some grid_id_ /\
        (forall key feature,
            In (key, feature) WEATHER_TO_FEATURE -> is_Some (weather_num key obs)) /\
        (source obs = Some "openweather_api" \/ source obs = Some "simulated") /\
        (source obs = Some "simulated" <-> live_unavailable lat_ lng_ w)) /\
    (forall e, r = Raise e -> e = TypeError /\ OPENWEATHER_API_KEY w <> "") /\
    (live_unavailable lat_ lng_ w -> exists obs, r = Ok obs) /\
    (forall live,
        fst (fetch_weather_from_api lat_ lng_ w) = Ok (Some live) ->
        (ill_typed live <-> r = Raise TypeError) /\
        (~ ill_typed live <-> exists obs, r = Ok obs)).
Proof.
  destruct (get_weather_for_grid_effects lat_ lng_ grid_id_ w)
    as (r & w' & Hw & _ & Hok & Hraise & Hwell & Hsim).
  exists r, w'. split; [exact Hw|]. unfold live_unavailable.
  split; [|split; [|split]].
  - intros obs Hobs.
    destruct (Hok obs Hobs)
      as (Hlat & Hlng & Hid & ([t Ht] & [h Hh] & [ws Hws] & [rn Hrn])
          & ([a Ha] & [b Hb] & [c Hc] & [d Hd] & [e He] & [f Hf]) & Hsrc & Hiff & _).
    split; [exact Hlat|]. split; [exact Hlng|]. split; [exact Hid|].
    split; [|split; [exact Hsrc | exact Hiff]].
    intros key feature Hin. simpl in Hin.
    repeat (destruct Hin as [[= <- <-] | Hin]; [cbn; eauto|]).
    destruct Hin.
  - intros e He. destruct (Hraise e He) as (-> & Hkey & _). split; [reflexivity | exact Hkey].
  - intros Hun. destruct (Hsim Hun) as (obs & E & _). exists obs. exact E.
  - intros live Hlive. split; split.
    + intros Hill. destruct r as [obs|e].
      * destruct (Hok obs eq_refl) as (_ & _ & _ & _ & _ & _ & _ & Hno).
        destruct (Hno live Hlive Hill).
      * destruct (Hraise e eq_refl) as (-> & _). reflexivity.
    + intros ->. destruct (Hraise TypeError eq_refl) as (_ & _ & live' & Hl & Hill).
      rewrite Hlive in Hl. injection Hl as <-. exact Hill.
    + intros Hno. exact (Hwell live Hlive Hno).
    + intros [obs ->]. destruct (Hok obs eq_refl) as (_ & _ & _ & _ & _ & _ & _ & Hno).
      exact (Hno live Hlive).
Qed.

(** X15.  Without an API key a region run never contacts the live
    service, whatever its outcome: the trace gains no request and the
    service is left as it was.  When it answers, every cell's observation is
    a simulated one and the summary counts no real source. *)
Theorem offline_run_sends_no_request (region_id : string) (w : World) :
  OPENWEATHER_API_KEY w = "" ->
  exists r w' calls,
    predict_fire_risk region_id w = (r, w') /\
    service w' = service w /\
    trace w' = (trace w ++ calls)%list /\
    List.filter is_http_get calls = [] /\
    (forall resp,
        r = Ok resp ->
        Forall (fun gp => source (gp_weather gp) = Some "simulated") (rp_grids resp) /\
        data_source_real (rp_summary resp) = 0%nat /\
        data_source_simulated (rp_summary resp) = total_grids (rp_summary resp)).
Proof.
  intros Hkey.
  assert (Hoff : offline w = true) by (unfold offline; rewrite Hkey; reflexivity).
  destruct (FOREST_REGIONS !! region_id) as [region|] eqn:Hreg.
  - destruct (predict_fire_risk_effects region_id region w Hreg)
      as (grids & m & w0 & r & w' & k & _ & _ & Hget & _ & _ & Hrun & Hok & Hraise).
    destruct (get_model_then_run _ _ _ _ _ Hget Hrun)
      as (_ & _ & _ & _ & calls & Ht & Hf & Hs).
    rewrite Hoff in Hf, Hs.
    destruct r as [gps|e].
    + destruct (Hok gps eq_refl) as (_ & Hall & s & Hsum & Hrun').
      eexists _, w', calls. split; [exact Hrun'|].
      split; [exact Hs|]. split; [exact Ht|]. split; [exact Hf|].
      intros resp [= <-]. cbn [rp_grids rp_summary].
      destruct (answers_sources _ _ _ _ Hall) as [_ Hsim].
      specialize (Hsim Hoff).
      destruct (summarize_sources _ _ Hsum) as (-> & -> & ->).
      destruct (sources_simulated _ Hsim) as [-> ->].
      split; [exact Hsim|]. split; reflexivity.
    + destruct (Hraise e eq_refl) as (Hrun' & _).
      exists (Raise e), w', calls. split; [exact Hrun'|].
      split; [exact Hs|]. split; [exact Ht|]. split; [exact Hf|].
      intros resp H. discriminate H.
  - unfold predict_fire_risk. rewrite Hreg.
    eexists _, w, []. split; [reflexivity|]. split; [reflexivity|].
    split; [rewrite app_nil_r; reflexivity|]. split; [reflexivity|].
    intros resp H. discriminate H.
Qed.

(** X16.  With an API key a region run that answers has sent exactly one
    request per cell, at the cell's centre and in grid order (a failed
    request is not retried), and has consumed one answer of the service for
    each.  It can fail only on an unknown region, inside a loaded
    classifier, or with the [TypeError] of a live reading that is not a
    number. *)
Theorem one_request_per_cell (region_id : string) (w : World) :
  OPENWEATHER_API_KEY w <> "" ->
  match predict_fire_risk region_id w with
  | (Ok resp, w') =>
      exists grids calls,
        generate_grids_for_region region_id = Ok grids /\
        trace w' = (trace w ++ calls)%list /\
        List.filter is_http_get calls = map request_of grids /\
        service w' = skipn (length grids) (service w) /\
        length (rp_grids resp) = length grids
  | (Raise e, w') =>
      FOREST_REGIONS !! region_id = None \/
      (exists m, _model_instance w' = Some m /\ is_loaded m = true /\
                 (e = IndexError \/ e = AttributeError)) \/
      e = TypeError
  end.
Proof.
  intros Hkey.
  assert (Hoff : offline w = false)
    by (unfold offline; apply String.eqb_neq, Hkey).
  destruct (FOREST_REGIONS !! region_id) as [region|] eqn:Hreg.
  - destruct (predict_fire_risk_effects region_id region w Hreg)
      as (grids & m & w0 & r & w' & k & Hg & _ & Hget & _ & Hk & Hrun & Hok & Hraise).
    destruct (get_model_then_run _ _ _ _ _ Hget Hrun)
      as (_ & _ & Hinst & _ & calls & Ht & Hf & Hs).
    rewrite Hoff in Hf, Hs. rewrite (requests_length _ _ Hk) in Hs.
    destruct r as [gps|e].
    + destruct (Hok gps eq_refl) as (Ek & Hall & s & _ & ->).
      subst k. rewrite firstn_all in Hf.
      exists grids, calls. split; [exact Hg|]. split; [exact Ht|].
      split; [exact Hf|]. split; [exact Hs|].
      cbn [rp_grids]. symmetry. exact (Forall2_length_eq _ _ _ Hall).
    + destruct (Hraise e eq_refl) as (-> & [[Hl He] | [-> _]]).
      * right. left. exists m. split; [exact Hinst|]. split; [exact Hl | exact He].
      * right. right. reflexivity.
  - unfold predict_fire_risk. rewrite Hreg. left. reflexivity.
Qed.

(** X17.  A region run that answers echoes the region id and the
    registered name, lists one entry per cell in grid order with the cell's
    identifier, position, centre, bounds and area, tags every entry with
    the mode of the one cached model, and reports rows x cols cells, each
    counted under exactly one of the two sources.  A run fails either on an
    unknown region, leaving the world as it was, or inside a loaded
    classifier, or, in a process with an API key, with the [TypeError] of a
    live reading that is not a number. *)
Theorem region_response_shape (region_id : string) (w : World) :
  match predict_fire_risk region_id w with
  | (Ok resp, w') =>
      exists region grids m,
        FOREST_REGIONS !! region_id = Some region /\
        generate_grids_for_region region_id = Ok grids /\
        _model_instance w' = Some m /\
        rp_success resp = true /\
        rp_region_id resp = region_id /\
        rp_region_name resp = ForestRegion.name region /\
        Forall2
          (fun g gp =>
             gp_grid_id gp = GridCell.id g /\
             gp_row gp = GridCell.row g /\ gp_col gp = GridCell.col g /\
             gp_center gp = (GridCell.center_lat g, GridCell.center_lng g) /\
             gp_bounds gp = GridCell.bounds g /\
             gp_area_km2 gp = GridCell.area_km2 g /\
             gp_model_type gp
             = if is_loaded m then "Random Forest" else "Rule-based Fallback")
          grids (rp_grids resp) /\
        total_grids (rp_summary resp)
        = (ForestRegion.grid_rows region * ForestRegion.grid_cols region)%nat /\
        (data_source_real (rp_summary resp)
         + data_source_simulated (rp_summary resp)
         = total_grids (rp_summary resp))%nat
  | (Raise e, w') =>
      (FOREST_REGIONS !! region_id = None /\ w' = w) \/
      (exists m, _model_instance w' = Some m /\ is_loaded m = true /\
                 (e = IndexError \/ e = AttributeError)) \/
      (e = TypeError /\ OPENWEATHER_API_KEY w <> "")
  end.
Proof.
  destruct (FOREST_REGIONS !! region_id) as [region|] eqn:Hreg.
  - destruct (predict_fire_risk_effects region_id region w Hreg)
      as (grids & m & w0 & r & w' & k & Hg & Hlen & Hget & _ & Hk & Hrun & Hok & Hraise).
    destruct (get_model_then_run _ _ _ _ _ Hget Hrun) as (_ & _ & Hinst & _).
    destruct r as [gps|e].
    + destruct (Hok gps eq_refl) as (_ & Hall & s & Hsum & ->).
      exists region, grids, m. cbn [rp_success rp_region_id rp_region_name rp_grids rp_summary].
      split; [reflexivity|]. split; [exact Hg|]. split; [exact Hinst|].
      split; [reflexivity|]. split; [reflexivity|]. split; [reflexivity|].
      destruct (summarize_sources _ _ Hsum) as (-> & -> & ->).
      destruct (answers_sources _ _ _ _ Hall) as [Hsrc _].
      split; [|split].
      * clear - Hall. induction Hall as [|g gp grids gps (p & Hp & -> & _) _ IH];
          constructor; [|exact IH].
        cbn [cell_entry gp_grid_id gp_row gp_col gp_center gp_bounds gp_area_km2
             gp_model_type gp_weather] in *.
        repeat split. exact (predict_model_type _ _ _ Hp).
      * rewrite <- (Forall2_length_eq _ _ _ Hall). exact Hlen.
      * exact (sources_partition _ Hsrc).
    + destruct (Hraise e eq_refl) as (-> & [[Hl He] | Htype]).
      * right. left. exists m. split; [exact Hinst|]. split; [exact Hl | exact He].
      * right. right. exact Htype.
  - unfold predict_fire_risk. rewrite Hreg. left. split; reflexivity.
Qed.
End Endpoints.

Lemma offline_run_sends_no_request_witness :
  exists r w' calls,
    predict_fire_risk "california" example_world = (r, w') /\
    service w' = service example_world /\
    trace w' = (trace example_world ++ calls)%list /\
    List.filter is_http_get calls = [] /\
    (forall resp,
        r = Ok resp ->
        Forall (fun gp => source (gp_weather gp) = Some "simulated") (rp_grids resp) /\
        data_source_real (rp_summary resp) = 0%nat /\
        data_source_simulated (rp_summary resp) = total_grids (rp_summary resp)).
Proof. apply (offline_run_sends_no_request "california" example_world). reflexivity. Defined.

Lemma one_request_per_cell_witness :
  match predict_fire_risk "california" example_world_online with
  | (Ok resp, w') =>
      exists grids calls,
        generate_grids_for_region "california" = Ok grids /\
        trace w' = (trace example_world_online ++ calls)%list /\
        List.filter is_http_get calls = map request_of grids /\
        service w' = skipn (length grids) (service example_world_online) /\
        length (rp_grids resp) = length grids
  | (Raise e, w') =>
      FOREST_REGIONS !! "california" = None \/
      (exists m, _model_instance w' = Some m /\ is_loaded m = true /\
                 (e = IndexError \/ e = AttributeError)) \/
      e = TypeError
  end.
Proof.
  apply (one_request_per_cell "california" example_world_online). discriminate.
Defined.

Section CellEndpoint.
Context `{RT : Runtime}.

Lemma Forall2_In_left {A B : Type} (P : A -> B -> Prop) l k x :
  Forall2 P l k -> In x l -> exists y, In y k /\ P x y.
Proof.
  induction 1 as [|a b l k Hab _ IH]; intros Hin; [destruct Hin|].
  destruct Hin as [<- | Hin].
  - exists b. split; [left; reflexivity | exact Hab].
  - destruct (IH Hin) as (y & Hy & Hxy). exists y. split; [right; exact Hy | exact Hxy].
Qed.

Lemma registered_grids region_id region :
  FOREST_REGIONS !! region_id = Some region ->
  exists grids,
    generate_grids_for_region region_id = Ok grids /\
    grids_of_region region_id region = Ok grids.
Proof.
  intros Hreg. pose proof (registered_well_formed _ _ Hreg) as (Hrows & Hcols & _).
  unfold generate_grids_for_region. rewrite Hreg.
  rewrite (grids_of_region_Ok region_id region Hrows Hcols).
  eexists. split; reflexivity.
Qed.

Lemma get_model_fst w :
  fst (get_model w)
  = Ok match _model_instance w with
       | Some m => m
       | None => _load_model (model_dir w)
       end.
Proof. unfold get_model. destruct (_model_instance w); reflexivity. Qed.

(** The cell endpoint once the cell is found. *)
Lemma get_grid_explanation_found region_id grid_id_ region grids grid w :
  FOREST_REGIONS !! region_id = Some region ->
  generate_grids_for_region region_id = Ok grids ->
  List.find (fun g => String.eqb (GridCell.id g) grid_id_) grids = Some grid ->
  exists r0 m w',
    get_grid_explanation region_id grid_id_ w
    = (match r0 with
       | Ok obs =>
           match predict m obs with
           | Ok p =>
               Ok (mkGridExplanationResponse true grid obs p
                     (explain_prediction m obs p))
           | Raise e => Raise e
           end
       | Raise e => Raise e
       end, w') /\
    m = match _model_instance w with
        | Some m => m
        | None => _load_model (model_dir w)
        end /\
    ((exists obs, r0 = Ok obs) -> _model_instance w' = Some m) /\
    (exists calls,
        trace w' = (trace w ++ calls)%list /\
        List.filter is_http_get calls
        = if offline w then [] else [request_of grid]) /\
    (forall e,
        r0 = Raise e ->
        e = TypeError /\ OPENWEATHER_API_KEY w <> "" /\
        exists live,
          fst (fetch_weather_from_api (GridCell.center_lat grid)
                 (GridCell.center_lng grid) w) = Ok (Some live) /\
          ill_typed live) /\
    (offline w = true ->
     exists obs,
       r0 = Ok obs /\
       forall s,
         fst (get_weather_sync (GridCell.center_lat grid) (GridCell.center_lng grid)
                (GridCell.id grid) s) = Ok obs).
Proof.
  intros Hreg Hg Hfind.
  destruct (get_weather_for_grid_effects (GridCell.center_lat grid)
              (GridCell.center_lng grid) (GridCell.id grid) w)
    as (r0 & w1 & Hw & (Hk & Hd & Hi & calls & Ht & Hf & _) & _ & Hraise & _ & Hsim).
  destruct (get_model_effects w1) as (m & w2 & Hget & Em & Hk2 & Hs2 & Hr2 & Hd2 & Hi2 & Ht2).
  rewrite Hi, Hd in Em.
  exists r0, m.
  assert (Hoff : offline w = true ->
                 exists obs,
                   r0 = Ok obs /\
                   forall s,
                     fst (get_weather_sync (GridCell.center_lat grid)
                            (GridCell.center_lng grid) (GridCell.id grid) s) = Ok obs).
  { intros Ho. destruct (Hsim (offline_fetch _ _ _ Ho)) as (obs & E & _ & Hsync).
    exists obs. split; assumption. }
  unfold get_grid_explanation. rewrite Hreg.
  unfold bind at 1. unfold lift at 1. rewrite Hg, Hfind.
  unfold bind at 1. rewrite Hw.
  destruct r0 as [obs|e0].
  - unfold bind at 1. rewrite Hget. unfold bind, log, lift.
    eexists. split; [destruct (predict m obs) as [p|e]; reflexivity|].
    split; [exact Em|]. cbn [_model_instance trace].
    split; [intros _; exact Hi2|]. split; [|split; [exact Hraise | exact Hoff]].
    exists (calls ++ match _model_instance w1 with
                     | Some _ => []
                     | None => [CallLoadModel]
                     end ++ [CallPredict (GridCell.id grid)])%list.
    split; [rewrite Ht2, Ht, <- !app_assoc; reflexivity|].
    rewrite !List.filter_app, Hf.
    destruct (_model_instance w1); cbn [List.filter is_http_get app];
      rewrite app_nil_r; reflexivity.
  - exists w1. split; [reflexivity|]. split; [exact Em|].
    split; [intros [obs H]; discriminate H|].
    split; [exists calls; split; [exact Ht | exact Hf]|].
    split; [exact Hraise | exact Hoff].
Qed.

(** X14.  The cell endpoint on an unknown region fails with a 404 naming
    the region; on a registered region and an identifier that none of its
    cells carries it fails with a 404 naming the identifier, in both cases
    before anything else happens.  Otherwise the identifier selects one
    cell: an answer describes that cell, scored and explained by the cached
    model on the observation it reports, after at most one request; a
    failure comes from inside a loaded classifier or, in a process with an
    API key, is the [TypeError] of a live reading at the cell's centre that
    is not a number. *)
Theorem cell_endpoint_outcomes (region_id grid_id_ : string) (w : World) :
  match FOREST_REGIONS !! region_id with
  | None =>
      get_grid_explanation region_id grid_id_ w
      = (Raise (HTTPException 404 ("Unknown region: " +:+ region_id)), w)
  | Some region =>
      exists grids,
        generate_grids_for_region region_id = Ok grids /\
        ((~ In grid_id_ (map GridCell.id grids) /\
          get_grid_explanation region_id grid_id_ w
          = (Raise (HTTPException 404 ("Grid not found: " +:+ grid_id_)), w)) \/
         (exists grid,
             In grid grids /\ GridCell.id grid = grid_id_ /\
             match get_grid_explanation region_id grid_id_ w with
             | (Ok detail, w') =>
                 ge_success detail = true /\ ge_grid detail = grid /\
                 (exists m,
                     _model_instance w' = Some m /\
                     predict m (ge_weather detail) = Ok (ge_prediction detail) /\
                     ge_explanation detail
                     = explain_prediction m (ge_weather detail) (ge_prediction detail)) /\
                 (exists calls,
                     trace w' = (trace w ++ calls)%list /\
                     List.filter is_http_get calls
                     = if offline w then [] else [request_of grid])
             | (Raise e, w') =>
                 (exists m, _model_instance w' = Some m /\ is_loaded m = true /\
                            (e = IndexError \/ e = AttributeError)) \/
                 (e = TypeError /\ OPENWEATHER_API_KEY w <> "" /\
                  exists live,
                    fst (fetch_weather_from_api (GridCell.center_lat grid)
                           (GridCell.center_lng grid) w) = Ok (Some live) /\
                    ill_typed live)
             end))
  end.
Proof.
  destruct (FOREST_REGIONS !! region_id) as [region|] eqn:Hreg.
  - destruct (registered_grids _ _ Hreg) as (grids & Hg & Hgr).
    exists grids. split; [exact Hg|].
    destruct (in_dec string_dec grid_id_ (map GridCell.id grids)) as [Hin | Hno].
    + right. apply in_map_iff in Hin. destruct Hin as (grid & Hid & Hin).
      exists grid. split; [exact Hin|]. split; [exact Hid|].
      pose proof (find_by_key GridCell.id grids grid
                    (grids_of_region_ids _ _ _ Hgr) Hin) as Hfind.
      rewrite Hid in Hfind.
      destruct (get_grid_explanation_found _ _ _ _ _ w Hreg Hg Hfind)
        as (r0 & m & w' & -> & _ & Hinst & Hcalls & Hraise & _).
      destruct r0 as [obs|e0].
      * specialize (Hinst (ex_intro _ obs eq_refl)).
        destruct (predict m obs) as [p|e] eqn:Hp.
        -- cbn [ge_success ge_grid ge_weather ge_prediction ge_explanation].
           split; [reflexivity|]. split; [reflexivity|]. split; [|exact Hcalls].
           exists m. split; [exact Hinst|]. split; [exact Hp | reflexivity].
        -- left. exists m. split; [exact Hinst|]. exact (predict_Raise _ _ _ Hp).
      * right. exact (Hraise e0 eq_refl).
    + left. split; [exact Hno|].
      unfold get_grid_explanation. rewrite Hreg.
      unfold bind, lift. rewrite Hg.
      rewrite (find_by_key_None GridCell.id grids grid_id_); [reflexivity|].
      intros x Hx E. apply Hno. rewrite <- E. apply in_map, Hx.
  - unfold get_grid_explanation. rewrite Hreg. reflexivity.
Qed.

(** X18.  In a process without an API key the two prediction endpoints
    agree: if the region run answers, the cell endpoint asked for one of
    its cells (at any other moment of the same process, with the same
    model) answers too, with the same observation, score, category,
    probability and mode as the cell's entry in the region response; and it
    fails with the 404 of an unknown cell exactly for the identifiers that
    are not in the region response. *)
Theorem cell_view_matches_region_view (region_id grid_id_ : string) (w1 w2 : World) :
  OPENWEATHER_API_KEY w1 = "" -> OPENWEATHER_API_KEY w2 = "" ->
  fst (get_model w1) = fst (get_model w2) ->
  match predict_fire_risk region_id w1, get_grid_explanation region_id grid_id_ w2 with
  | (Ok resp, _), (Ok detail, _) =>
      exists gp,
        In gp (rp_grids resp) /\ gp_grid_id gp = grid_id_ /\
        gp_weather gp = ge_weather detail /\
        gp_risk_score gp = risk_score (ge_prediction detail) /\
        gp_risk_category gp = risk_category (ge_prediction detail) /\
        gp_probability gp = probability (ge_prediction detail) /\
        gp_model_type gp = model_type (ge_prediction detail) /\
        gp_bounds gp = GridCell.bounds (ge_grid detail)
  | (Ok resp, _), (Raise e, _) =>
      e = HTTPException 404 ("Grid not found: " +:+ grid_id_) /\
      ~ In grid_id_ (map gp_grid_id (rp_grids resp))
  | (Raise _, _), _ => True
  end.
Proof.
  intros Hk1 Hk2 Hmodel.
  assert (Hoff1 : offline w1 = true) by (unfold offline; rewrite Hk1; reflexivity).
  assert (Hoff2 : offline w2 = true) by (unfold offline; rewrite Hk2; reflexivity).
  destruct (FOREST_REGIONS !! region_id) as [region|] eqn:Hreg;
    [|unfold predict_fire_risk; rewrite Hreg; exact I].
  destruct (predict_fire_risk_effects region_id region w1 Hreg)
    as (grids & m & w0 & r & w' & k & Hg & _ & Hget & _ & _ & _ & Hok & Hraise).
  destruct r as [gps|e]; [|destruct (Hraise e eq_refl) as (-> & _); exact I].
  destruct (Hok gps eq_refl) as (_ & Hall & s & _ & ->). cbn [rp_grids].
  rewrite Hoff1 in Hall.
  assert (Em : fst (get_model w1) = Ok m) by (rewrite Hget; reflexivity).
  assert (Hids : map gp_grid_id gps = map GridCell.id grids).
  { clear - Hall. induction Hall as [|g gp grids gps (p & _ & Egp & _) _ IH];
      [reflexivity|].
    cbn [map]. rewrite IH, Egp. reflexivity. }
  destruct (registered_grids _ _ Hreg) as (grids' & Hg' & Hgr).
  rewrite Hg in Hg'. injection Hg' as <-.
  destruct (in_dec string_dec grid_id_ (map GridCell.id grids)) as [Hin | Hno].
  - apply in_map_iff in Hin. destruct Hin as (grid & Hid & Hin).
    pose proof (find_by_key GridCell.id grids grid
                  (grids_of_region_ids _ _ _ Hgr) Hin) as Hfind.
    rewrite Hid in Hfind.
    destruct (get_grid_explanation_found _ _ _ _ _ w2 Hreg Hg Hfind)
      as (r0 & m2 & w2' & -> & Em2 & _ & _ & _ & Hsync0).
    destruct (Hsync0 Hoff2) as (obs & -> & Hsync).
    assert (E : m2 = m).
    { rewrite Em, get_model_fst, <- Em2 in Hmodel. congruence. }
    clear Em2. subst m2.
    destruct (Forall2_In_left _ _ _ _ Hall Hin) as (gp & Hgp & p & Hp & Egp & _ & Hsim).
    destruct (Hsim eq_refl) as [_ Hsync1].
    assert (Eobs : gp_weather gp = obs).
    { pose proof (Hsync1 (rng w1)) as H1. pose proof (Hsync (rng w1)) as H2.
      congruence. }
    rewrite <- Eobs, Hp.
    exists gp. cbn [ge_weather ge_prediction ge_grid].
    assert (F : gp_grid_id gp = GridCell.id grid /\
                gp_risk_score gp = risk_score p /\
                gp_risk_category gp = risk_category p /\
                gp_probability gp = probability p /\
                gp_model_type gp = model_type p /\
                gp_bounds gp = GridCell.bounds grid)
      by (rewrite Egp; repeat split).
    destruct F as (F1 & F2 & F3 & F4 & F5 & F6).
    split; [exact Hgp|]. split; [rewrite F1; exact Hid|].
    split; [reflexivity|]. repeat split; assumption.
  - unfold get_grid_explanation. rewrite Hreg. unfold bind, lift. rewrite Hg.
    rewrite (find_by_key_None GridCell.id grids grid_id_).
    + split; [reflexivity|]. rewrite Hids. exact Hno.
    + intros x Hx E. apply Hno. rewrite <- E. apply in_map, Hx.
Qed.
End CellEndpoint.

Lemma cell_view_matches_region_view_witness :
  match predict_fire_risk "california" example_world,
        get_grid_explanation "california" "california_grid_1_2" example_world_later with
  | (Ok resp, _), (Ok detail, _) =>
      exists gp,
        In gp (rp_grids resp) /\ gp_grid_id gp = "california_grid_1_2" /\
        gp_weather gp = ge_weather detail /\
        gp_risk_score gp = risk_score (ge_prediction detail) /\
        gp_risk_category gp = risk_category (ge_prediction detail) /\
        gp_probability gp = probability (ge_prediction detail) /\
        gp_model_type gp = model_type (ge_prediction detail) /\
        gp_bounds gp = GridCell.bounds (ge_grid detail)
  | (Ok resp, _), (Raise e, _) =>
      e = HTTPException 404 ("Grid not found: " +:+ "california_grid_1_2") /\
      ~ In "california_grid_1_2" (map gp_grid_id (rp_grids resp))
  | (Raise _, _), _ => True
  end.
Proof.
  apply (cell_view_matches_region_view "california" "california_grid_1_2"
           example_world example_world_later); reflexivity.
Defined.

(** ** Health, the listing endpoints and the index derivation *)

Section HealthCheck.
Context `{RT : Runtime}.

(** X20.  The health check reports the mode of the process-wide model,
    loading it if no request has done so yet and touching nothing else.
    The mode is then fixed: whatever happens to the model files afterwards,
    every entry of a later region run is tagged with the mode the health
    check reported, and the cached model is kept.  (Such a run fails only
    on an unknown region, inside a loaded classifier or on a live reading
    that is not a number.) *)
Theorem health_reports_the_mode (region_id : string) (w : World) (files : ModelDir) :
  exists loaded w1,
    health_check w = (Ok ("healthy", loaded, 4%nat), w1) /\
    OPENWEATHER_API_KEY w1 = OPENWEATHER_API_KEY w /\
    service w1 = service w /\ rng w1 = rng w /\ model_dir w1 = model_dir w /\
    loaded = is_loaded match _model_instance w with
                       | Some m => m
                       | None => _load_model (model_dir w)
                       end /\
    trace w1 = (trace w ++ match _model_instance w with
                           | Some _ => []
                           | None => [CallLoadModel]
                           end)%list /\
    match predict_fire_risk region_id
            (mkWorld (OPENWEATHER_API_KEY w1) (service w1) (rng w1) files
               (_model_instance w1) (trace w1)) with
    | (Ok resp, w2) =>
        Forall (fun gp => gp_model_type gp
                          = if loaded then "Random Forest" else "Rule-based Fallback")
          (rp_grids resp) /\
        _model_instance w2 = _model_instance w1
    | (Raise e, w2) =>
        FOREST_REGIONS !! region_id = None \/ loaded = true \/
        (e = TypeError /\ OPENWEATHER_API_KEY w <> "")
    end.
Proof.
  destruct (get_model_effects w) as (m & w1 & Hget & Em & Hk & Hs & Hr & Hd & Hi & Ht).
  exists (is_loaded m), w1. split; [|split; [exact Hk|]].
  { unfold health_check, bind. rewrite Hget. reflexivity. }
  split; [exact Hs|]. split; [exact Hr|]. split; [exact Hd|].
  split; [rewrite Em; reflexivity|]. split; [exact Ht|].
  set (w1' := mkWorld _ _ _ files _ _).
  destruct (FOREST_REGIONS !! region_id) as [region|] eqn:Hreg;
    [|unfold predict_fire_risk; rewrite Hreg; left; reflexivity].
  destruct (predict_fire_risk_effects region_id region w1' Hreg)
    as (grids & m' & w0 & r & w2 & k & _ & _ & Hget' & _ & _ & Hrun & Hok & Hraise).
  destruct (get_model_then_run _ _ _ _ _ Hget' Hrun) as (_ & _ & Hi2 & Em' & _).
  assert (E : m' = m) by (rewrite Em'; unfold w1'; cbn [_model_instance]; rewrite Hi; reflexivity).
  clear Em'. subst m'.
  destruct r as [gps|e].
  - destruct (Hok gps eq_refl) as (_ & Hall & s & _ & ->). cbn [rp_grids].
    split; [|rewrite Hi2, Hi; reflexivity].
    clear - Hall. induction Hall as [|g gp grids gps (p & Hp & Egp & _) _ IH];
      constructor; [|exact IH].
    rewrite Egp. cbn [cell_entry gp_model_type]. exact (predict_model_type _ _ _ Hp).
  - destruct (Hraise e eq_refl) as (-> & [[Hl _] | [-> Hkey]]).
    + right. left. exact Hl.
    + right. right. split; [reflexivity|].
      unfold w1' in Hkey. cbn [OPENWEATHER_API_KEY] in Hkey. rewrite <- Hk. exact Hkey.
Qed.
End HealthCheck.

Lemma get_grids_registered region_id region :
  FOREST_REGIONS !! region_id = Some region ->
  exists grids,
    generate_grids_for_region region_id = Ok grids /\
    length grids
    = (ForestRegion.grid_rows region * ForestRegion.grid_cols region)%nat /\
    get_grids region_id
    = Ok (true,
          mkRegionInfo (ForestRegion.id region) (ForestRegion.name region)
            (ForestRegion.description region)
            (ForestRegion.center_lat region, ForestRegion.center_lng region)
            (ForestRegion.bounds region)
            (map (fun g =>
                    mkGridDict (GridCell.id g) None (GridCell.row g) (GridCell.col g)
                      (GridCell.center_lat g, GridCell.center_lng g)
                      (GridCell.bounds g) (GridCell.area_km2 g))
               grids)).
Proof.
  intros Hreg. destruct (registered_grids _ _ Hreg) as (grids & Hg & Hgr).
  exists grids. split; [exact Hg|]. split.
  - apply grids_of_region_inv in Hgr. destruct Hgr as (_ & _ & ->).
    apply nested_loops_length.
  - unfold get_grids, get_region_info. rewrite Hreg, Hg. reflexivity.
Qed.

Lemma registered_keys region_id :
  In region_id FOREST_REGIONS_keys <-> is_Some (FOREST_REGIONS !! region_id).
Proof.
  split.
  - intros [<- | [<- | [<- | [<- | []]]]]; eexists; reflexivity.
  - intros [region H].
    destruct (registered_regions _ _ H) as [[-> _] | [[-> _] | [[-> _] | [-> _]]]];
      cbn; auto.
Qed.

(** X21.  The listing endpoint and the grids endpoint agree: the listing
    has one entry per registered region, in registration order and under
    the key it is registered with; the grids endpoint answers for exactly
    those identifiers, with the same name, centre and bounds and with as
    many cells as the listing announces (the cells carry no region field);
    for any other identifier it fails with a 404 naming the region. *)
Theorem listing_agrees_with_grids :
  fst (fst list_regions) = true /\
  snd (fst list_regions) = length (snd list_regions) /\
  map re_id (snd list_regions) = FOREST_REGIONS_keys /\
  (forall region_id,
      In region_id (map re_id (snd list_regions)) <->
      is_Some (FOREST_REGIONS !! region_id)) /\
  (forall entry,
      In entry (snd list_regions) ->
      exists info,
        get_grids (re_id entry) = Ok (true, info) /\
        ri_id info = re_id entry /\ ri_name info = re_name entry /\
        ri_description info = re_description entry /\
        ri_center info = re_center entry /\ ri_bounds info = re_bounds entry /\
        length (ri_grids info) = re_grid_count entry /\
        Forall (fun cell => gd_region cell = None) (ri_grids info)) /\
  (forall region_id,
      FOREST_REGIONS !! region_id = None ->
      get_grids region_id
      = Raise (HTTPException 404 ("Unknown region: " +:+ region_id))).
Proof.
  assert (Hentries :
            snd list_regions
            = map (fun region =>
                     mkRegionEntry (ForestRegion.id region) (ForestRegion.name region)
                       (ForestRegion.description region)
                       (ForestRegion.center_lat region, ForestRegion.center_lng region)
                       (ForestRegion.bounds region)
                       (ForestRegion.grid_rows region * ForestRegion.grid_cols region))
                [amazon; california; australia; mediterranean])
    by reflexivity.
  split; [reflexivity|]. split; [reflexivity|].
  split; [rewrite Hentries; reflexivity|].
  split; [intros region_id; rewrite Hentries; exact (registered_keys region_id)|].
  split.
  - intros entry Hin. rewrite Hentries in Hin. apply in_map_iff in Hin.
    destruct Hin as (region & <- & Hin). cbn [re_id re_name re_description re_center
                                               re_bounds re_grid_count].
    assert (Hreg : FOREST_REGIONS !! ForestRegion.id region = Some region)
      by (destruct Hin as [<- | [<- | [<- | [<- | []]]]]; reflexivity).
    destruct (get_grids_registered _ _ Hreg) as (grids & _ & Hlen & ->).
    eexists. split; [reflexivity|].
    cbn [ri_id ri_name ri_description ri_center ri_bounds ri_grids].
    repeat split; try reflexivity.
    + rewrite length_map. exact Hlen.
    + apply List.Forall_forall. intros cell Hc. apply in_map_iff in Hc.
      destruct Hc as (g & <- & _). reflexivity.
  - intros region_id Hno. unfold get_grids, get_region_info. rewrite Hno. reflexivity.
Qed.

Section Indices.
Context `{RT : Runtime}.

(** X22.  The index derivation needs exactly the four readings: it
    succeeds when temperature, humidity, wind speed and rainfall are all
    present, fails with a [KeyError] naming the first missing one
    otherwise, and no other entry of the observation has any influence. *)
Theorem indices_need_four_readings (weather : WeatherData) :
  ((exists ix, generate_fire_weather_indices weather = Ok ix) <-> observed weather) /\
  (temperature weather = None ->
   generate_fire_weather_indices weather = Raise (KeyError "temperature")) /\
  (is_Some (temperature weather) -> humidity weather = None ->
   generate_fire_weather_indices weather = Raise (KeyError "humidity")) /\
  (is_Some (temperature weather) -> is_Some (humidity weather) ->
   wind_speed weather = None ->
   generate_fire_weather_indices weather = Raise (KeyError "wind_speed")) /\
  (is_Some (temperature weather) -> is_Some (humidity weather) ->
   is_Some (wind_speed weather) -> rainfall weather = None ->
   generate_fire_weather_indices weather = Raise (KeyError "rainfall")) /\
  (forall other,
      temperature other = temperature weather ->
      humidity other = humidity weather ->
      wind_speed other = wind_speed weather ->
      rainfall other = rainfall weather ->
      generate_fire_weather_indices other = generate_fire_weather_indices weather).
Proof.
  unfold generate_fire_weather_indices, observed.
  split; [|split; [|split; [|split; [|split]]]].
  - split.
    + intros [ix H].
      destruct (temperature weather); [|discriminate H].
      destruct (humidity weather); [|discriminate H].
      destruct (wind_speed weather); [|discriminate H].
      destruct (rainfall weather); [|discriminate H].
      repeat split; eexists; reflexivity.
    + intros ([t ->] & [h ->] & [ws ->] & [r ->]). eexists. reflexivity.
  - intros ->. reflexivity.
  - intros [t ->] ->. reflexivity.
  - intros [t ->] [h ->] ->. reflexivity.
  - intros [t ->] [h ->] [ws ->] ->. reflexivity.
  - intros other -> -> -> ->. reflexivity.
Qed.

(** X23.  The five indices that are computed by arithmetic alone are
    monotone: an observation that is at least as hot, as dry and as windy,
    with no more rain, has no lower FFMC, DMC, DC, ISI or BUI. *)
Theorem indices_monotone (t h ws r t' h' ws' r' : Q) (weather weather' : WeatherData) :
  temperature weather = Some t -> humidity weather = Some h ->
  wind_speed weather = Some ws -> rainfall weather = Some r ->
  temperature weather' = Some t' -> humidity weather' = Some h' ->
  wind_speed weather' = Some ws' -> rainfall weather' = Some r' ->
  t <= t' -> h' <= h -> ws <= ws' -> r' <= r ->
  exists ix ix',
    generate_fire_weather_indices weather = Ok ix /\
    generate_fire_weather_indices weather' = Ok ix' /\
    ix_ffmc ix <= ix_ffmc ix' /\ ix_dmc ix <= ix_dmc ix' /\
    ix_dc ix <= ix_dc ix' /\ ix_isi ix <= ix_isi ix' /\
    ix_bui ix <= ix_bui ix'.
Proof.
  intros Ht Hh Hw Hr Ht' Hh' Hw' Hr' Let_ Leh Lew Ler.
  unfold generate_fire_weather_indices.
  rewrite Ht, Hh, Hw, Hr, Ht', Hh', Hw', Hr'. cbn [get_item].
  eexists _, _. split; [reflexivity|]. split; [reflexivity|].
  cbn [ix_ffmc ix_dmc ix_dc ix_isi ix_bui].
  assert (Hffmc : py_max 40 (py_min 96 (60 + (t - 25) * 1.5 - (h - 50) * 0.3 - r * 3))
                  <= py_max 40 (py_min 96 (60 + (t' - 25) * 1.5 - (h' - 50) * 0.3 - r' * 3)))
    by (apply py_clamp_mono; lra).
  assert (Hdmc : py_max 1 (py_min 30 (10 + (t - 25) * 0.5 - h * 0.1))
                 <= py_max 1 (py_min 30 (10 + (t' - 25) * 0.5 - h' * 0.1)))
    by (apply py_clamp_mono; lra).
  assert (Hdc : py_max 5 (py_min 400 (150 + (t - 25) * 5 - r * 10))
                <= py_max 5 (py_min 400 (150 + (t' - 25) * 5 - r' * 10)))
    by (apply py_clamp_mono; lra).
  split; [apply py_round_mono, Hffmc|]. split; [apply py_round_mono, Hdmc|].
  split; [apply py_round_mono, Hdc|].
  split; apply py_round_mono, py_clamp_mono; lra.
Qed.
End Indices.

Lemma indices_monotone_witness :
  exists ix ix',
    generate_fire_weather_indices (weather_of 28 55 8 1 6) = Ok ix /\
    generate_fire_weather_indices (weather_of 31 40 12 0 9) = Ok ix' /\
    ix_ffmc ix <= ix_ffmc ix' /\ ix_dmc ix <= ix_dmc ix' /\
    ix_dc ix <= ix_dc ix' /\ ix_isi ix <= ix_isi ix' /\
    ix_bui ix <= ix_bui ix'.
Proof.
  apply (indices_monotone 28 55 8 1 31 40 12 0); try reflexivity;
    vm_compute; congruence.
Defined.

Section SyncProvider.
Context `{RT : Runtime}.

(** X24.  The synchronous provider never fails and never depends on the
    state of the generator: for a cell it returns one simulated
    observation, echoing the coordinate and the identifier, which is also
    what the asynchronous provider returns in a process without an API
    key; it leaves the generator where the simulation left it. *)
Theorem sync_provider_matches_offline (lat_ lng_ : Q) (grid_id_ : string) (s : rng_state) :
  exists obs,
    fst (get_weather_sync lat_ lng_ grid_id_ s) = Ok obs /\
    snd (get_weather_sync lat_ lng_ grid_id_ s)
    = snd (generate_simulated_weather lat_ lng_ grid_id_ s) /\
    source obs = Some "simulated" /\
    lat obs = Some lat_ /\ lng obs = Some lng_ /\ grid_id obs = Some grid_id_ /\
    (forall s', fst (get_weather_sync lat_ lng_ grid_id_ s') = Ok obs) /\
    (forall w,
        OPENWEATHER_API_KEY w = "" ->
        fst (get_weather_for_grid lat_ lng_ grid_id_ w) = Ok obs).
Proof.
  destruct (get_weather_sync_Ok lat_ lng_ grid_id_ s) as (ix & Hix & Hsync).
  destruct (generate_simulated_weather_fields lat_ lng_ grid_id_ s)
    as (t & h & ws & rn & _ & Hobs).
  eexists. split; [exact Hsync|]. split; [|split; [|split; [|split; [|split; [|split]]]]].
  - unfold get_weather_sync.
    destruct (generate_simulated_weather lat_ lng_ grid_id_ s) as [obs s1].
    cbn [fst snd] in *. rewrite Hix. reflexivity.
  - cbn [source merge_weather]. rewrite Hobs. reflexivity.
  - reflexivity.
  - reflexivity.
  - reflexivity.
  - intros s'. exact Hsync.
  - intros w Hkey.
    destruct (get_weather_for_grid_effects lat_ lng_ grid_id_ w)
      as (r & w' & Hw & _ & _ & _ & _ & Hsim).
    rewrite Hw. cbn [fst].
    assert (Ho : offline w = true) by (unfold offline; rewrite Hkey; reflexivity).
    destruct (Hsim (offline_fetch _ _ _ Ho)) as (obs & -> & _ & Hs).
    rewrite <- (Hs s). exact Hsync.
Qed.
End SyncProvider.

(** ** The binary reading: the score and the indices as floats *)

Lemma py_clamp_float (a b : Q) (x : Binary64.float) :
  a < b ->
  Binary64.py_max (Binary64.Finite a) (Binary64.py_min (Binary64.Finite b) x)
  = float_clamp (Binary64.Finite a) (Binary64.Finite b) x.
Proof.
  intros Hab. unfold Binary64.py_max, Binary64.py_min, float_clamp.
  destruct x as [q| | |]; cbn [Binary64.lt Binary64.le].
  - destruct (Qleb q a) eqn:E1.
    + apply Qleb_le in E1.
      assert (E2 : Qltb q b = true) by (apply Qltb_lt; lra). rewrite E2.
      cbn [Binary64.lt].
      assert (E3 : Qltb a q = false) by (apply Qltb_ge; lra). rewrite E3. reflexivity.
    + apply Qleb_gt in E1. destruct (Qltb q b) eqn:E2; cbn [Binary64.lt].
      * assert (E3 : Qltb a q = true) by (apply Qltb_lt; lra). rewrite E3. reflexivity.
      * assert (E3 : Qltb a b = true) by (apply Qltb_lt; lra). rewrite E3. reflexivity.
  - assert (E3 : Qltb a b = true) by (apply Qltb_lt; lra). rewrite E3. reflexivity.
  - reflexivity.
  - assert (E3 : Qltb a b = true) by (apply Qltb_lt; lra). rewrite E3. reflexivity.
Qed.

Lemma float_clamp_range (a b : Q) (x : Binary64.float) :
  a <= b ->
  in_range a b (float_clamp (Binary64.Finite a) (Binary64.Finite b) x).
Proof.
  intros Hab. unfold float_clamp, in_range.
  destruct x as [q| | |]; cbn [Binary64.lt Binary64.le].
  - destruct (Qleb q a) eqn:E1; [exists a; split; [reflexivity | lra]|].
    apply Qleb_gt in E1. destruct (Qltb q b) eqn:E2.
    + apply Qltb_lt in E2. exists q. split; [reflexivity | lra].
    + exists b. split; [reflexivity | lra].
  - exists b. split; [reflexivity | lra].
  - exists a. split; [reflexivity | lra].
  - exists b. split; [reflexivity | lra].
Qed.

(** The floats nearest to the one-decimal numbers up to 400 lie between
    the neighbouring integers. *)
Lemma tenths_between (n : Z) :
  (0 <= n <= 4000)%Z ->
  exists u,
    Binary64.nearest (inject_Z n / pow10 1) = Binary64.Finite u /\
    inject_Z (n / 10) <= u /\ u <= inject_Z ((n + 9) / 10).
Proof.
  intros Hn.
  assert (Htable :
            forallb
              (fun k =>
                 let n := Z.of_nat k in
                 match Binary64.nearest (inject_Z n / pow10 1) with
                 | Binary64.Finite u =>
                     Qle_bool (inject_Z (n / 10)) u
                     && Qle_bool u (inject_Z ((n + 9) / 10))
                 | _ => false
                 end)
              (seq 0 4001) = true) by (vm_compute; reflexivity).
  rewrite forallb_forall in Htable.
  specialize (Htable (Z.to_nat n)).
  rewrite Z2Nat.id in Htable by lia.
  assert (Hin : In (Z.to_nat n) (seq 0 4001)) by (apply in_seq; lia).
  specialize (Htable Hin). cbv zeta in Htable.
  destruct (Binary64.nearest (inject_Z n / pow10 1)) as [u| | |]; try discriminate.
  apply andb_true_iff in Htable. destruct Htable as [H1 H2].
  apply Qle_bool_iff in H1, H2. exists u. split; [reflexivity|]. split; assumption.
Qed.

Lemma round_range (a b : Z) (x : Binary64.float) :
  (0 <= a)%Z -> (b <= 400)%Z ->
  in_range (inject_Z a) (inject_Z b) x ->
  in_range (inject_Z a) (inject_Z b) (Binary64.round x 1).
Proof.
  intros Ha Hb (v & -> & Hlo & Hhi). unfold in_range.
  cbn [Binary64.round]. unfold py_round.
  set (n := round_half_even (v * pow10 1)).
  assert (Hn : (a * 10 <= n <= b * 10)%Z).
  { apply round_half_even_between; rewrite inject_Z_mult;
      change (pow10 1) with (inject_Z 10); change (inject_Z 10) with 10; nra. }
  assert (Hab : (a <= b)%Z) by (rewrite Zle_Qle; lra).
  clearbody n.
  destruct (tenths_between n ltac:(lia)) as (u & -> & H1 & H2).
  assert (L : (a <= n / 10)%Z) by (apply Z.div_le_lower_bound; lia).
  assert (U : ((n + 9) / 10 < b + 1)%Z) by (apply Z.div_lt_upper_bound; lia).
  exists u. split; [reflexivity|]. split.
  - eapply Qle_trans; [|exact H1]. rewrite <- Zle_Qle. exact L.
  - eapply Qle_trans; [exact H2|]. rewrite <- Zle_Qle. lia.
Qed.

Lemma two_power_negative (e : Z) :
  (e < 0)%Z -> 0 < Binary64.two_power e /\ Binary64.two_power e <= 1.
Proof.
  intros He. unfold Binary64.two_power.
  destruct (Z.leb_spec 0 e) as [H | _]; [lia|].
  split; [reflexivity|]. unfold Qle. cbn [Qnum Qden]. lia.
Qed.

Lemma floor_log2_small (q : Q) :
  0 < q -> q <= 600 -> (Binary64.floor_log2 (Qabs q) <= 10)%Z.
Proof.
  intros Hpos Hle. destruct q as [n d].
  assert (Hn : (0 < n)%Z) by (unfold Qlt in Hpos; cbn in Hpos; lia).
  assert (Hd : (n <= 600 * Zpos d)%Z) by (unfold Qle in Hle; cbn in Hle; lia).
  unfold Binary64.floor_log2. cbn [Qabs Qnum Qden].
  rewrite (Z.abs_eq n) by lia.
  assert (Hk : (Z.log2 n - Z.log2 (Zpos d) <= 10)%Z).
  { assert (H1 : (Z.log2 n <= Z.log2 (Zpos d * 2 ^ 10))%Z)
      by (apply Z.log2_le_mono; lia).
    rewrite Z.log2_mul_pow2 in H1 by lia. lia. }
  destruct (Qle_bool _ _); lia.
Qed.

(** Rounding a small non-negative result gives a non-negative float. *)
Lemma nearest_small (q : Q) :
  0 <= q -> q <= 600 ->
  exists v, Binary64.nearest q = Binary64.Finite v /\ 0 <= v.
Proof.
  intros Hq Hle. unfold Binary64.nearest.
  destruct (Qeq_bool q 0) eqn:E0; [exists 0; split; [reflexivity | lra]|].
  assert (Hpos : 0 < q).
  { apply Qeq_bool_neq in E0. destruct (Qlt_le_dec 0 q) as [H | H]; [exact H|].
    exfalso. apply E0. lra. }
  pose proof (floor_log2_small q Hpos Hle) as Hfl.
  set (e := Z.max (Binary64.floor_log2 (Qabs q) - 52) (-1074)).
  assert (He : (e < 0)%Z) by (unfold e; lia).
  destruct (two_power_negative e He) as [Htp Htp1].
  set (tp := Binary64.two_power e) in *.
  destruct (round_half_even_near (q / tp)) as [Hup Hdown].
  set (m := round_half_even (q / tp)) in *.
  assert (Hx : 0 < q / tp) by (apply Qlt_shift_div_l; [exact Htp | lra]).
  assert (Hm : 0 <= inject_Z m).
  { assert (H : inject_Z (-1) < inject_Z m)
      by (change (inject_Z (-1)) with (-1); lra).
    rewrite <- Zlt_Qlt in H. change 0 with (inject_Z 0). rewrite <- Zle_Qle. lia. }
  assert (Hv : Qred (inject_Z m * tp) == inject_Z m * tp) by apply Qred_correct.
  assert (Hv0 : 0 <= inject_Z m * tp) by (apply Qmult_le_0_compat; lra).
  assert (Hv1 : inject_Z m * tp <= 601).
  { assert (H : inject_Z m * tp <= (q / tp + (1 # 2)) * tp)
      by (apply Qmult_le_compat_r; lra).
    assert (E : (q / tp + (1 # 2)) * tp == q + (1 # 2) * tp) by (field; lra).
    rewrite E in H. nra. }
  destruct (Qle_bool (Binary64.two_power 1024) (Qabs (Qred (inject_Z m * tp)))) eqn:Eover.
  - exfalso. apply Qle_bool_iff in Eover.
    rewrite Hv, Qabs_pos in Eover by exact Hv0.
    assert (Hbig : 601 < Binary64.two_power 1024) by (vm_compute; reflexivity).
    lra.
  - eexists. split; [reflexivity|]. rewrite Hv. exact Hv0.
Qed.

Lemma integer_sqrt_accurate (N : Z) :
  (N = 0 \/ 2 ^ 104 <= N)%Z ->
  (Z.sqrt N * Z.sqrt N <= N /\ (N - Z.sqrt N * Z.sqrt N) * 2 ^ 50 <= N)%Z.
Proof.
  intros [-> | HN]; [split; reflexivity|].
  assert (H0 : (0 <= N)%Z) by (assert (0 < 2 ^ 104)%Z by reflexivity; lia).
  pose proof (Z.sqrt_spec N H0) as [Hlo Hhi]. cbv zeta in Hlo, Hhi.
  assert (Hr : (2 ^ 52 <= Z.sqrt N)%Z).
  { rewrite <- (Z.sqrt_square (2 ^ 52)) by (apply Z.pow_nonneg; lia).
    apply Z.sqrt_le_mono. change (2 ^ 52 * 2 ^ 52)%Z with (2 ^ 104)%Z. exact HN. }
  set (r := Z.sqrt N) in *.
  assert (Hrr : (r * 2 ^ 51 <= r * r)%Z).
  { apply Z.mul_le_mono_nonneg_l; [|]; assert (2 ^ 51 < 2 ^ 52)%Z by reflexivity; lia. }
  assert (Hexp : (Z.succ r * Z.succ r = r * r + 2 * r + 1)%Z) by (unfold Z.succ; ring).
  rewrite Hexp in Hhi. set (rr := (r * r)%Z) in *.
  change (2 ^ 51)%Z with (2 * 2 ^ 50)%Z in Hrr.
  split; [exact Hlo|]. lia.
Qed.

Lemma binary_sqrt_accurate (a : Q) :
  0 <= a ->
  0 <= binary_sqrt a /\
  Qabs (binary_sqrt a * binary_sqrt a - a) <= a * Binary64.two_power (-50).
Proof.
  intros Ha. destruct a as [n d].
  assert (Hn : (0 <= n)%Z) by (unfold Qle in Ha; cbn in Ha; lia).
  unfold binary_sqrt. cbn [Qnum Qden].
  set (N := (n * Zpos d * 2 ^ 104)%Z).
  assert (HN : (N = 0 \/ 2 ^ 104 <= N)%Z).
  { destruct (Z.eq_dec n 0%Z) as [-> | Hne]; [left; reflexivity|]. right.
    unfold N. assert (0 < 2 ^ 104)%Z by reflexivity. nia. }
  destruct (integer_sqrt_accurate N HN) as [Hlo Hacc].
  set (r := Z.sqrt N) in *.
  assert (Hr0 : (0 <= r)%Z) by apply Z.sqrt_nonneg.
  split; [unfold Qle; cbn; lia|].
  set (dq := inject_Z (Zpos d)). set (t := inject_Z (2 ^ 52)).
  assert (Hdq : 0 < dq) by (unfold dq; change 0 with (inject_Z 0); rewrite <- Zlt_Qlt; lia).
  assert (Ht : 0 < t) by reflexivity.
  assert (Ey : r # (d * 2 ^ 52) == inject_Z r / (dq * t)).
  { rewrite Qmake_Qdiv. unfold dq, t. rewrite <- inject_Z_mult.
    rewrite Pos2Z.inj_mul. reflexivity. }
  assert (Ea : n # d == inject_Z N / ((dq * t) * (dq * t))).
  { rewrite Qmake_Qdiv. unfold N. rewrite !inject_Z_mult. fold dq.
    change (inject_Z (2 ^ 104)) with (t * t). field. split; lra. }
  assert (Etp : Binary64.two_power (-50) == 1 / inject_Z (2 ^ 50)) by reflexivity.
  rewrite Ey, Ea, Etp.
  set (R := inject_Z r). set (NN := inject_Z N). set (T := inject_Z (2 ^ 50)).
  set (k := (dq * t) * (dq * t)).
  assert (Hdt : 0 < dq * t) by (apply Qmult_lt_0_compat; assumption).
  assert (Hk : 0 < k) by (unfold k; apply Qmult_lt_0_compat; exact Hdt).
  assert (HT : 0 < T) by reflexivity.
  assert (H1 : R * R <= NN).
  { unfold R, NN. rewrite <- inject_Z_mult, <- Zle_Qle. exact Hlo. }
  assert (H2 : (NN - R * R) * T <= NN).
  { unfold R, NN, T. rewrite <- inject_Z_mult.
    unfold Qminus. rewrite <- inject_Z_opp, <- inject_Z_plus, <- inject_Z_mult.
    rewrite <- Zle_Qle. replace (N + - (r * r))%Z with (N - r * r)%Z by ring. exact Hacc. }
  assert (E : R / (dq * t) * (R / (dq * t)) - NN / k == - ((NN - R * R) / k))
    by (unfold k; field; split; lra).
  rewrite E, Qabs_opp, Qabs_pos.
  - assert (E2 : NN / k * (1 / T) == NN / T / k) by (field; split; lra).
    rewrite E2. apply Qmult_le_compat_r; [|apply Qlt_le_weak, Qinv_lt_0_compat, Hk].
    apply Qle_shift_div_l; [exact HT | exact H2].
  - apply Qle_shift_div_l; [exact Hk | lra].
Qed.

(** The example library honours the contract of the power. *)
Lemma example_libm_square_root : pow_half_is_square_root.
Proof.
  intros a Ha. unfold is_square_root.
  change (Binary64.lit 0.5) with (Binary64.Finite (1 # 2)).
  cbn [Binary64.float_pow example_libm].
  change (Qeq_bool (1 # 2) (1 # 2)) with true.
  assert (E : Qle_bool 0 a = true) by (apply Qle_bool_iff, Ha).
  rewrite E. cbn [andb]. apply binary_sqrt_accurate, Ha.
Qed.







(** C4.  Whatever the observation, infinite or not a number included, each
    derived index is clamped on its own to its range and then rounded to
    one decimal, which keeps it in the range: ffmc in [40, 96], dmc in
    [1, 30], dc in [5, 400], isi in [0, 15], bui in [1, 40] and fwi in
    [0, 25].  Before clamping, fwi is the power one half of the product of
    the clamped isi and bui, a product between 0 and 600 up to rounding:
    its square root, to within the accuracy of the library power. *)
Theorem indices_clamped `{LM : Binary64.Libm} (w : Binary64.WeatherData)
    (temp hum wind rain : Binary64.float) :
  Binary64.temperature w = Some temp -> Binary64.humidity w = Some hum ->
  Binary64.wind_speed w = Some wind -> Binary64.rainfall w = Some rain ->
  exists ix ffmc_ dmc_ dc_ isi_ bui_ fwi_,
    Binary64.generate_fire_weather_indices w = Ok ix /\
    in_range 40 96 (Binary64.ix_ffmc ix) /\
    in_range 1 30 (Binary64.ix_dmc ix) /\
    in_range 5 400 (Binary64.ix_dc ix) /\
    in_range 0 15 (Binary64.ix_isi ix) /\
    in_range 1 40 (Binary64.ix_bui ix) /\
    in_range 0 25 (Binary64.ix_fwi ix) /\
    ffmc_
    = float_clamp (Binary64.lit 40) (Binary64.lit 96)
        (Binary64.sub
           (Binary64.sub
              (Binary64.add (Binary64.lit 60)
                 (Binary64.mul (Binary64.sub temp (Binary64.lit 25)) (Binary64.lit 1.5)))
              (Binary64.mul (Binary64.sub hum (Binary64.lit 50)) (Binary64.lit 0.3)))
           (Binary64.mul rain (Binary64.lit 3))) /\
    dmc_
    = float_clamp (Binary64.lit 1) (Binary64.lit 30)
        (Binary64.sub
           (Binary64.add (Binary64.lit 10)
              (Binary64.mul (Binary64.sub temp (Binary64.lit 25)) (Binary64.lit 0.5)))
           (Binary64.mul hum (Binary64.lit 0.1))) /\
    dc_
    = float_clamp (Binary64.lit 5) (Binary64.lit 400)
        (Binary64.sub
           (Binary64.add (Binary64.lit 150)
              (Binary64.mul (Binary64.sub temp (Binary64.lit 25)) (Binary64.lit 5)))
           (Binary64.mul rain (Binary64.lit 10))) /\
    isi_
    = float_clamp (Binary64.lit 0) (Binary64.lit 15)
        (Binary64.add
           (Binary64.mul (Binary64.sub ffmc_ (Binary64.lit 60)) (Binary64.lit 0.15))
           (Binary64.mul wind (Binary64.lit 0.2))) /\
    bui_
    = float_clamp (Binary64.lit 1) (Binary64.lit 40)
        (Binary64.add (Binary64.mul dmc_ (Binary64.lit 0.8))
           (Binary64.mul dc_ (Binary64.lit 0.02))) /\
    fwi_ = Binary64.float_pow (Binary64.mul isi_ bui_) (Binary64.lit 0.5) /\
    Binary64.ix_ffmc ix = Binary64.round ffmc_ 1 /\
    Binary64.ix_dmc ix = Binary64.round dmc_ 1 /\
    Binary64.ix_dc ix = Binary64.round dc_ 1 /\
    Binary64.ix_isi ix = Binary64.round isi_ 1 /\
    Binary64.ix_bui ix = Binary64.round bui_ 1 /\
    Binary64.ix_fwi ix
    = Binary64.round (float_clamp (Binary64.lit 0) (Binary64.lit 25) fwi_) 1 /\
    (exists product, Binary64.mul isi_ bui_ = Binary64.Finite product /\ 0 <= product) /\
    (pow_half_is_square_root -> is_square_root (Binary64.mul isi_ bui_) fwi_).
Proof.
  intros Ht Hh Hw Hr. unfold Binary64.generate_fire_weather_indices.
  rewrite Ht, Hh, Hw, Hr. cbv beta iota zeta delta [get_item].
  set (raw_ffmc := Binary64.sub (Binary64.sub _ _) (Binary64.mul rain _)).
  rewrite (py_clamp_float 40 96 raw_ffmc eq_refl
           : Binary64.py_max (Binary64.lit 40) (Binary64.py_min (Binary64.lit 96) raw_ffmc)
             = float_clamp (Binary64.lit 40) (Binary64.lit 96) raw_ffmc).
  set (ffmc_ := float_clamp (Binary64.lit 40) (Binary64.lit 96) raw_ffmc).
  set (raw_dmc := Binary64.sub (Binary64.add (Binary64.lit 10) _) _).
  rewrite (py_clamp_float 1 30 raw_dmc eq_refl
           : Binary64.py_max (Binary64.lit 1) (Binary64.py_min (Binary64.lit 30) raw_dmc)
             = float_clamp (Binary64.lit 1) (Binary64.lit 30) raw_dmc).
  set (dmc_ := float_clamp (Binary64.lit 1) (Binary64.lit 30) raw_dmc).
  set (raw_dc := Binary64.sub (Binary64.add (Binary64.lit 150) _) _).
  rewrite (py_clamp_float 5 400 raw_dc eq_refl
           : Binary64.py_max (Binary64.lit 5) (Binary64.py_min (Binary64.lit 400) raw_dc)
             = float_clamp (Binary64.lit 5) (Binary64.lit 400) raw_dc).
  set (dc_ := float_clamp (Binary64.lit 5) (Binary64.lit 400) raw_dc).
  set (raw_isi := Binary64.add (Binary64.mul (Binary64.sub ffmc_ _) _) _).
  rewrite (py_clamp_float 0 15 raw_isi eq_refl
           : Binary64.py_max (Binary64.lit 0) (Binary64.py_min (Binary64.lit 15) raw_isi)
             = float_clamp (Binary64.lit 0) (Binary64.lit 15) raw_isi).
  set (isi_ := float_clamp (Binary64.lit 0) (Binary64.lit 15) raw_isi).
  set (raw_bui := Binary64.add (Binary64.mul dmc_ _) _).
  rewrite (py_clamp_float 1 40 raw_bui eq_refl
           : Binary64.py_max (Binary64.lit 1) (Binary64.py_min (Binary64.lit 40) raw_bui)
             = float_clamp (Binary64.lit 1) (Binary64.lit 40) raw_bui).
  set (bui_ := float_clamp (Binary64.lit 1) (Binary64.lit 40) raw_bui).
  set (fwi_ := Binary64.float_pow (Binary64.mul isi_ bui_) (Binary64.lit 0.5)).
  rewrite (py_clamp_float 0 25 fwi_ eq_refl
           : Binary64.py_max (Binary64.lit 0) (Binary64.py_min (Binary64.lit 25) fwi_)
             = float_clamp (Binary64.lit 0) (Binary64.lit 25) fwi_).
  assert (Rffmc : in_range 40 96 ffmc_) by exact (float_clamp_range 40 96 _ ltac:(lra)).
  assert (Rdmc : in_range 1 30 dmc_) by exact (float_clamp_range 1 30 _ ltac:(lra)).
  assert (Rdc : in_range 5 400 dc_) by exact (float_clamp_range 5 400 _ ltac:(lra)).
  assert (Risi : in_range 0 15 isi_) by exact (float_clamp_range 0 15 _ ltac:(lra)).
  assert (Rbui : in_range 1 40 bui_) by exact (float_clamp_range 1 40 _ ltac:(lra)).
  assert (Rfwi : in_range 0 25 (float_clamp (Binary64.lit 0) (Binary64.lit 25) fwi_))
    by exact (float_clamp_range 0 25 _ ltac:(lra)).
  assert (Hprod : exists product,
             Binary64.mul isi_ bui_ = Binary64.Finite product /\ 0 <= product).
  { destruct Risi as (vi & -> & Hi0 & Hi1). destruct Rbui as (vb & -> & Hb0 & Hb1).
    cbn [Binary64.mul]. apply nearest_small; nra. }
  eexists. exists ffmc_, dmc_, dc_, isi_, bui_, fwi_.
  split; [reflexivity|].
  cbn [Binary64.ix_ffmc Binary64.ix_dmc Binary64.ix_dc Binary64.ix_isi
       Binary64.ix_bui Binary64.ix_fwi].
  split; [exact (round_range 40 96 _ ltac:(lia) ltac:(lia) Rffmc)|].
  split; [exact (round_range 1 30 _ ltac:(lia) ltac:(lia) Rdmc)|].
  split; [exact (round_range 5 400 _ ltac:(lia) ltac:(lia) Rdc)|].
  split; [exact (round_range 0 15 _ ltac:(lia) ltac:(lia) Risi)|].
  split; [exact (round_range 1 40 _ ltac:(lia) ltac:(lia) Rbui)|].
  split; [exact (round_range 0 25 _ ltac:(lia) ltac:(lia) Rfwi)|].
  do 12 (split; [reflexivity|]).
  split; [exact Hprod|].
  intros Hpow. destruct Hprod as (product & Eprod & Hpos).
  unfold fwi_. rewrite Eprod. exact (Hpow product Hpos).
Qed.

Lemma indices_clamped_witness :
  exists ix isi_ bui_ fwi_,
    Binary64.generate_fire_weather_indices (float_weather_of 100 0 10 0 0) = Ok ix /\
    in_range 40 96 (Binary64.ix_ffmc ix) /\
    in_range 1 30 (Binary64.ix_dmc ix) /\
    in_range 5 400 (Binary64.ix_dc ix) /\
    in_range 0 15 (Binary64.ix_isi ix) /\
    in_range 1 40 (Binary64.ix_bui ix) /\
    in_range 0 25 (Binary64.ix_fwi ix) /\
    Binary64.ix_isi ix = Binary64.round isi_ 1 /\
    Binary64.ix_bui ix = Binary64.round bui_ 1 /\
    Binary64.ix_fwi ix
    = Binary64.round (float_clamp (Binary64.lit 0) (Binary64.lit 25) fwi_) 1 /\
    is_square_root (Binary64.mul isi_ bui_) fwi_.
Proof.
  destruct (indices_clamped (float_weather_of 100 0 10 0 0)
              (Binary64.Finite 100) (Binary64.Finite 0) (Binary64.Finite 10)
              (Binary64.Finite 0) eq_refl eq_refl eq_refl eq_refl)
    as (ix & ffmc_ & dmc_ & dc_ & isi_ & bui_ & fwi_ & Hix & H1 & H2 & H3 & H4 & H5 & H6
        & _ & _ & _ & _ & _ & _ & _ & _ & _ & E4 & E5 & E6 & _ & Hroot).
  exists ix, isi_, bui_, fwi_.
  repeat (split; [assumption|]). exact (Hroot example_libm_square_root).
Defined.
